(** * BenaPRO: the ZIP ingestion pipeline and the evaluation ledger

    A shallow embedding of the core of [BenaPRO.py]:
    - [ZipLoaderThread]: [run], [organize_files], [extract_frame_info],
      [extract_dedo_info];
    - [MainWindow]: [load_resultado_json], [save_resultado_json],
      [salvar_anotacao], [jump_to_next_unevaluated], [next_image],
      [prev_image], [load_zip_file], [on_zip_finished],
      [load_progress_data], [open_erro_selector], [processar_avaliacoes];
    - [ProgressDialog]: [update_progress];
    - [AvaliacaoDialog]: [on_estrela_click], [get_avaliacoes],
      [todas_avaliacoes_preenchidas], [restaurar_avaliacoes];
    - [ErroDialog]: [validate_and_accept];
    - [CustomErrorsDialog]: [load_custom_errors], [save_custom_errors],
      [add_nome], [add_descricao], [delete_nome], [delete_descricao].

    The widgets of Qt are not part of the embedding: what the user has
    typed, selected or answered comes in as an argument.

    Conventions of the embedding.
    - A Python [str] is a [string] whose characters are 8-bit code points
      (Latin-1, which holds the Portuguese labels of the program); one
      [ascii] is one character, so [len] is [String.length] and the order
      of [str] is [String.compare].
    - Paths follow [posixpath]: the separator is ["/"].
    - A Python exception is the [Raise] case of [result]; [try]/[except]
      is a match on it. Where a call changes the file or the window
      before it raises, it answers them beside the result.
    - The scratch directory is a tree of [entry]; the ledger file is an
      optional text; [zipfile] and [json] are parameters.
    - What [json.load] returns is a value of [Json.t], of any shape; the
      typed [Ledger] is the shape the program writes, and
      [upsert_json_ledger] relates the lines of [salvar_anotacao] on a
      document to [upsert] on a ledger.
    - A Python [float] is a binary64 of [PrimFloat], specified by
      [SpecFloat] through [FloatAxioms]. *)

From Stdlib Require Import ZArith NArith String Ascii List Bool Lia.
From Stdlib Require Import PrimFloat FloatOps SpecFloat FloatAxioms Uint63.
From stdpp Require Import base option list strings sorting gmap.

Local Open Scope string_scope.
Local Open Scope list_scope.
Local Open Scope Z_scope.

(** ** Python primitives *)

Module Py.

(** Outcome of a computation that may raise; the payload of [Raise] is
    [str(e)]. *)
Inductive result (A : Type) : Type :=
| Ok (a : A)
| Raise (e : string).
Global Arguments Ok {A} a.
Global Arguments Raise {A} e.

Global Instance result_ret : MRet result := @Ok.
Global Instance result_bind : MBind result := λ A B k r,
  match r with
  | Ok a => k a
  | Raise e => Raise e
  end.

(** A loop that builds a list and stops at the first exception. *)
Fixpoint for_each {A B} (f : A → result B) (l : list A) : result (list B) :=
  match l with
  | [] => Ok []
  | x :: l' => y ← f x; ys ← for_each f l'; Ok (y :: ys)
  end.

(** *** Characters *)

Definition code (c : ascii) : N := N_of_ascii c.

Definition between (lo hi : N) (c : ascii) : bool :=
  ((lo <=? code c) && (code c <=? hi))%N.

(** The class [\d] of [re] on [str] patterns: the decimal digits. *)
Definition is_decimal (c : ascii) : bool := between 48 57 c.

(** [str.isdigit] on one character: the decimal digits and the
    superscript digits U+00B2, U+00B3, U+00B9. *)
Definition isdigit (c : ascii) : bool :=
  is_decimal c || (code c =? 178)%N || (code c =? 179)%N || (code c =? 185)%N.

(** [str.lower] on one character: A-Z and the accented capitals
    U+00C0-U+00DE, the multiplication sign U+00D7 apart. *)
Definition lower_char (c : ascii) : ascii :=
  if between 65 90 c || (between 192 222 c && negb (code c =? 215)%N)
  then ascii_of_N (code c + 32)
  else c.

Fixpoint lower (s : string) : string :=
  match s with
  | "" => ""
  | String c s' => String (lower_char c) (lower s')
  end.

(** *** Slices and searches *)

(** [s[:n]] and [s[n:]] for [n >= 0]. *)
Fixpoint slice_to (n : nat) (s : string) : string :=
  match n, s with
  | S k, String c s' => String c (slice_to k s')
  | _, _ => ""
  end.

Fixpoint slice_from (n : nat) (s : string) : string :=
  match n, s with
  | S k, String _ s' => slice_from k s'
  | _, _ => s
  end.

Fixpoint rfind_from (c : ascii) (s : string) (i acc : Z) : Z :=
  match s with
  | "" => acc
  | String a s' => rfind_from c s' (i + 1) (if Ascii.eqb a c then i else acc)
  end.

(** [s.rfind(c)]: the last index of [c], or [-1]. *)
Definition rfind (c : ascii) (s : string) : Z := rfind_from c s 0 (-1).

Fixpoint all_chars (p : ascii → bool) (s : string) : bool :=
  match s with
  | "" => true
  | String c s' => p c && all_chars p s'
  end.

Fixpoint take_while (p : ascii → bool) (s : string) : string :=
  match s with
  | "" => ""
  | String c s' => if p c then String c (take_while p s') else ""
  end.

(** *** [str.split(sep)] for a one-character separator *)
Fixpoint split (sep : ascii) (s : string) : list string :=
  match s with
  | "" => [""]
  | String c s' =>
      if Ascii.eqb c sep then "" :: split sep s'
      else match split sep s' with
           | tok :: rest => String c tok :: rest
           | [] => [String c ""]
           end
  end.

(** *** [str.strip(chars)] for a one-character set *)
Fixpoint lstrip (c : ascii) (s : string) : string :=
  match s with
  | "" => ""
  | String a s' => if Ascii.eqb a c then lstrip c s' else s
  end.

Fixpoint rstrip (c : ascii) (s : string) : string :=
  match s with
  | "" => ""
  | String a s' =>
      match rstrip c s' with
      | "" => if Ascii.eqb a c then "" else String a ""
      | r => String a r
      end
  end.

Definition strip (c : ascii) (s : string) : string := rstrip c (lstrip c s).

(** *** [str.replace(old, new)]

    Occurrences are found from the left and do not overlap; [skip]
    counts the characters of the occurrence being consumed. *)
Fixpoint replace_go (old new : string) (skip : nat) (s : string) : string :=
  match s with
  | "" => ""
  | String c s' =>
      match skip with
      | S k => replace_go old new k s'
      | O =>
          if String.prefix old s
          then new +:+ replace_go old new (String.length old - 1) s'
          else String c (replace_go old new 0 s')
      end
  end.

Fixpoint between_chars (new s : string) : string :=
  match s with
  | "" => ""
  | String c s' => String c (new +:+ between_chars new s')
  end.

Definition replace (s old new : string) : string :=
  match old with
  | "" => new +:+ between_chars new s
  | _ => replace_go old new 0 s
  end.

(** *** Lists *)

(** [l[-k]] for [k >= 1]. *)
Definition index_neg {A} (l : list A) (k : nat) : result A :=
  match k with
  | O => Raise "IndexError: list index out of range"
  | S _ =>
      if (k <=? length l)%nat
      then match l !! (length l - k)%nat with
           | Some x => Ok x
           | None => Raise "IndexError: list index out of range"
           end
      else Raise "IndexError: list index out of range"
  end.

(** A dict literal with [str] keys, in the order it is written. *)
Fixpoint dict_get (d : list (string * string)) (k : string) : option string :=
  match d with
  | [] => None
  | (k', v) :: d' => if String.eqb k k' then Some v else dict_get d' k
  end.

(** [int(s)] on a run of decimal digits. *)
Definition int_of_digits (s : string) : Z :=
  fold_left (λ acc c, 10 * acc + (Z.of_N (code c) - 48)) (list_ascii_of_string s) 0.

(** *** [os.path] *)

Definition sep : ascii := "/".

Definition endswith_char (c : ascii) (s : string) : bool :=
  match String.get (String.length s - 1) s with
  | Some a => negb (String.eqb s "") && Ascii.eqb a c
  | None => false
  end.

(** [os.path.join(a, b)] *)
Definition join (a b : string) : string :=
  if String.prefix "/" b then b
  else if String.eqb a "" || endswith_char sep a then a +:+ b
  else a +:+ "/" +:+ b.

(** [os.path.basename(p)] *)
Definition basename (p : string) : string :=
  slice_from (Z.to_nat (rfind sep p + 1)) p.

(** [os.path.splitext(p)]: the extension starts at the last dot of the
    last component, unless only dots precede it there. *)
Definition splitext (p : string) : string * string :=
  let sepIndex := rfind sep p in
  let dotIndex := rfind "." p in
  if sepIndex <? dotIndex then
    let filenameIndex := sepIndex + 1 in
    let stem := slice_to (Z.to_nat (dotIndex - filenameIndex))
                         (slice_from (Z.to_nat filenameIndex) p) in
    if all_chars (Ascii.eqb ".") stem then (p, "")
    else (slice_to (Z.to_nat dotIndex) p, slice_from (Z.to_nat dotIndex) p)
  else (p, "").

(** *** Floats *)

(** [float(n)] for an [int] of at most 53 bits. *)
Definition float_of_int (n : Z) : float := PrimFloat.of_uint63 (Uint63.of_Z n).

(** [int(x)]: truncation towards zero; infinities and NaN raise. The
    magnitude of a finite [x] is [m * 2 ^ e], and a shift by a negative
    [e] drops the fraction. *)
Definition int_of_float (x : float) : result Z :=
  match Prim2SF x with
  | S754_zero _ => Ok 0
  | S754_finite s m e =>
      let v := Z.shiftl (Z.pos m) e in
      Ok (if s then - v else v)
  | S754_infinity _ => Raise "cannot convert float infinity to integer"
  | S754_nan => Raise "cannot convert float NaN to integer"
  end.

(** [a / b] on [int]s. *)
Definition truediv (a b : Z) : result float :=
  if b =? 0 then Raise "division by zero"
  else Ok (PrimFloat.div (float_of_int a) (float_of_int b)).

(** *** [str.strip()] without argument *)

(** [str.isspace] on one character. *)
Definition isspace (c : ascii) : bool :=
  between 9 13 c || between 28 32 c || (code c =? 133)%N || (code c =? 160)%N.

Fixpoint lstrip_ws (s : string) : string :=
  match s with
  | "" => ""
  | String a s' => if isspace a then lstrip_ws s' else s
  end.

Fixpoint rstrip_ws (s : string) : string :=
  match s with
  | "" => ""
  | String a s' =>
      match rstrip_ws s' with
      | "" => if isspace a then "" else String a ""
      | r => String a r
      end
  end.

Definition strip_ws (s : string) : string := rstrip_ws (lstrip_ws s).

(** [l.remove(x)] when [x in l]: the first occurrence goes. *)
Fixpoint remove_first (x : string) (l : list string) : list string :=
  match l with
  | [] => []
  | y :: l' => if String.eqb y x then l' else y :: remove_first x l'
  end.

End Py.

(** ** The scratch directory *)

(** What [zipfile] leaves under the scratch directory: regular files and
    directories, each directory listing its entries in the order the
    operating system enumerates them. *)
#[local] Set Warnings "-register-all".
Inductive entry : Type :=
| File (name : string)
| Dir (name : string) (children : list entry).

Definition entry_name (e : entry) : string :=
  match e with
  | File n => n
  | Dir n _ => n
  end.

Definition file_name (e : entry) : option string :=
  match e with
  | File n => Some n
  | Dir _ _ => None
  end.

(** [os.walk(top)], top-down: the directory itself with the names of its
    files, then each sub-directory under [os.path.join(top, name)]. *)
Fixpoint walk (top : string) (e : entry) : list (string * list string) :=
  match e with
  | File _ => []
  | Dir _ children =>
      (top, omap file_name children)
        :: concat (map (λ c, walk (Py.join top (entry_name c)) c) children)
  end.

Definition os_walk (top : string) (tree : list entry) : list (string * list string) :=
  walk top (Dir top tree).

(** ** ZipLoaderThread *)

Module ZipLoaderThread.

(** One dict of [all_files]. *)
Record MediaItem : Type := {
  file_path : string;
  filename : string;
  nome_sem_ext : string;
  data : string;
  id : string;
  dedo : string;
  frame : Z
}.

Definition valid_extensions : list string :=
  [".jpg"; ".jpeg"; ".png"; ".bmp"; ".gif"; ".webp"; ".tif"; ".tiff"].

(** *** extract_frame_info *)

(** [_frame_(\d+)] with [re.IGNORECASE], anchored at the head of [s]. *)
Definition frame_match_here (s : string) : option string :=
  if String.prefix "_frame_" (Py.lower s)
  then match Py.take_while Py.is_decimal (Py.slice_from 7 s) with
       | "" => None
       | digits => Some digits
       end
  else None.

Fixpoint frame_search (s : string) : option string :=
  match frame_match_here s with
  | Some digits => Some digits
  | None =>
      match s with
      | "" => None
      | String _ s' => frame_search s'
      end
  end.

Definition extract_frame_info (filename : string) : Z :=
  match frame_search filename with
  | Some digits => Py.int_of_digits digits
  | None => 0
  end.

(** *** extract_dedo_info *)

Definition finger_map : list (string * string) :=
  [("dedao", "Ded" +:+ String "227" "o"); ("indic", "Indicador");
   ("medio", "M" +:+ String "233" "dio"); ("anel", "Anelar");
   ("mind", "Mindinho")].

Definition side_map : list (string * string) :=
  [("d", "Direita"); ("e", "Esquerda")].

Definition is_d_or_e (s : string) : bool :=
  String.eqb s "d" || String.eqb s "e".

(** One iteration of [for part in parts] on [(found_finger, found_side)]. *)
Definition scan_part (st : string * string) (part : string) : string * string :=
  let '(found_finger, found_side) := st in
  let found_finger :=
    match Py.dict_get finger_map part with
    | Some v => v
    | None => found_finger
    end in
  let found_side :=
    if is_d_or_e part then default found_side (Py.dict_get side_map part)
    else found_side in
  let found_side :=
    match part with
    | String c0 (String c1 "") =>
        if Py.isdigit c0 && is_d_or_e (String c1 "")
        then default found_side (Py.dict_get side_map (String c1 ""))
        else found_side
    | _ => found_side
    end in
  (found_finger, found_side).

Definition truthy (s : string) : bool := negb (String.eqb s "").

Definition extract_dedo_info (filename : string) : string :=
  let parts := Py.split "_" (Py.lower filename) in
  let '(found_finger, found_side) := fold_left scan_part parts ("", "") in
  if truthy found_finger && truthy found_side
  then found_finger +:+ " - " +:+ found_side
  else if truthy found_finger then found_finger else "Desconhecido".

(** *** organize_files *)

(** [(\d{4})[ _](\d{2})] anchored at the head of [s]. *)
Definition date_match_here (s : string) : option (string * string) :=
  match s with
  | String y1 (String y2 (String y3 (String y4 (String c (String m1 (String m2 _)))))) =>
      if Py.is_decimal y1 && Py.is_decimal y2 && Py.is_decimal y3 && Py.is_decimal y4
         && (Ascii.eqb c " " || Ascii.eqb c "_")
         && Py.is_decimal m1 && Py.is_decimal m2
      then Some (String y1 (String y2 (String y3 (String y4 ""))), String m1 (String m2 ""))
      else None
  | _ => None
  end.

(** [regex_date.search]: the leftmost match. *)
Fixpoint regex_date_search (s : string) : option (string * string) :=
  match date_match_here s with
  | Some groups => Some groups
  | None =>
      match s with
      | "" => None
      | String _ s' => regex_date_search s'
      end
  end.

Definition is_valid (file : string) : bool :=
  bool_decide (Py.lower (Py.splitext file).2 ∈ valid_extensions).

(** The body of the inner loop for a file that is kept. *)
Definition make_item (temp_dir ano mes root file : string) : Py.result MediaItem :=
  let file_path := Py.join root file in
  let relative_path := Py.strip Py.sep (Py.replace file_path temp_dir "") in
  let path_parts := Py.split Py.sep relative_path in
  dia ← (if (3 <=? length path_parts)%nat then Py.index_neg path_parts 3
         else Py.Ok "??");
  let data_formatada := dia +:+ "/" +:+ mes +:+ "/" +:+ ano in
  id_folder ← (if (2 <=? length path_parts)%nat then Py.index_neg path_parts 2
               else Py.Ok "Unknown");
  let nome_sem_ext := (Py.splitext file).1 in
  Py.Ok {| file_path := file_path;
           filename := file;
           nome_sem_ext := nome_sem_ext;
           data := data_formatada;
           id := id_folder;
           dedo := extract_dedo_info nome_sem_ext;
           frame := extract_frame_info nome_sem_ext |}.

(** The sort key [(x['data'], x['id'], x['filename'])] and the order of
    Python tuples: the first components that differ decide. *)
Definition sort_key (x : MediaItem) : string * string * string :=
  (data x, id x, filename x).

Definition tuple_lt (a b : string * string * string) : bool :=
  let '(a1, a2, a3) := a in
  let '(b1, b2, b3) := b in
  if negb (String.eqb a1 b1) then String.ltb a1 b1
  else if negb (String.eqb a2 b2) then String.ltb a2 b2
  else String.ltb a3 b3.

(** [list.sort(key=...)]: a stable sort that only asks whether one key
    is less than another. An element is placed behind the elements that
    are strictly smaller, so before its equals that came later. *)
Fixpoint insert_by {A K} (lt : K → K → bool) (key : A → K) (x : A) (l : list A) : list A :=
  match l with
  | [] => [x]
  | y :: l' => if lt (key y) (key x) then y :: insert_by lt key x l' else x :: l
  end.

Definition sort_by {A K} (lt : K → K → bool) (key : A → K) (l : list A) : list A :=
  foldr (insert_by lt key) [] l.

(** The files the two loops keep, in the order they are reached, each
    with the [root] it was found under. *)
Definition kept_files (temp_dir : string) (tree : list entry) : list (string * string) :=
  concat (map (λ '(root, files), map (pair root) (filter (λ f, is_valid f = true) files))
              (os_walk temp_dir tree)).

(** [all_files] before the sort. *)
Definition collect_files (zip_path temp_dir : string) (tree : list entry)
  : Py.result (list MediaItem) :=
  let '(ano, mes) := default ("????", "??") (regex_date_search (Py.basename zip_path)) in
  Py.for_each (λ '(root, file), make_item temp_dir ano mes root file)
              (kept_files temp_dir tree).

Definition organize_files (zip_path temp_dir : string) (tree : list entry)
  : Py.result (list MediaItem) :=
  all_files ← collect_files zip_path temp_dir tree;
  Py.Ok (sort_by tuple_lt sort_key all_files).

(** *** run *)

Inductive event : Type :=
| Progress (percent : Z) (text : string)
| Finished (media_files : list MediaItem)
| Error (message : string).

(** The archive as [zipfile] presents it: opening [zip_path] and listing
    the members may raise, and so may the extraction of a member into
    the scratch directory. An extraction that raises may have created
    directories and written the file of the member already:
    [zip_extract_leaves] is the scratch directory such a call leaves. *)
Record ZipLib : Type := {
  zip_namelist : string → Py.result (list string);
  zip_extract : string → string → string → list entry → Py.result (list entry);
  zip_extract_leaves : string → string → string → list entry → list entry
}.

(** The scratch directory and the signals emitted so far. *)
Record world : Type := {
  scratch : list entry;
  emitted : list event
}.

Definition emit (ev : event) (w : world) : world :=
  {| scratch := scratch w; emitted := emitted w ++ [ev] |}.

(** [int(((i + 1) / total_files) * 100)] *)
Definition percent_of (i total_files : Z) : Py.result Z :=
  q ← Py.truediv (i + 1) total_files;
  Py.int_of_float (PrimFloat.mul q (Py.float_of_int 100)).

(** [for i, member in enumerate(file_list)], from index [i] on. *)
Fixpoint extract_members (lib : ZipLib) (zip_path temp_dir : string)
    (total_files i : Z) (members : list string) (w : world) : Py.result unit * world :=
  match members with
  | [] => (Py.Ok (), w)
  | member :: rest =>
      match zip_extract lib zip_path member temp_dir (scratch w) with
      | Py.Raise e =>
          (Py.Raise e,
           {| scratch := zip_extract_leaves lib zip_path member temp_dir (scratch w);
              emitted := emitted w |})
      | Py.Ok tree' =>
          let w' := {| scratch := tree'; emitted := emitted w |} in
          match percent_of i total_files with
          | Py.Raise e => (Py.Raise e, w')
          | Py.Ok percent =>
              extract_members lib zip_path temp_dir total_files (i + 1) rest
                (emit (Progress percent ("Extraindo: " +:+ member)) w')
          end
      end
  end.

Definition msg_iniciando : string :=
  "Iniciando extra" +:+ String "231" (String "227" "o...").

Definition run (lib : ZipLib) (zip_path temp_dir : string) (tree : list entry) : world :=
  let w0 := emit (Progress 0 msg_iniciando) {| scratch := tree; emitted := [] |} in
  let '(r, w1) :=
    match zip_namelist lib zip_path with
    | Py.Raise e => (Py.Raise e, w0)
    | Py.Ok file_list =>
        extract_members lib zip_path temp_dir (Z.of_nat (length file_list)) 0 file_list w0
    end in
  let '(r, w2) :=
    match r with
    | Py.Raise e => (Py.Raise e, w1)
    | Py.Ok _ =>
        let w := emit (Progress 100 "Organizando arquivos...") w1 in
        match organize_files zip_path temp_dir (scratch w) with
        | Py.Raise e => (Py.Raise e, w)
        | Py.Ok media_files => (Py.Ok (), emit (Finished media_files) w)
        end
    end in
  match r with
  | Py.Raise e => emit (Error e) w2
  | Py.Ok _ => w2
  end.

End ZipLoaderThread.

(** ** ProgressDialog *)

Module ProgressDialog.

(** The value of the bar and the text of the label, once set, and
    whether the dialog has been accepted, which closes it. *)
Record t : Type := {
  progress_bar : option Z;
  status_label : string;
  accepted : bool
}.

Definition new : t :=
  {| progress_bar := None; status_label := "Iniciando..."; accepted := false |}.

(** [update_progress] *)
Definition update_progress (d : t) (val : Z) (text : string) : t :=
  {| progress_bar := Some val;
     status_label := text;
     accepted := accepted d || (100 <=? val) |}.

End ProgressDialog.

(** ** AvaliacaoDialog *)

Module AvaliacaoDialog.

(** The dialog over the selected errors: [avaliacoes] maps the index of
    an error to the rating given to it. *)
Record t (A : Type) : Type := {
  erros_selecionados : list A;
  avaliacoes : gmap nat Z
}.
Global Arguments erros_selecionados {A} _.
Global Arguments avaliacoes {A} _.

(** [AvaliacaoDialog(parent, erros)] *)
Definition new {A} (erros : list A) : t A :=
  {| erros_selecionados := erros; avaliacoes := ∅ |}.

(** [self.avaliacoes[erro_index] = estrela_index + 1] *)
Definition on_estrela_click {A} (d : t A) (erro_index estrela_index : nat) : t A :=
  {| erros_selecionados := erros_selecionados d;
     avaliacoes := <[erro_index := Z.of_nat estrela_index + 1]> (avaliacoes d) |}.

Definition get_avaliacoes {A} (d : t A) : gmap nat Z := avaliacoes d.

(** [len(self.avaliacoes) == len(self.erros_selecionados) and
    all(av > 0 for av in self.avaliacoes.values())] *)
Definition todas_avaliacoes_preenchidas {A} (d : t A) : bool :=
  bool_decide (size (avaliacoes d) = length (erros_selecionados d))
  && bool_decide (map_Forall (λ _ av, 0 < av) (avaliacoes d)).

(** The saved ratings whose index is within the list come back. *)
Definition restaurar_avaliacoes {A} (d : t A) (avaliacoes_salvas : gmap nat Z) : t A :=
  {| erros_selecionados := erros_selecionados d;
     avaliacoes :=
       filter (λ kv, (kv.1 < length (erros_selecionados d))%nat) avaliacoes_salvas
       ∪ avaliacoes d |}.

(** The clicks the dialog can receive: one button per error and star. *)
Inductive click : Type := Click (erro_index estrela_index : nat).

Definition apply_click {A} (d : t A) (c : click) : t A :=
  match c with
  | Click i k => on_estrela_click d i k
  end.

End AvaliacaoDialog.

(** ** ErroDialog *)

Module ErroDialog.

(** How [validate_and_accept] ends: the dialog is rejected, the warning
    is shown, or the dialog is accepted. The warning lists the names
    [pendentes[:5]], and ends in ["... e outros."] when there are more. *)
Inductive outcome : Type :=
| Rejected
| Incomplete (listed : list string) (e_outros : bool)
| Accepted.

(** [validate_and_accept] on the data of the selected items of the two
    lists: the names, and the (name, description) pairs. *)
Definition validate_and_accept (nomes_selecionados : list string)
    (descricoes_data : list (string * string)) : outcome :=
  if bool_decide (nomes_selecionados = []) then Rejected
  else
    let nomes_com_descricao : gset string := list_to_set (fst <$> descricoes_data) in
    let pendentes := filter (λ nome, nome ∉ nomes_com_descricao) nomes_selecionados in
    if bool_decide (pendentes = []) then Accepted
    else Incomplete (take 5 pendentes) (5 <? length pendentes)%nat.

End ErroDialog.

(** ** JSON documents *)

Module Json.

(** A value that [json.load] returns. A [dict] is a map over its keys:
    the order of the keys is not kept. *)
Inductive t : Type :=
| Null
| Bool (b : bool)
| Int (n : Z)
| Float (x : float)
| Str (s : string)
| List (l : list t)
| Dict (d : gmap string t).

(** The operations of the program on such a value, with a [str] for the
    key. Where Python raises, the payload of [Raise] is the class of the
    exception. *)

(** [v == s] *)
Definition eq_str (v : t) (s : string) : bool :=
  match v with
  | Str x => String.eqb x s
  | _ => false
  end.

(** [sub in s] on two [str] *)
Fixpoint str_in (sub s : string) : bool :=
  String.prefix sub s
  || match s with
     | "" => false
     | String _ s' => str_in sub s'
     end.

(** [key in v] *)
Definition contains (key : string) (v : t) : Py.result bool :=
  match v with
  | Dict d => Py.Ok (bool_decide (is_Some (d !! key)))
  | List l => Py.Ok (existsb (λ x, eq_str x key) l)
  | Str s => Py.Ok (str_in key s)
  | _ => Py.Raise "TypeError"
  end.

(** [v[key]] *)
Definition getitem (v : t) (key : string) : Py.result t :=
  match v with
  | Dict d =>
      match d !! key with
      | Some x => Py.Ok x
      | None => Py.Raise "KeyError"
      end
  | _ => Py.Raise "TypeError"
  end.

(** [v[key] = x] *)
Definition setitem (v : t) (key : string) (x : t) : Py.result t :=
  match v with
  | Dict d => Py.Ok (Dict (<[key := x]> d))
  | _ => Py.Raise "TypeError"
  end.

(** [for x in v]: the elements of a list, the keys of a dict, the
    characters of a [str]. *)
Definition iter (v : t) : Py.result (list t) :=
  match v with
  | List l => Py.Ok l
  | Dict d => Py.Ok (Str <$> (map_to_list d).*1)
  | Str s => Py.Ok ((λ c, Str (String c "")) <$> list_ascii_of_string s)
  | _ => Py.Raise "TypeError"
  end.

(** [v.append(x)] *)
Definition append (v : t) (x : t) : Py.result t :=
  match v with
  | List l => Py.Ok (List (l ++ [x]))
  | _ => Py.Raise "AttributeError"
  end.

(** The integer a float is equal to, when there is one. *)
Definition float_as_int (x : float) : option Z :=
  match Prim2SF x with
  | S754_zero _ => Some 0
  | S754_finite s m e =>
      let magnitude :=
        if 0 <=? e then Some (Z.pos m * 2 ^ e)
        else if Z.pos m mod 2 ^ (- e) =? 0 then Some (Z.pos m / 2 ^ (- e))
        else None in
      (λ v, if s then - v else v) <$> magnitude
  | _ => None
  end.

(** A number by its value: [True == 1 == 1.0]. *)
Definition number (v : t) : option (Z + float) :=
  match v with
  | Bool b => Some (inl (if b then 1 else 0))
  | Int n => Some (inl n)
  | Float x =>
      match float_as_int x with
      | Some n => Some (inl n)
      | None => Some (inr x)
      end
  | _ => None
  end.

(** Two hashable values are the same element of a [set]. The [NaN] of a
    document is one object, which a set finds by identity. *)
Definition same_key (a b : t) : bool :=
  match a, b with
  | Null, Null => true
  | Str x, Str y => String.eqb x y
  | _, _ =>
      match number a, number b with
      | Some (inl n), Some (inl m) => n =? m
      | Some (inr x), Some (inr y) =>
          PrimFloat.eqb x y || (PrimFloat.is_nan x && PrimFloat.is_nan y)
      | _, _ => false
      end
  end.

End Json.

(** ** MainWindow: the evaluation ledger *)

Module MainWindow.

Import ZipLoaderThread.

(** One element of ["erros"]. *)
Record Erro : Type := {
  nome : string;
  descricao : string;
  avaliacao : Z;
  timestamp : string
}.

(** One evaluation record of [resultado.json]. *)
Record Entrada : Type := {
  arquivo : string;
  data : string;
  id : string;
  dedo : string;
  erros : list Erro
}.

(** The document of [resultado.json]: archive name to its records. *)
Abbreviation Ledger := (gmap string (list Entrada)).

(** The documents the program writes: the dict of [novo_erro], the dict
    of a record, and the ledger. *)
Definition erro_json (e : Erro) : Json.t :=
  Json.Dict (<["nome" := Json.Str (nome e)]>
            (<["descricao" := Json.Str (descricao e)]>
            (<["avaliacao" := Json.Int (avaliacao e)]>
            (<["timestamp" := Json.Str (timestamp e)]> ∅)))).

Definition entrada_json (e : Entrada) : Json.t :=
  Json.Dict (<["erros" := Json.List (erro_json <$> erros e)]>
            (<["arquivo" := Json.Str (arquivo e)]>
            (<["data" := Json.Str (data e)]>
            (<["id" := Json.Str (id e)]>
            (<["dedo" := Json.Str (dedo e)]> ∅))))).

Definition ledger_json (L : Ledger) : Json.t :=
  Json.Dict ((λ entradas, Json.List (entrada_json <$> entradas)) <$> L).

(** [json.load] and [json.dump(..., ensure_ascii=False, indent=2)]:
    [json.load] answers any value of JSON, or raises. *)
Record JsonLib : Type := {
  json_load : string → Py.result Json.t;
  json_dump : Json.t → string
}.

(** The text of [resultado.json], [None] when the file does not exist. *)
Definition Storage : Type := option string.

(** What the operating system does during one call: whether [open]
    raises, how many characters the device accepts before a write
    raises, and the clock. *)
Record Env : Type := {
  open_read_error : option string;
  open_write_error : option string;
  write_room : option nat;
  now : nat → string
}.

Definition try_except {A} (body : Py.result A) (handler : string → Py.result A)
  : Py.result A :=
  match body with
  | Py.Ok a => Py.Ok a
  | Py.Raise e => handler e
  end.

Definition open_read (env : Env) (text : string) : Py.result string :=
  match open_read_error env with
  | Some e => Py.Raise e
  | None => Py.Ok text
  end.

(** *** load_resultado_json *)

(** The [return] inside [try] yields [Some]; the handler prints and
    falls through to [return {}]. *)
Definition load_resultado_json (js : JsonLib) (env : Env) (disk : Storage)
  : Py.result Json.t :=
  returned ←
    match disk with
    | Some text =>
        try_except
          (f ← open_read env text; data ← json_load js f; Py.Ok (Some data))
          (λ _, Py.Ok None)
    | None => Py.Ok None
    end;
  match returned with
  | Some data => Py.Ok data
  | None => Py.Ok (Json.Dict ∅)
  end.

(** *** save_resultado_json *)

(** [open(path, 'w')] creates or truncates the file before anything is
    written. *)
Definition open_write (env : Env) (disk : Storage) : Py.result unit * Storage :=
  match open_write_error env with
  | Some e => (Py.Raise e, disk)
  | None => (Py.Ok (), Some "")
  end.

(** Writing [text] to the file just opened: all of it, or the part the
    device had room for and an exception. *)
Definition write_text (env : Env) (text : string) : Py.result unit * Storage :=
  match write_room env with
  | Some room =>
      if (String.length text <=? room)%nat then (Py.Ok (), Some text)
      else (Py.Raise "No space left on device", Some (Py.slice_to room text))
  | None => (Py.Ok (), Some text)
  end.

(** The answer, the file, and the document as the call leaves it:
    [json.dump] only reads [data]. *)
Definition save_resultado_json (js : JsonLib) (env : Env) (disk : Storage)
    (data : Json.t) : bool * Storage * Json.t :=
  let '(r, disk) :=
    match open_write env disk with
    | (Py.Raise e, disk) => (Py.Raise e, disk)
    | (Py.Ok _, _) => write_text env (json_dump js data)
    end in
  match r with
  | Py.Ok _ => (true, disk, data)
  | Py.Raise _ => (false, disk, data)
  end.

(** *** salvar_anotacao *)

(** One element of [erros_atuais]: the rating is absent until the
    evaluator has given it. *)
Record Selecionado : Type := {
  sel_nome : string;
  sel_descricao : string;
  sel_avaliacao : option Z
}.

(** The set [evaluated_files] holds the names of files; what it holds
    besides, when a record of the ledger has an ["arquivo"] that is not
    a [str], is in [evaluated_others]. *)
Record State : Type := {
  media_files : list MediaItem;
  current_zip_name : string;
  current_media_index : nat;
  erros_atuais : list Selecionado;
  evaluated_files : gset string;
  evaluated_others : list Json.t
}.

(** The message box the call ends with. *)
Inductive dialog : Type :=
| AcaoBloqueada
| NenhumZip
| NenhumaMidia
| NenhumErro
| Incompleto (pendentes : list string)
| Sucesso (arquivo : string) (qtd_erros : nat)
| ErroCritico.

(** [not e.get('avaliacao')] *)
Definition sem_avaliacao (e : Selecionado) : bool :=
  match sel_avaliacao e with
  | Some n => n =? 0
  | None => true
  end.

(** [novo_erro] for the [k]-th element of [erros_atuais]; the guard of
    [salvar_anotacao] has checked that the rating is there. *)
Definition novo_erro (env : Env) (k : nat) (e : Selecionado) : Erro :=
  {| nome := sel_nome e;
     descricao := sel_descricao e;
     avaliacao := default 0 (sel_avaliacao e);
     timestamp := now env k |}.

Definition duplicado (novo : Erro) (erros : list Erro) : bool :=
  existsb (λ e, String.eqb (nome e) (nome novo)
                && String.eqb (descricao e) (descricao novo)) erros.

(** One iteration of [for erro in self.erros_atuais]. *)
Definition merge_step (erros : list Erro) (novo : Erro) : list Erro :=
  if duplicado novo erros then erros else erros ++ [novo].

Definition merge_erros (erros novos : list Erro) : list Erro :=
  fold_left merge_step novos erros.

Definition with_erros (e : Entrada) (es : list Erro) : Entrada :=
  {| arquivo := arquivo e; data := data e; id := id e; dedo := dedo e; erros := es |}.

(** Lines 1864-1897 on the list of the archive, when the document is a
    ledger: the entry of the file is looked up (the first one wins),
    created at the end of the list when absent, and its ["erros"] list
    is extended in place. *)
Definition upsert_entradas (entradas : list Entrada) (item : MediaItem)
    (novos : list Erro) : list Entrada :=
  match list_find (λ e, arquivo e = filename item) entradas with
  | Some (i, entrada_existente) =>
      <[i := with_erros entrada_existente
               (merge_erros (erros entrada_existente) novos)]> entradas
  | None =>
      let entrada_existente :=
        {| arquivo := filename item;
           data := ZipLoaderThread.data item;
           id := ZipLoaderThread.id item;
           dedo := ZipLoaderThread.dedo item;
           erros := [] |} in
      entradas ++ [with_erros entrada_existente (merge_erros [] novos)]
  end.

(** Lines 1861-1897 on a loaded document that is a ledger: an archive
    without an entry gets the empty list first. *)
Definition upsert (resultado_data : Ledger) (zip_name : string) (item : MediaItem)
    (novos : list Erro) : Ledger :=
  let entradas := default [] (resultado_data !! zip_name) in
  <[zip_name := upsert_entradas entradas item novos]> resultado_data.

(** The same lines on whatever [json.load] has returned. *)

(** Lines 1865-1869: the index of the first entry whose ["arquivo"] is
    the name. *)
Fixpoint find_entrada (arquivo_para_salvar : string) (entradas : list Json.t)
  : Py.result (option nat) :=
  match entradas with
  | [] => Py.Ok None
  | entrada :: rest =>
      a ← Json.getitem entrada "arquivo";
      if Json.eq_str a arquivo_para_salvar then Py.Ok (Some 0%nat)
      else (i ← find_entrada arquivo_para_salvar rest; Py.Ok (S <$> (i : option nat)))
  end.

(** The [any(...)] of lines 1891-1895 over the elements of ["erros"]:
    [and] looks at the description only when the names agree, and [any]
    stops at the first hit. *)
Fixpoint any_duplicado (novo : Erro) (erros : list Json.t) : Py.result bool :=
  match erros with
  | [] => Py.Ok false
  | e :: rest =>
      n ← Json.getitem e "nome";
      if Json.eq_str n (nome novo) then
        d ← Json.getitem e "descricao";
        if Json.eq_str d (descricao novo) then Py.Ok true
        else any_duplicado novo rest
      else any_duplicado novo rest
  end.

(** One iteration of [for erro in self.erros_atuais] on the entry. *)
Definition merge_step_json (entrada : Json.t) (novo : Erro) : Py.result Json.t :=
  erros ← Json.getitem entrada "erros";
  elementos ← Json.iter erros;
  duplicado ← any_duplicado novo elementos;
  if (duplicado : bool) then Py.Ok entrada
  else
    erros ← Json.getitem entrada "erros";
    erros ← Json.append erros (erro_json novo);
    Json.setitem entrada "erros" erros.

Fixpoint merge_erros_json (entrada : Json.t) (novos : list Erro) : Py.result Json.t :=
  match novos with
  | [] => Py.Ok entrada
  | novo :: rest =>
      entrada ← merge_step_json entrada novo;
      merge_erros_json entrada rest
  end.

(** Lines 1861-1897. The entry that was found or appended is an element
    of the list under the name of the archive; the loop changes it in
    place. *)
Definition upsert_json (resultado_data : Json.t) (zip_name : string) (item : MediaItem)
    (novos : list Erro) : Py.result Json.t :=
  presente ← Json.contains zip_name resultado_data;
  resultado_data ← (if (presente : bool) then Py.Ok resultado_data
                    else Json.setitem resultado_data zip_name (Json.List []));
  lista ← Json.getitem resultado_data zip_name;
  entradas ← Json.iter lista;
  found ← find_entrada (filename item) entradas;
  '(i, entrada_existente, lista) ←
    match found with
    | Some i => Py.Ok (i, default Json.Null (entradas !! i), lista)
    | None =>
        let entrada_existente :=
          entrada_json {| arquivo := filename item;
                          data := ZipLoaderThread.data item;
                          id := ZipLoaderThread.id item;
                          dedo := ZipLoaderThread.dedo item;
                          erros := [] |} in
        lista ← Json.append lista entrada_existente;
        Py.Ok (length entradas, entrada_existente, lista)
    end;
  entrada_existente ← merge_erros_json entrada_existente novos;
  match lista with
  | Json.List l =>
      Json.setitem resultado_data zip_name (Json.List (<[i := entrada_existente]> l))
  | _ => Py.Ok resultado_data
  end.

(** [jump_to_next_unevaluated]: the first later item that has not been
    evaluated becomes the current one. *)
Definition jump_to_next_unevaluated (st : State) : State :=
  let start_index := S (current_media_index st) in
  match list_find (λ x : MediaItem, filename x ∉ evaluated_files st)
                  (drop start_index (media_files st)) with
  | Some (k, _) =>
      {| media_files := media_files st;
         current_zip_name := current_zip_name st;
         current_media_index := start_index + k;
         erros_atuais := erros_atuais st;
         evaluated_files := evaluated_files st;
     evaluated_others := evaluated_others st |}
  | None => st
  end.

(** The state after a successful save: the file is marked evaluated,
    the form is cleared, and the view moves on. *)
Definition after_save (st : State) (item : MediaItem) : State :=
  jump_to_next_unevaluated
    {| media_files := media_files st;
       current_zip_name := current_zip_name st;
       current_media_index := current_media_index st;
       erros_atuais := [];
       evaluated_files := {[ filename item ]} ∪ evaluated_files st;
       evaluated_others := evaluated_others st |}.

(** No item built by [organize_files] has a ['type'] key, so
    [arquivo_para_salvar] is [item['filename']]. The answer is the
    message box the call ends with, or the exception that leaves it,
    with the file and the window as the call leaves them: nothing is
    written and nothing of the window is changed before the document has
    been loaded and updated. *)
Definition salvar_anotacao (js : JsonLib) (env : Env) (disk : Storage) (st : State)
  : Py.result dialog * Storage * State :=
  if bool_decide (media_files st = []) then (Py.Ok AcaoBloqueada, disk, st)
  else if String.eqb (current_zip_name st) "" then (Py.Ok NenhumZip, disk, st)
  else
    match media_files st !! current_media_index st with
    | None => (Py.Ok NenhumaMidia, disk, st)
    | Some item =>
        if bool_decide (erros_atuais st = []) then (Py.Ok NenhumErro, disk, st)
        else
          match filter (λ e, sem_avaliacao e = true) (erros_atuais st) with
          | (_ :: _) as erros_sem_avaliacao =>
              (Py.Ok (Incompleto (sel_nome <$> erros_sem_avaliacao)), disk, st)
          | [] =>
              match
                resultado_data ← load_resultado_json js env disk;
                upsert_json resultado_data (current_zip_name st) item
                            (imap (novo_erro env) (erros_atuais st))
              with
              | Py.Raise e => (Py.Raise e, disk, st)
              | Py.Ok resultado_data =>
                  match save_resultado_json js env disk resultado_data with
                  | (true, disk', _) =>
                      (Py.Ok (Sucesso (filename item) (length (erros_atuais st))),
                       disk', after_save st item)
                  | (false, disk', _) => (Py.Ok ErroCritico, disk', st)
                  end
              end
          end
    end.

(** *** Navigation and resuming *)

Definition with_index (st : State) (i : nat) : State :=
  {| media_files := media_files st;
     current_zip_name := current_zip_name st;
     current_media_index := i;
     erros_atuais := erros_atuais st;
     evaluated_files := evaluated_files st;
     evaluated_others := evaluated_others st |}.

(** [next_image] *)
Definition next_image (st : State) : State :=
  if bool_decide (media_files st = []) then st
  else if (Z.of_nat (current_media_index st) <? Z.of_nat (length (media_files st)) - 1)
       then with_index st (current_media_index st + 1)
       else st.

(** [prev_image] *)
Definition prev_image (st : State) : State :=
  if bool_decide (media_files st = []) then st
  else if (0 <? current_media_index st)%nat
       then with_index st (current_media_index st - 1)
       else st.

(** [len(self.evaluated_files)] *)
Definition len_evaluated (st : State) : nat :=
  (size (evaluated_files st) + length (evaluated_others st))%nat.

(** [self.evaluated_files.add(v)]: a list or a dict cannot be hashed. *)
Definition add_evaluated (st : State) (v : Json.t) : Py.result State :=
  match v with
  | Json.Str s =>
      Py.Ok {| media_files := media_files st;
               current_zip_name := current_zip_name st;
               current_media_index := current_media_index st;
               erros_atuais := erros_atuais st;
               evaluated_files := {[ s ]} ∪ evaluated_files st;
               evaluated_others := evaluated_others st |}
  | Json.List _ | Json.Dict _ => Py.Raise "TypeError"
  | _ =>
      Py.Ok {| media_files := media_files st;
               current_zip_name := current_zip_name st;
               current_media_index := current_media_index st;
               erros_atuais := erros_atuais st;
               evaluated_files := evaluated_files st;
               evaluated_others :=
                 if existsb (Json.same_key v) (evaluated_others st)
                 then evaluated_others st
                 else evaluated_others st ++ [v] |}
  end.

(** [for entrada in lista_entradas: self.evaluated_files.add(entrada['arquivo'])],
    with the window as an exception leaves it. *)
Fixpoint add_entradas (st : State) (lista_entradas : list Json.t)
  : Py.result unit * State :=
  match lista_entradas with
  | [] => (Py.Ok (), st)
  | entrada :: rest =>
      match a ← Json.getitem entrada "arquivo"; add_evaluated st a with
      | Py.Raise e => (Py.Raise e, st)
      | Py.Ok st' => add_entradas st' rest
      end
  end.

(** [load_progress_data]: the set is emptied, and the ["arquivo"] of
    every record under the current archive is added to it. *)
Definition load_progress_data (js : JsonLib) (env : Env) (disk : Storage) (st : State)
  : Py.result unit * State :=
  let st := {| media_files := media_files st;
               current_zip_name := current_zip_name st;
               current_media_index := current_media_index st;
               erros_atuais := erros_atuais st;
               evaluated_files := ∅;
               evaluated_others := [] |} in
  match
    data ← load_resultado_json js env disk;
    presente ← Json.contains (current_zip_name st) data;
    if (presente : bool) then
      lista_entradas ← Json.getitem data (current_zip_name st);
      lista_entradas ← Json.iter lista_entradas;
      Py.Ok (Some lista_entradas)
    else Py.Ok None
  with
  | Py.Raise e => (Py.Raise e, st)
  | Py.Ok None => (Py.Ok (), st)
  | Py.Ok (Some lista_entradas) => add_entradas st lista_entradas
  end.

(** The loop of [on_zip_finished]: the index of the first item whose
    file is not evaluated, [0] when there is none. *)
Definition first_unevaluated (media : list MediaItem) (evaluated : gset string) : nat :=
  match list_find (λ x : MediaItem, filename x ∉ evaluated) media with
  | Some (i, _) => i
  | None => 0%nat
  end.

(** [on_zip_finished]: an empty catalog only shows a warning; otherwise
    the catalog is taken, the progress is loaded and the view is put on
    the first file that is not evaluated. The answer carries the three
    numbers of the summary, or the exception that [load_progress_data]
    raised; the window is as the call leaves it. *)
Definition on_zip_finished (js : JsonLib) (env : Env) (disk : Storage) (st : State)
    (media : list MediaItem) : Py.result (option (Z * Z * Z)) * State :=
  if bool_decide (media = []) then (Py.Ok None, st)
  else
    match load_progress_data js env disk
            {| media_files := media;
               current_zip_name := current_zip_name st;
               current_media_index := current_media_index st;
               erros_atuais := erros_atuais st;
               evaluated_files := evaluated_files st;
               evaluated_others := evaluated_others st |}
    with
    | (Py.Raise e, st) => (Py.Raise e, st)
    | (Py.Ok _, st) =>
        let first_unevaluated_index :=
          if bool_decide (len_evaluated st = length media) then 0%nat
          else first_unevaluated media (evaluated_files st) in
        let total := Z.of_nat (length media) in
        let avaliados := Z.of_nat (len_evaluated st) in
        (Py.Ok (Some (total, avaliados, total - avaliados)),
         with_index st first_unevaluated_index)
    end.

(** [load_zip_file], up to the start of the extractor: without a chosen
    file nothing happens; otherwise the archive is named and the catalog
    is empty until the extractor has finished. *)
Definition load_zip_file (st : State) (file_path : string) : State :=
  if String.eqb file_path "" then st
  else {| media_files := [];
          current_zip_name := Py.basename file_path;
          current_media_index := 0;
          erros_atuais := erros_atuais st;
          evaluated_files := evaluated_files st;
     evaluated_others := evaluated_others st |}.

(** The connections [load_zip_file] makes for the signals of the
    extractor, on the progress dialog: a progress signal goes to
    [update_progress]; the completion goes to [on_zip_finished] and the
    error to a message box, neither of which touches the dialog. *)
Definition zip_thread_signal (d : ProgressDialog.t) (ev : event) : ProgressDialog.t :=
  match ev with
  | Progress val text => ProgressDialog.update_progress d val text
  | Finished _ => d
  | Error _ => d
  end.

(** *** The selection of errors *)

(** [c.upper() == u] for a capital letter [u] of ASCII, on a character
    of eight bits: no other character has that capital. *)
Definition upper_is (u c : ascii) : bool :=
  Ascii.eqb c u || Ascii.eqb c (Py.lower_char u).

(** [n.upper() == "SPFC"] *)
Definition is_spfc (n : string) : bool :=
  match n with
  | String a (String b (String c (String d ""))) =>
      upper_is "S" a && upper_is "P" b && upper_is "F" c && upper_is "C" d
  | _ => false
  end.

(** [open_erro_selector], given how the dialog was closed: [None] when
    it was rejected, the data of the selected descriptions when it was
    accepted. The selection replaces the one before, without ratings;
    the second component tells whether the easter egg was toggled
    instead. *)
Definition open_erro_selector (st : State) (selections : option (list (string * string)))
  : State * bool :=
  if bool_decide (media_files st = []) then (st, false)
  else
    match selections with
    | None => (st, false)
    | Some descricoes =>
        if existsb is_spfc (fst <$> descricoes) then (st, true)
        else
          ({| media_files := media_files st;
              current_zip_name := current_zip_name st;
              current_media_index := current_media_index st;
              erros_atuais :=
                (λ '(nome, desc),
                   {| sel_nome := nome; sel_descricao := desc; sel_avaliacao := None |})
                  <$> descricoes;
              evaluated_files := evaluated_files st;
     evaluated_others := evaluated_others st |}, false)
    end.

(** *** The ratings of the dialog *)

(** The window with the rating dialog and the ratings kept from the
    last time the dialog was closed. *)
Record Session : Type := {
  window : State;
  avaliacao_dialog : option (AvaliacaoDialog.t Selecionado);
  ultimo_estado_avaliacao : option (gmap nat Z)
}.

(** [erro['avaliacao'] = notas[i]] for the indices that have a rating. *)
Definition com_notas (notas : gmap nat Z) (erros : list Selecionado) : list Selecionado :=
  imap (λ i erro,
          match notas !! i with
          | Some nota =>
              {| sel_nome := sel_nome erro;
                 sel_descricao := sel_descricao erro;
                 sel_avaliacao := Some nota |}
          | None => erro
          end) erros.

(** [processar_avaliacoes]: [true] when the warning of an incomplete
    dialog is shown. *)
Definition processar_avaliacoes (s : Session) : Session * bool :=
  match avaliacao_dialog s with
  | None => (s, false)
  | Some dlg =>
      if negb (AvaliacaoDialog.todas_avaliacoes_preenchidas dlg) then (s, true)
      else
        let notas := AvaliacaoDialog.get_avaliacoes dlg in
        ({| window :=
              {| media_files := media_files (window s);
                 current_zip_name := current_zip_name (window s);
                 current_media_index := current_media_index (window s);
                 erros_atuais := com_notas notas (erros_atuais (window s));
                 evaluated_files := evaluated_files (window s);
     evaluated_others := evaluated_others (window s) |};
            avaliacao_dialog := avaliacao_dialog s;
            ultimo_estado_avaliacao := None |}, false)
  end.

End MainWindow.

(** ** CustomErrorsDialog: the catalog of errors *)

Module CustomErrorsDialog.

Import MainWindow.

(** The document of [catalogo_erros.json]: an object whose ["nomes"] is
    a list of strings and whose ["descricoes"] maps a name to a list of
    strings; a key may be missing. *)
Record Catalog : Type := {
  nomes : option (list string);
  descricoes : option (gmap string (list string))
}.

Record CatalogJson : Type := {
  catalog_load : string → Py.result Catalog;
  catalog_dump : Catalog → string
}.

Definition placeholder : string := "Selecione um nome...".

(** [custom_errors.get("nomes", [])] and [custom_errors.get("descricoes", {})] *)
Definition get_nomes (c : Catalog) : list string := default [] (nomes c).
Definition get_descricoes (c : Catalog) : gmap string (list string) :=
  default ∅ (descricoes c).

(** [load_custom_errors] *)
Definition load_custom_errors (js : CatalogJson) (env : Env) (disk : Storage)
  : Py.result Catalog :=
  returned ←
    match disk with
    | Some text =>
        try_except
          (f ← open_read env text; data ← catalog_load js f; Py.Ok (Some data))
          (λ _, Py.Ok None)
    | None => Py.Ok None
    end;
  match returned with
  | Some data => Py.Ok data
  | None => Py.Ok {| nomes := Some []; descricoes := Some ∅ |}
  end.

(** [save_custom_errors] *)
Definition save_custom_errors (js : CatalogJson) (env : Env) (disk : Storage)
    (c : Catalog) : bool * Storage :=
  let '(r, disk) :=
    match open_write env disk with
    | (Py.Raise e, disk) => (Py.Raise e, disk)
    | (Py.Ok _, _) => write_text env (catalog_dump js c)
    end in
  match r with
  | Py.Ok _ => (true, disk)
  | Py.Raise _ => (false, disk)
  end.

(** The items of the combo box after [update_nome_combo_desc], and the
    text of the current one. *)
Definition combo_items (c : Catalog) : list string := placeholder :: get_nomes c.

Definition currentText (c : Catalog) (index : nat) : string :=
  default "" (combo_items c !! index).

(** [add_nome] on the text of the input line. *)
Definition add_nome (c : Catalog) (input : string) : Catalog :=
  let texto := Py.strip_ws input in
  if String.eqb texto "" then c
  else
    let nomes := get_nomes c in
    if bool_decide (texto ∈ nomes)
    then {| nomes := Some nomes; descricoes := descricoes c |}
    else {| nomes := Some (nomes ++ [texto]);
            descricoes := Some (<[texto := []]> (get_descricoes c)) |}.

(** [add_descricao] for the name shown by the combo box. *)
Definition add_descricao (c : Catalog) (nome_text input : string) : Catalog :=
  if String.eqb nome_text placeholder || String.eqb nome_text "" then c
  else
    let texto := Py.strip_ws input in
    if String.eqb texto "" then c
    else
      let todas := get_descricoes c in
      let descricoes := default [] (todas !! nome_text) in
      {| nomes := nomes c;
         descricoes :=
           Some (<[nome_text := if bool_decide (texto ∈ descricoes) then descricoes
                                else descricoes ++ [texto]]> todas) |}.

(** [delete_nome] for the current item of the list, after the answer to
    the question. *)
Definition delete_nome (c : Catalog) (nome : string) (yes : bool) : Catalog :=
  if yes
  then {| nomes := Py.remove_first nome <$> nomes c;
          descricoes := delete nome <$> descricoes c |}
  else c.

(** [delete_descricao] *)
Definition delete_descricao (c : Catalog) (nome_text descricao_completa : string)
    (yes : bool) : Catalog :=
  if String.eqb nome_text "" || String.eqb nome_text placeholder then c
  else if yes
  then {| nomes := nomes c;
          descricoes :=
            alter (Py.remove_first descricao_completa) nome_text <$> descricoes c |}
  else c.

(** What the user can do in the dialog; the name of a description comes
    from the combo box, the name to delete from the list of names. The
    list widget holds the names of the catalog, in the order of the
    catalog as long as they are distinct, so the current item is one of
    them. *)
Inductive edit : Type :=
| AddNome (input : string)
| AddDescricao (combo_index : nat) (input : string)
| DeleteNome (row : nat) (yes : bool)
| DeleteDescricao (combo_index : nat) (descricao : string) (yes : bool).

Definition apply_edit (c : Catalog) (e : edit) : Catalog :=
  match e with
  | AddNome input => add_nome c input
  | AddDescricao i input => add_descricao c (currentText c i) input
  | DeleteNome row yes =>
      match get_nomes c !! row with
      | Some nome => delete_nome c nome yes
      | None => c
      end
  | DeleteDescricao i d yes => delete_descricao c (currentText c i) d yes
  end.

End CustomErrorsDialog.

(** * Vocabulary of the properties *)

Import ZipLoaderThread MainWindow.

(** ** The ledger *)

(** Two errors are the same for the duplicate check when they agree on
    name and description. *)
Definition error_key (e : Erro) : string * string := (nome e, descricao e).

(** At most one record per file under every archive name. *)
Definition one_record_per_file (L : Ledger) : Prop :=
  ∀ zip_name entradas, L !! zip_name = Some entradas → NoDup (arquivo <$> entradas).

(** No record lists the same (name, description) twice. *)
Definition no_repeated_error (L : Ledger) : Prop :=
  ∀ zip_name entradas e,
    L !! zip_name = Some entradas → e ∈ entradas → NoDup (error_key <$> erros e).

(** One save: the archive name, the current item and the new errors. *)
Record save_op : Type := {
  op_zip : string;
  op_item : MediaItem;
  op_novos : list Erro
}.

Definition apply_saves (L : Ledger) (ops : list save_op) : Ledger :=
  fold_left (λ L op, upsert L (op_zip op) (op_item op) (op_novos op)) ops L.




(** ** The finger and side label *)

Definition Dedao : string := "Ded" +:+ String "227" "o".
Definition Medio : string := "M" +:+ String "233" "dio".

(** The finger a token names: the token is a key of the finger map. *)
Definition finger_of (tok : string) : option string :=
  if decide (tok = "dedao") then Some Dedao
  else if decide (tok = "indic") then Some "Indicador"
  else if decide (tok = "medio") then Some Medio
  else if decide (tok = "anel") then Some "Anelar"
  else if decide (tok = "mind") then Some "Mindinho"
  else None.

Definition side_name (c : ascii) : option string :=
  if decide (c = "d"%char) then Some "Direita"
  else if decide (c = "e"%char) then Some "Esquerda"
  else None.

(** The side a token names: the token is [d] or [e], or it has two
    characters, a digit and then [d] or [e]. *)
Definition side_of (tok : string) : option string :=
  match tok with
  | String c "" => side_name c
  | String c0 (String c1 "") => if Py.isdigit c0 then side_name c1 else None
  | _ => None
  end.

(** The value of the last token that has one. *)
Definition last_match {A} (f : string → option A) (toks : list string) : option A :=
  last (omap f toks).

(** The label the code composes: a side without a finger is dropped. *)
Definition compose_label (finger side : option string) : string :=
  match finger, side with
  | Some f, Some s => f +:+ " - " +:+ s
  | Some f, None => f
  | None, _ => "Desconhecido"
  end.

(** The label of the specification: whichever of the two is present. *)
Definition compose_label_spec (finger side : option string) : string :=
  match finger, side with
  | Some f, Some s => f +:+ " - " +:+ s
  | Some f, None => f
  | None, Some s => s
  | None, None => "Desconhecido"
  end.

Definition label_tokens (filename : string) : list string :=
  Py.split "_" (Py.lower filename).

(** ** Persistence *)

(** The save of the specification: the whole text is written, or the
    file is as it was. *)
Definition save_all_or_nothing (js : JsonLib) (env : Env) (disk : Storage)
    (data : Json.t) : Prop :=
  let '(ok, disk', _) := save_resultado_json js env disk data in
  if ok then disk' = Some (json_dump js data) else disk' = disk.

(** A [json] that is exact on the empty document, the only one the
    examples serialize or parse with it. *)
Definition json_of_empty : JsonLib :=
  {| json_load := λ text,
       if String.eqb text "{}" then Py.Ok (Json.Dict ∅)
       else Py.Raise "Expecting value: line 1 column 1 (char 0)";
     json_dump := λ _, "{}" |}.

(** The window is ready for a save of [item]: there is a catalog and an
    archive name, [item] is the current item, and errors are selected,
    each with a rating from [1] on. *)
Definition ready_to_save (st : State) (item : MediaItem) : Prop :=
  media_files st ≠ []
  ∧ current_zip_name st ≠ ""
  ∧ media_files st !! current_media_index st = Some item
  ∧ erros_atuais st ≠ []
  ∧ Forall (λ e, ∃ n, sel_avaliacao e = Some n ∧ n ≠ 0) (erros_atuais st).

(** The file holds the ledger [L]: [load_resultado_json] answers its
    document. *)
Definition holds_ledger (js : JsonLib) (env : Env) (disk : Storage) (L : Ledger) : Prop :=
  load_resultado_json js env disk = Py.Ok (ledger_json L).

(** Whatever [json.load] reads is the document of a ledger. *)
Definition reads_ledgers (js : JsonLib) : Prop :=
  ∀ text D, json_load js text = Py.Ok D → ∃ L : Ledger, D = ledger_json L.

(** A device that takes one more character and then is full. *)
Definition env_disk_full : Env :=
  {| open_read_error := None;
     open_write_error := None;
     write_room := Some 1%nat;
     now := λ _, "2025-01-01 10:00:00" |}.

(** A device without faults. *)
Definition env_ok : Env :=
  {| open_read_error := None;
     open_write_error := None;
     write_room := None;
     now := λ _, "2025-01-01 10:00:00" |}.

(** The dialogs that end a call before anything is loaded or written. *)
Definition is_guard (d : dialog) : Prop :=
  match d with
  | AcaoBloqueada | NenhumZip | NenhumaMidia | NenhumErro | Incompleto _ => True
  | Sucesso _ _ | ErroCritico => False
  end.

(** ** The extractor *)

(** The [k]-th element from the end, [0] for the last. *)
Definition from_last {A} (k : nat) (l : list A) : option A := reverse l !! k.

(** The segments the code takes for the path of a file relative to the
    scratch directory. *)
Definition path_parts (temp_dir file_path : string) : list string :=
  Py.split Py.sep (Py.strip Py.sep (Py.replace file_path temp_dir "")).

(** The item of a file, given the segments. *)
Definition item_of (ano mes file_path file : string) (parts : list string) : MediaItem :=
  {| file_path := file_path;
     filename := file;
     nome_sem_ext := (Py.splitext file).1;
     ZipLoaderThread.data :=
       default "??" (from_last 2 parts) +:+ "/" +:+ mes +:+ "/" +:+ ano;
     ZipLoaderThread.id := default "Unknown" (from_last 1 parts);
     ZipLoaderThread.dedo := extract_dedo_info (Py.splitext file).1;
     frame := extract_frame_info (Py.splitext file).1 |}.

(** The year and month parsed from the name of the archive. *)
Definition archive_date (zip_path : string) : string * string :=
  default ("????", "??") (regex_date_search (Py.basename zip_path)).

(** The scratch directory after the members have been extracted in
    order, unless an extraction raises. *)
Fixpoint extract_all (lib : ZipLib) (zip_path temp_dir : string)
    (members : list string) (tree : list entry) : Py.result (list entry) :=
  match members with
  | [] => Py.Ok tree
  | member :: rest =>
      tree' ← zip_extract lib zip_path member temp_dir tree;
      extract_all lib zip_path temp_dir rest tree'
  end.

(** [p] is an integer nearest to [100 * completed / total], whatever the
    rule for ties. *)
Definition nearest_percent (completed total p : Z) : Prop :=
  2 * Z.abs (100 * completed - p * total) ≤ total.

(** The progress events of the specification: the event after the
    member of index [k] carries a nearest integer. *)
Definition progress_is_rounded (lib : ZipLib) (zip_path temp_dir : string)
    (tree : list entry) : Prop :=
  ∀ file_list k member p text,
    zip_namelist lib zip_path = Py.Ok file_list →
    file_list !! k = Some member →
    emitted (run lib zip_path temp_dir tree) !! S k = Some (Progress p text) →
    nearest_percent (Z.of_nat (S k)) (Z.of_nat (length file_list)) p.

(** An archive without members ends in an error and no completion. *)
Definition empty_archive_is_an_error (lib : ZipLib) (zip_path temp_dir : string)
    (tree : list entry) : Prop :=
  zip_namelist lib zip_path = Py.Ok [] →
  (∃ e, Error e ∈ emitted (run lib zip_path temp_dir tree))
  ∧ (∀ media, Finished media ∉ emitted (run lib zip_path temp_dir tree)).

(** The items in the order the files are reached, before the sort. *)
Definition unsorted_items (zip_path temp_dir : string) (tree : list entry)
  : list MediaItem :=
  (λ '(root, file),
     item_of (archive_date zip_path).1 (archive_date zip_path).2
             (Py.join root file) file (path_parts temp_dir (Py.join root file)))
    <$> kept_files temp_dir tree.

(** The order of [str]: strictly before, by code points. *)
Definition str_lt (a b : string) : Prop := String.compare a b = Lt.

(** The key of one item is at or before the key of another: the capture
    dates decide, then the ids, then the file names. *)
Definition key_le (a b : string * string * string) : Prop :=
  let '(a1, a2, a3) := a in
  let '(b1, b2, b3) := b in
  str_lt a1 b1
  ∨ (a1 = b1 ∧ (str_lt a2 b2 ∨ (a2 = b2 ∧ (str_lt a3 b3 ∨ a3 = b3)))).

(** The key of the catalog: capture date, then id, then file name. *)
Definition capture_key (x : MediaItem) : string * string * string :=
  (ZipLoaderThread.data x, ZipLoaderThread.id x, filename x).

Definition item_le (x y : MediaItem) : Prop := key_le (capture_key x) (capture_key y).

(** The items of one key, in the order of the list. *)
Definition with_key (k : string * string * string) (l : list MediaItem) : list MediaItem :=
  filter (λ x, capture_key x = k) l.

(** Every regular file of the scratch directory, depth first, with the
    path of the directory that holds it. *)
Fixpoint files_under (dir : string) (e : entry) : list (string * string) :=
  match e with
  | File n => [(dir, n)]
  | Dir n children => concat (map (files_under (Py.join dir n)) children)
  end.

Definition tree_files (top : string) (tree : list entry) : list (string * string) :=
  concat (map (files_under top) tree).

(** The files among them that [is_valid] keeps. *)
Definition valid_files (top : string) (tree : list entry) : list (string * string) :=
  filter (λ p, is_valid p.2 = true) (tree_files top tree).

(** The eight extensions of an image. *)
Definition image_extensions : list string :=
  ["jpg"; "jpeg"; "png"; "bmp"; "gif"; "webp"; "tif"; "tiff"].

(** The name of an image file: for one of the eight extensions, the
    name ends in a dot and that extension, in any case, and what stands
    before the dot is not made of dots only. *)
Definition image_name (name : string) : bool :=
  existsb (λ ext,
             let n := (String.length name - S (String.length ext))%nat in
             String.eqb (Py.lower (Py.slice_from n name)) ("." +:+ ext)
             && negb (Py.all_chars (Ascii.eqb ".") (Py.slice_to n name)))
          image_extensions.

(** The image files of the scratch directory, at any depth. *)
Definition image_files (top : string) (tree : list entry) : list (string * string) :=
  filter (λ p, image_name p.2 = true) (tree_files top tree).

(** No file of the scratch directory has a separator in its name. *)
Definition plain_file_names (top : string) (tree : list entry) : Prop :=
  Forall (λ p, Py.all_chars (λ a, negb (Ascii.eqb a "/")) p.2 = true) (tree_files top tree).

(** A scratch directory with images at two depths and another file. *)
Definition tree_with_images : list entry :=
  [File "a.JPG"; File "notes.txt"; Dir "15" [File "b.tiff"; File ".png"]].

(** The (root, file) pairs of the two loops, before the filter. *)
Definition walk_pairs (l : list (string * list string)) : list (string * string) :=
  concat (map (λ '(root, files), map (pair root) files) l).

(** What the walk yields for a sub-directory, and nothing for a file. *)
Definition reached (dir : string) (c : entry) : list (string * string) :=
  match c with
  | File _ => []
  | Dir _ _ => files_under dir c
  end.

(** Every regular file of the scratch directory with the directory that
    holds it, as [os.walk] names it, and the segments of its path
    relative to the scratch directory. *)
Fixpoint segments_under (dir : string) (above : list string) (e : entry)
  : list (string * string * list string) :=
  match e with
  | File n => [(dir, n, above ++ [n])]
  | Dir n children =>
      concat (map (segments_under (Py.join dir n) (above ++ [n])) children)
  end.

Definition relative_paths (top : string) (tree : list entry)
  : list (string * string * list string) :=
  concat (map (segments_under top []) tree).

(** A scratch directory whose name comes back inside the tree. *)
Definition tree_with_scratch_name : list entry :=
  [Dir "a" [Dir "tmp" [Dir "x" [File "b.jpg"]]]].

(** Sample data of a session. *)
Definition sample_item : MediaItem :=
  item_of "2024" "05" "/tmp/x/15/SUBJ01/dedao_d_frame_12.jpg" "dedao_d_frame_12.jpg"
          ["15"; "SUBJ01"; "dedao_d_frame_12.jpg"].

Definition sample_erro (rating : Z) (time : string) : Erro :=
  {| nome := "Borrado"; descricao := "Imagem fora de foco";
     avaliacao := rating; timestamp := time |}.

Definition sample_op (rating : Z) (time : string) : save_op :=
  {| op_zip := "Coleta_2024 05.zip"; op_item := sample_item;
     op_novos := [sample_erro rating time] |}.

(** A character does not occur in a string. *)
Definition without (c : ascii) (s : string) : bool :=
  Py.all_chars (λ a, negb (Ascii.eqb a c)) s.

(** The name ends in a dot and one of the eight extensions, in any case,
    and something other than dots comes before that dot. *)
Definition has_image_extension (name : string) : Prop :=
  ∃ stem ext,
    name = stem +:+ "." +:+ ext
    ∧ Py.lower ext ∈ image_extensions
    ∧ Py.all_chars (Ascii.eqb ".") stem = false.

(** [old in s] *)
Fixpoint occurs (old s : string) : bool :=
  String.prefix old s
  || match s with
     | "" => false
     | String _ s' => occurs old s'
     end.

(** The last character of a string is [c]. *)
Fixpoint ends_with (c : ascii) (s : string) : bool :=
  match s with
  | "" => false
  | String a "" => Ascii.eqb a c
  | String _ s' => ends_with c s'
  end.

(** The name of a file or directory: not empty, no separator. *)
Definition wf_name (n : string) : Prop := n ≠ "" ∧ without "/" n = true.

(** The segments, each behind a separator: what follows the scratch
    directory in the path of a file. *)
Definition slashed (segs : list string) : string :=
  foldr (λ x acc, "/" +:+ x +:+ acc) "" segs.

(** The segments with separators between them. *)
Definition unslashed (segs : list string) : string :=
  match segs with
  | [] => ""
  | x :: rest => x +:+ slashed rest
  end.

(** The string starts with four digits, a space or an underscore, and
    two digits: the year [y] and the month [m]. *)
Definition date_at (s y m : string) : Prop :=
  ∃ c rest,
    s = y +:+ String c (m +:+ rest)
    ∧ String.length y = 4%nat ∧ Py.all_chars Py.is_decimal y = true
    ∧ (c = " "%char ∨ c = "_"%char)
    ∧ String.length m = 2%nat ∧ Py.all_chars Py.is_decimal m = true.

(** An archive of flat members: a member becomes a file at the top of
    the scratch directory. *)
Definition flat_archive (members : list string) : ZipLib :=
  {| zip_namelist := λ _, Py.Ok members;
     zip_extract := λ _ member _ tree, Py.Ok (tree ++ [File member]);
     zip_extract_leaves := λ _ _ _ tree, tree |}.

(** Archives up to this number of members have had every progress value
    computed. *)
Definition checked_members : nat := 500.

(** [p] is [100 * completed / total] cut to an integer, or one less
    where that quotient is a whole number. *)
Definition cut_percent (completed total p : Z) : Prop :=
  p * total ≤ 100 * completed < (p + 1) * total
  ∨ (p + 1) * total = 100 * completed.

Definition percent_cut (i total : Z) : bool :=
  match percent_of i total with
  | Py.Ok p =>
      ((p * total <=? 100 * (i + 1)) && (100 * (i + 1) <? (p + 1) * total))
      || ((p + 1) * total =? 100 * (i + 1))
  | Py.Raise _ => false
  end.

Fixpoint all_below (P : Z → bool) (n : nat) : bool :=
  match n with
  | O => true
  | S k => P (Z.of_nat k) && all_below P k
  end.

(** Every index of every member count up to [n] passes [percent_cut]. *)
Abbreviation percent_cut_upto n :=
  (all_below (λ t, all_below (λ i, percent_cut i (t + 1)) (S (Z.to_nat t))) n).

(** ** More vocabulary: labels, events, catalogs *)

Definition finger_names : list string :=
  [Dedao; "Indicador"; Medio; "Anelar"; "Mindinho"].

Definition side_names : list string := ["Direita"; "Esquerda"].

(** Every label [extract_dedo_info] can answer. *)
Definition all_labels : list string :=
  "Desconhecido"
    :: finger_names
    ++ concat (map (λ f, map (λ s, f +:+ " - " +:+ s) side_names) finger_names).

Definition is_progress (ev : event) : Prop :=
  match ev with
  | Progress _ _ => True
  | _ => False
  end.

Definition is_terminal (ev : event) : Prop :=
  match ev with
  | Progress _ _ => False
  | _ => True
  end.

(** The leftmost date of a string: a date stands behind [pre], and none
    stands behind a shorter front part. *)
Definition leftmost_date (s y m : string) : Prop :=
  ∃ pre post,
    s = pre +:+ post ∧ date_at post y m
    ∧ ∀ pre' post' y' m',
        s = pre' +:+ post' → (String.length pre' < String.length pre)%nat →
        ¬ date_at post' y' m'.

Definition no_date (s : string) : Prop :=
  ∀ pre post y m, s = pre +:+ post → ¬ date_at post y m.

(** An archive of flat members of which [bad] fails its check: the file
    has been written when the extraction raises. *)
Definition archive_with_bad_member (members : list string) (bad : string) : ZipLib :=
  {| zip_namelist := λ _, Py.Ok members;
     zip_extract := λ _ member _ tree,
       if String.eqb member bad then Py.Raise "Bad CRC-32"
       else Py.Ok (tree ++ [File member]);
     zip_extract_leaves := λ _ member _ tree, tree ++ [File member] |}.

(** ** The window *)

(** The index of the current item is an index of the catalog. *)
Definition in_range (st : State) : Prop :=
  media_files st = [] ∨ (current_media_index st < length (media_files st))%nat.

(** The file names that have a record under an archive. *)
Definition recorded_files (L : Ledger) (zip_name : string) : gset string :=
  list_to_set (arquivo <$> default [] (L !! zip_name)).

(** The ledger [salvar_anotacao] writes for the current item, over the
    ledger [L] of the file. *)
Definition saved_ledger (L : Ledger) (env : Env) (st : State) : Ledger :=
  match media_files st !! current_media_index st with
  | Some item =>
      upsert L (current_zip_name st) item (imap (novo_erro env) (erros_atuais st))
  | None => L
  end.

(** What can happen to the window, in any order: an archive is chosen,
    the extractor finishes with a catalog, the view moves, the selection
    of errors is replaced, the annotation is saved. *)
Inductive window_event : Type :=
| LoadZip (file_path : string)
| ZipFinished (media : list MediaItem)
| NextImage
| PrevImage
| SetErros (erros : list Selecionado)
| Salvar.

(** The file and the window after the event, also when the slot has
    raised. *)
Definition window_step (js : JsonLib) (w : Storage * State) (ev : Env * window_event)
  : Storage * State :=
  let '(disk, st) := w in
  let '(env, e) := ev in
  match e with
  | LoadZip file_path => (disk, load_zip_file st file_path)
  | ZipFinished media => (disk, (on_zip_finished js env disk st media).2)
  | NextImage => (disk, next_image st)
  | PrevImage => (disk, prev_image st)
  | SetErros erros =>
      (disk, {| media_files := media_files st;
                current_zip_name := current_zip_name st;
                current_media_index := current_media_index st;
                erros_atuais := erros;
                evaluated_files := evaluated_files st;
     evaluated_others := evaluated_others st |})
  | Salvar =>
      let '(_, disk', st') := salvar_anotacao js env disk st in
      (disk', st')
  end.

(** The index [on_zip_finished] leaves over a ledger. *)
Definition resume_index (media : list MediaItem) (evaluated : gset string) : nat :=
  if bool_decide (size evaluated = length media) then 0%nat
  else first_unevaluated media evaluated.

(** A [json] that is exact on the empty document and on the document
    of [L0]. *)
Definition json_exact_on (L0 : Ledger) : JsonLib :=
  {| json_load := λ text,
       if String.eqb text "{}" then Py.Ok (Json.Dict ∅)
       else if String.eqb text "{...}" then Py.Ok (ledger_json L0)
       else Py.Raise "Expecting value: line 1 column 1 (char 0)";
     json_dump := λ D,
       match D with
       | Json.Dict d => if bool_decide (dom d = ∅) then "{}" else "{...}"
       | _ => "{...}"
       end |}.

(** A [json] over a file that holds a number where the ledger should
    be. *)
Definition json_of_number : JsonLib :=
  {| json_load := λ _, Py.Ok (Json.Int 5);
     json_dump := λ _, "5" |}.

(** The window on the sample item, with one error that has been rated. *)
Definition sample_state : State :=
  {| media_files := [sample_item];
     current_zip_name := "Coleta_2024 05.zip";
     current_media_index := 0;
     erros_atuais := [{| sel_nome := "Borrado"; sel_descricao := "Imagem fora de foco";
                         sel_avaliacao := Some 3 |}];
     evaluated_files := ∅;
     evaluated_others := [] |}.

(** A click on a star of the dialog over [n] errors. *)
Definition valid_click (n : nat) (c : AvaliacaoDialog.click) : Prop :=
  match c with
  | AvaliacaoDialog.Click erro_index estrela_index =>
      (erro_index < n)%nat ∧ (estrela_index < 5)%nat
  end.

(** The dialog opened over [erros] with the ratings kept from last time,
    after the clicks. *)
Definition dialog_after {A} (erros : list A) (saved : gmap nat Z)
    (clicks : list AvaliacaoDialog.click) : AvaliacaoDialog.t A :=
  foldl AvaliacaoDialog.apply_click
        (AvaliacaoDialog.restaurar_avaliacoes (AvaliacaoDialog.new erros) saved) clicks.

(** The window with a dialog over its selection, where a rating of four
    stars was kept from last time and the third star has been clicked. *)
Definition sample_session : Session :=
  {| window := sample_state;
     avaliacao_dialog :=
       Some (dialog_after (erros_atuais sample_state) {[ 0%nat := 4 ]}
                          [AvaliacaoDialog.Click 0 2]);
     ultimo_estado_avaliacao := Some {[ 0%nat := 4 ]} |}.

(** ** The catalog of errors *)

(** A text as [add_nome] and [add_descricao] store it: not empty, and
    without white space around it. *)
Definition tidy (s : string) : Prop := s ≠ "" ∧ Py.strip_ws s = s.

(** The names are distinct and tidy; every name that has descriptions is
    listed, and its descriptions are distinct and tidy. *)
Definition catalog_ok (c : CustomErrorsDialog.Catalog) : Prop :=
  NoDup (CustomErrorsDialog.get_nomes c)
  ∧ Forall tidy (CustomErrorsDialog.get_nomes c)
  ∧ map_Forall (λ nome ds, nome ∈ CustomErrorsDialog.get_nomes c
                           ∧ NoDup ds ∧ Forall tidy ds)
               (CustomErrorsDialog.get_descricoes c).

(** The catalog [load_custom_errors] answers without a file. *)
Definition empty_catalog : CustomErrorsDialog.Catalog :=
  {| CustomErrorsDialog.nomes := Some []; CustomErrorsDialog.descricoes := Some ∅ |}.

(** A catalog with one name and one description. *)
Definition sample_catalog : CustomErrorsDialog.Catalog :=
  {| CustomErrorsDialog.nomes := Some ["Borrado"];
     CustomErrorsDialog.descricoes := Some {[ "Borrado" := ["Imagem fora de foco"] ]} |}.

(** ** The progress dialog *)

(** The progress dialog after the signals of a run. *)
Definition progress_dialog_after (lib : ZipLib) (zip_path temp_dir : string)
    (tree : list entry) : ProgressDialog.t :=
  foldl zip_thread_signal ProgressDialog.new (emitted (run lib zip_path temp_dir tree)).

(** An archive that cannot be opened. *)
Definition not_an_archive : ZipLib :=
  {| zip_namelist := λ _, Py.Raise "File is not a zip file";
     zip_extract := λ _ _ _ tree, Py.Ok tree;
     zip_extract_leaves := λ _ _ _ tree, tree |}.

(** ** The selection of errors *)

(** No selected description belongs to the name. *)
Definition lacks_description (descricoes_data : list (string * string)) (nome : string)
  : Prop :=
  Forall (λ dado, dado.1 ≠ nome) descricoes_data.

#[global] Instance lacks_description_dec descricoes_data nome :
  Decision (lacks_description descricoes_data nome).
Proof. unfold lacks_description. apply _. Defined.

(** The error of a selection has no rating: none was given, or it is
    zero. *)
Definition unrated (e : Selecionado) : Prop :=
  sel_avaliacao e = None ∨ sel_avaliacao e = Some 0.

#[global] Instance unrated_dec e : Decision (unrated e).
Proof. unfold unrated. apply _. Defined.

(** * Properties *)

(** ** The ledger: upsert *)

Section Ledger.

Implicit Types (L : Ledger) (e : Entrada) (es novos : list Erro).

Lemma duplicado_iff novo es :
  duplicado novo es = true ↔ error_key novo ∈ error_key <$> es.
Proof.
  unfold duplicado. rewrite existsb_exists, list_elem_of_fmap.
  split.
  - intros (x & Hx & Heq). exists x. apply andb_prop in Heq as [H1 H2].
    apply String.eqb_eq in H1, H2. split.
    + unfold error_key. by rewrite H1, H2.
    + by apply list_elem_of_In.
  - intros (x & Hk & Hx). exists x. split; [by apply list_elem_of_In|].
    injection Hk as -> ->. by rewrite !String.eqb_refl.
Qed.

(** The loop only appends: what was there stays, in place, and what is
    added are elements of [novos] whose key was not there yet. *)
Lemma merge_erros_app es novos :
  ∃ added,
    merge_erros es novos = es ++ added
    ∧ added `sublist_of` novos
    ∧ (∀ a, a ∈ added → error_key a ∉ error_key <$> es)
    ∧ NoDup (error_key <$> added)
    ∧ (∀ n, n ∈ novos → error_key n ∈ error_key <$> (es ++ added)).
Proof.
  revert es. induction novos as [|n novos IH]; intros es.
  - exists []. rewrite app_nil_r. repeat split; auto using NoDup_nil_2.
    + inversion 1.
    + inversion 1.
  - cbn [merge_erros fold_left]. unfold merge_step at 2.
    destruct (duplicado n es) eqn:Hd.
    + destruct (IH es) as (added & Heq & Hsub & Hnew & Hnd & Hcov).
      exists added. repeat split; auto.
      * by apply sublist_cons.
      * intros m [->|Hm]%elem_of_cons; [|by apply Hcov].
        apply duplicado_iff in Hd. rewrite fmap_app. apply elem_of_app. by left.
    + assert (Hn : error_key n ∉ error_key <$> es).
      { intros Hin%duplicado_iff. congruence. }
      destruct (IH (es ++ [n])) as (added & Heq & Hsub & Hnew & Hnd & Hcov).
      exists (n :: added). repeat split.
      * fold (merge_erros (es ++ [n]) novos). rewrite Heq. by rewrite <- app_assoc.
      * by apply sublist_skip.
      * intros a [->|Ha]%elem_of_cons; [done|].
        intros Hin. apply (Hnew a Ha). rewrite fmap_app. apply elem_of_app. by left.
      * rewrite fmap_cons. apply NoDup_cons. split; [|done].
        intros (a & Hk & Ha)%list_elem_of_fmap. apply (Hnew a Ha).
        rewrite fmap_app, <- Hk. apply elem_of_app. right. apply list_elem_of_singleton.
        done.
      * intros m Hm. rewrite (assoc_L (++) es [n] added : es ++ n :: added = (es ++ [n]) ++ added).
        apply elem_of_cons in Hm as [->|Hm]; [|by apply Hcov].
        rewrite !fmap_app. apply elem_of_app. left. apply elem_of_app. right.
        apply list_elem_of_singleton. done.
Qed.


Lemma merge_erros_NoDup es novos :
  NoDup (error_key <$> es) → NoDup (error_key <$> merge_erros es novos).
Proof.
  revert es. induction novos as [|n novos IH]; intros es Hes; [done|].
  cbn [merge_erros fold_left]. apply IH. unfold merge_step.
  destruct (duplicado n es) eqn:Hd; [done|].
  rewrite fmap_app. apply NoDup_app. repeat split; [done| |apply NoDup_singleton].
  intros k Hk ->%list_elem_of_singleton. apply duplicado_iff in Hk. congruence.
Qed.

(** Errors whose keys are all present add nothing. *)
Lemma merge_erros_known es novos :
  (∀ n, n ∈ novos → error_key n ∈ error_key <$> es) → merge_erros es novos = es.
Proof.
  induction novos as [|n novos IH]; intros Hall; [done|].
  cbn [merge_erros fold_left]. unfold merge_step.
  assert (duplicado n es = true) as ->.
  { apply duplicado_iff, Hall. by left. }
  apply IH. intros m Hm. apply Hall. by right.
Qed.

Lemma merge_erros_again es novos novos' :
  (∀ n, n ∈ novos' → error_key n ∈ error_key <$> novos) →
  merge_erros (merge_erros es novos) novos' = merge_erros es novos.
Proof.
  intros Hsub. apply merge_erros_known. intros n Hn.
  destruct (merge_erros_app es novos) as (added & -> & _ & _ & _ & Hcov).
  apply Hsub in Hn as (m & -> & Hm)%list_elem_of_fmap. by apply Hcov.
Qed.

Lemma upsert_other L zip_name item novos zip' :
  zip' ≠ zip_name → upsert L zip_name item novos !! zip' = L !! zip'.
Proof. intros Hne. unfold upsert. by rewrite lookup_insert_ne. Qed.

Lemma upsert_same L zip_name item novos :
  upsert L zip_name item novos !! zip_name
  = Some (upsert_entradas (default [] (L !! zip_name)) item novos).
Proof. unfold upsert. by rewrite lookup_insert_eq. Qed.



(** The file names under the archive after the save: the old ones, with
    the file appended when it was new. *)
Lemma upsert_entradas_arquivos (entradas : list Entrada) item novos :
  arquivo <$> upsert_entradas entradas item novos
  = (arquivo <$> entradas)
      ++ (if bool_decide (filename item ∈ arquivo <$> entradas)
          then [] else [filename item]).
Proof.
  unfold upsert_entradas. destruct (list_find _ _) as [[i e]|] eqn:Hf.
  - apply list_find_Some in Hf as (Hi & He & _).
    rewrite list_fmap_insert. cbn [with_erros arquivo].
    rewrite bool_decide_eq_true_2, app_nil_r.
    + apply list_insert_id. by rewrite list_lookup_fmap, Hi.
    + rewrite <- He. apply list_elem_of_fmap. exists e. split; [done|].
      by eapply list_elem_of_lookup_2.
  - apply list_find_None in Hf. rewrite Forall_forall in Hf.
    rewrite fmap_app. f_equal. rewrite bool_decide_eq_false_2; [done|].
    intros (e & He & Hin)%list_elem_of_fmap. by apply (Hf e).
Qed.

Lemma default_entradas_NoDup L zip_name :
  one_record_per_file L → NoDup (arquivo <$> default [] (L !! zip_name)).
Proof.
  intros HL. destruct (L !! zip_name) as [l0|] eqn:E; simpl; [by eapply HL|].
  apply NoDup_nil_2.
Qed.

Lemma upsert_one_record L zip_name item novos :
  one_record_per_file L → one_record_per_file (upsert L zip_name item novos).
Proof.
  intros HL z entradas' Hz. destruct (decide (z = zip_name)) as [->|Hne].
  - rewrite upsert_same in Hz. injection Hz as <-.
    rewrite upsert_entradas_arquivos.
    pose proof (default_entradas_NoDup L zip_name HL) as Hold.
    case_bool_decide as Hin; [by rewrite app_nil_r|].
    apply NoDup_app. repeat split; [done| |apply NoDup_singleton].
    intros x Hx ->%list_elem_of_singleton. done.
  - rewrite upsert_other in Hz by done. by eapply HL.
Qed.



Lemma upsert_entradas_twice (entradas : list Entrada) item novos novos' :
  (∀ n, n ∈ novos' → error_key n ∈ error_key <$> novos) →
  upsert_entradas (upsert_entradas entradas item novos) item novos'
  = upsert_entradas entradas item novos.
Proof.
  intros Hsub. unfold upsert_entradas at 2 3.
  destruct (list_find _ entradas) as [[i e]|] eqn:Hf.
  - pose proof Hf as (Hi & He & Hfirst)%list_find_Some.
    set (e1 := with_erros e (merge_erros (erros e) novos)).
    unfold upsert_entradas.
    assert (list_find (λ x, arquivo x = filename item) (<[i:=e1]> entradas)
            = Some (i, e1)) as ->.
    { apply list_find_Some. split_and!.
      - apply list_lookup_insert_eq. by eapply lookup_lt_Some.
      - done.
      - intros j y Hj Hlt. rewrite list_lookup_insert_ne in Hj by lia.
        by eapply Hfirst. }
    rewrite list_insert_insert_eq.
    f_equal. unfold e1, with_erros. cbn.
    by rewrite (merge_erros_again _ _ _ Hsub).
  - pose proof Hf as Hnone%list_find_None.
    set (f := with_erros _ (merge_erros [] novos)).
    unfold upsert_entradas.
    assert (list_find (λ x, arquivo x = filename item) (entradas ++ [f])
            = Some (length entradas, f)) as ->.
    { apply list_find_Some. split_and!.
      - by rewrite list_lookup_middle.
      - done.
      - intros j y Hj Hlt. rewrite lookup_app_l in Hj by done.
        rewrite Forall_forall in Hnone. apply Hnone.
        by eapply list_elem_of_lookup_2. }
    rewrite <- (Nat.add_0_r (length entradas)), insert_app_r. f_equal.
    unfold f, with_erros. cbn. by rewrite (merge_erros_again _ _ _ Hsub).
Qed.

Lemma upsert_twice L zip_name item novos novos' :
  (∀ n, n ∈ novos' → error_key n ∈ error_key <$> novos) →
  upsert (upsert L zip_name item novos) zip_name item novos'
  = upsert L zip_name item novos.
Proof.
  intros Hsub. unfold upsert at 1. rewrite upsert_same. cbn [default from_option].
  unfold Datatypes.id. rewrite upsert_entradas_twice by done.
  unfold upsert. by rewrite insert_insert_eq.
Qed.

Lemma upsert_no_repeated_error L zip_name item novos :
  no_repeated_error L → no_repeated_error (upsert L zip_name item novos).
Proof.
  intros HL z entradas' x Hz Hx. destruct (decide (z = zip_name)) as [->|Hne].
  2:{ rewrite upsert_other in Hz by done. by eapply HL. }
  assert (Hold : ∀ y, y ∈ default [] (L !! zip_name) → NoDup (error_key <$> erros y)).
  { intros y Hy. destruct (L !! zip_name) as [l0|] eqn:E; simpl in Hy.
    - by eapply HL.
    - by apply elem_of_nil in Hy. }
  rewrite upsert_same in Hz. injection Hz as <-.
  unfold upsert_entradas in Hx. destruct (list_find _ _) as [[i e]|] eqn:Hf.
  - apply list_find_Some in Hf as (Hi & He & _).
    apply list_elem_of_lookup in Hx as [j Hj].
    destruct (decide (i = j)) as [->|Hij].
    + rewrite list_lookup_insert_eq in Hj by (by eapply lookup_lt_Some).
      injection Hj as <-. cbn. apply merge_erros_NoDup, Hold.
      by eapply list_elem_of_lookup_2.
    + rewrite list_lookup_insert_ne in Hj by done.
      apply Hold. by eapply list_elem_of_lookup_2.
  - apply elem_of_app in Hx as [Hx| ->%list_elem_of_singleton]; [by apply Hold|].
    cbn. apply merge_erros_NoDup. apply NoDup_nil_2.
Qed.

End Ledger.


(** C2. A second save for the same file whose errors repeat (name,
    description) pairs of the first leaves the ledger as the first save
    left it, whatever the ratings and timestamps of the second: no entry
    is added and the stored ratings stay. A save creates neither a second
    record for a file nor a repeated (name, description) in a record. *)
Theorem upsert_idempotent (L : Ledger) (zip_name : string) (item : MediaItem)
    (novos novos' : list Erro) :
  (∀ n, n ∈ novos' → error_key n ∈ error_key <$> novos) →
  upsert (upsert L zip_name item novos) zip_name item novos'
  = upsert L zip_name item novos
  ∧ (one_record_per_file L → one_record_per_file (upsert L zip_name item novos))
  ∧ (no_repeated_error L → no_repeated_error (upsert L zip_name item novos)).
Proof.
  intros Hsub. split_and!.
  - by apply upsert_twice.
  - apply upsert_one_record.
  - apply upsert_no_repeated_error.
Qed.

(** ** The finger and side label *)

Section Label.

Lemma dict_get_finger tok : Py.dict_get finger_map tok = finger_of tok.
Proof.
  unfold finger_of, finger_map. cbn [Py.dict_get].
  repeat (case_decide as H;
          [subst tok; reflexivity
          |apply String.eqb_neq in H; rewrite H; clear H]).
  reflexivity.
Qed.

Lemma side_name_d_or_e c :
  is_d_or_e (String c "") = bool_decide (is_Some (side_name c)).
Proof.
  unfold is_d_or_e, side_name. cbn [String.eqb].
  destruct (Ascii.eqb_spec c "d") as [->|Hd]; [done|].
  destruct (Ascii.eqb_spec c "e") as [->|He]; [done|].
  rewrite !decide_False by done. done.
Qed.

Lemma dict_get_side c :
  is_d_or_e (String c "") = true →
  Py.dict_get side_map (String c "") = side_name c.
Proof.
  unfold is_d_or_e, side_name, side_map. cbn [String.eqb Py.dict_get].
  destruct (Ascii.eqb_spec c "d") as [->|Hd]; [done|].
  destruct (Ascii.eqb_spec c "e") as [->|He]; [done|].
  done.
Qed.

Lemma is_d_or_e_length s : is_d_or_e s = true → String.length s = 1%nat.
Proof.
  unfold is_d_or_e. intros [->%String.eqb_eq | ->%String.eqb_eq]%orb_prop; done.
Qed.

(** One token updates each of the two variables when it names one. *)
Lemma scan_part_spec f s tok :
  scan_part (f, s) tok = (default f (finger_of tok), default s (side_of tok)).
Proof.
  unfold scan_part. rewrite dict_get_finger. f_equal.
  destruct tok as [|c0 [|c1 [|c2 t]]]; cbn [side_of].
  - done.
  - rewrite side_name_d_or_e. case_bool_decide as Hs.
    + rewrite dict_get_side by (rewrite side_name_d_or_e; by apply bool_decide_eq_true_2).
      done.
    + destruct (side_name c0); [|done]. exfalso. by apply Hs.
  - assert (is_d_or_e (String c0 (String c1 "")) = false) as ->.
    { destruct (is_d_or_e _) eqn:E; [|done]. by apply is_d_or_e_length in E. }
    destruct (Py.isdigit c0); cbn [andb]; [|done].
    rewrite side_name_d_or_e. case_bool_decide as Hs.
    + rewrite dict_get_side by (rewrite side_name_d_or_e; by apply bool_decide_eq_true_2).
      done.
    + destruct (side_name c1); [|done]. exfalso. by apply Hs.
  - assert (is_d_or_e (String c0 (String c1 (String c2 t))) = false) as ->; [|done].
    destruct (is_d_or_e _) eqn:E; [|done]. by apply is_d_or_e_length in E.
Qed.

Lemma default_last_omap {A} (f : string → option A) d tok toks :
  default d (last (omap f (tok :: toks)))
  = default (default d (f tok)) (last (omap f toks)).
Proof.
  change (omap f (tok :: toks))
    with (match f tok with Some y => y :: omap f toks | None => omap f toks end).
  destruct (f tok) as [v|]; cbn [default from_option]; [|done].
  rewrite last_cons. by destruct (last (omap f toks)).
Qed.

(** No early exit: after the scan each variable holds the value of the
    last token that named one. *)
Lemma scan_parts_last toks f s :
  fold_left scan_part toks (f, s)
  = (default f (last_match finger_of toks), default s (last_match side_of toks)).
Proof.
  unfold last_match. revert f s. induction toks as [|tok toks IH]; intros f s; [done|].
  cbn [fold_left]. by rewrite scan_part_spec, IH, !default_last_omap.
Qed.

Lemma finger_of_truthy tok v : finger_of tok = Some v → truthy v = true.
Proof.
  unfold finger_of. repeat case_decide; intros [= <-]; done.
Qed.

Lemma side_name_truthy c v : side_name c = Some v → truthy v = true.
Proof. unfold side_name. repeat case_decide; intros [= <-]; done. Qed.

Lemma side_of_truthy tok v : side_of tok = Some v → truthy v = true.
Proof.
  destruct tok as [|c0 [|c1 [|c2 t]]]; cbn [side_of]; try done.
  - apply side_name_truthy.
  - destruct (Py.isdigit c0); [apply side_name_truthy|done].
Qed.

Lemma last_match_elem {A} (f : string → option A) toks v :
  last_match f toks = Some v → ∃ tok, tok ∈ toks ∧ f tok = Some v.
Proof.
  unfold last_match. intros Hl.
  assert (v ∈ omap f toks) as Hv.
  { apply last_Some in Hl as [l' ->]. apply elem_of_app. right. by left. }
  by apply list_elem_of_omap in Hv.
Qed.

End Label.

(** C6, as the code has it. The label is composed from the finger named
    by the last token that names a finger and the side named by the last
    token that names a side, over the underscore-split tokens of the
    lowercased name: both give ["finger - side"], a finger alone gives the
    finger, and without a finger the label is ["Desconhecido"], also when
    a side was found. *)
Theorem extract_dedo_info_last_match (filename : string) :
  extract_dedo_info filename
  = compose_label (last_match finger_of (label_tokens filename))
                  (last_match side_of (label_tokens filename)).
Proof.
  unfold extract_dedo_info. fold (label_tokens filename).
  rewrite scan_parts_last.
  destruct (last_match finger_of _) as [f|] eqn:Hf;
    destruct (last_match side_of _) as [s|] eqn:Hs;
    cbn [default from_option Datatypes.id compose_label].
  - apply last_match_elem in Hf as (t1 & _ & H1). apply last_match_elem in Hs as (t2 & _ & H2).
    by rewrite (finger_of_truthy _ _ H1), (side_of_truthy _ _ H2).
  - apply last_match_elem in Hf as (t1 & _ & H1).
    by rewrite (finger_of_truthy _ _ H1).
  - done.
  - done.
Qed.

(** C6, as the specification words it, fails on a name with a side and
    no finger: the code answers ["Desconhecido"], not the side. *)
Lemma extract_dedo_info_side_only :
  last_match finger_of (label_tokens "2024_05_1_d") = None
  ∧ last_match side_of (label_tokens "2024_05_1_d") = Some "Direita"
  ∧ extract_dedo_info "2024_05_1_d" = "Desconhecido"
  ∧ extract_dedo_info "2024_05_1_d"
    ≠ compose_label_spec (last_match finger_of (label_tokens "2024_05_1_d"))
                         (last_match side_of (label_tokens "2024_05_1_d")).
Proof. split_and!; [reflexivity..|]. vm_compute. discriminate. Qed.

Lemma filter_nil_iff {A} (P : A → Prop) `{!∀ x, Decision (P x)} (l : list A) :
  filter P l = [] ↔ ∀ x, x ∈ l → ¬ P x.
Proof.
  induction l as [|y l IH]; [by split; [intros _ x ?%elem_of_nil|]|].
  rewrite filter_cons. destruct (decide (P y)) as [Hy|Hy].
  - split; [done|]. intros Hall. destruct (Hall y); [by left|done].
  - rewrite IH. split.
    + intros Hall x [->|?]%elem_of_cons; auto.
    + intros Hall x Hx. apply Hall. by right.
Qed.

(** ** The ledger as a document *)

Section Documents.

Implicit Types (L : Ledger) (e : Entrada) (es novos : list Erro).

Lemma entrada_json_arquivo e :
  Json.getitem (entrada_json e) "arquivo" = Py.Ok (Json.Str (arquivo e)).
Proof.
  unfold entrada_json, Json.getitem.
  by rewrite lookup_insert_ne, lookup_insert_eq by done.
Qed.

Lemma entrada_json_erros e :
  Json.getitem (entrada_json e) "erros" = Py.Ok (Json.List (erro_json <$> erros e)).
Proof. unfold entrada_json, Json.getitem. by rewrite lookup_insert_eq. Qed.

Lemma erro_json_nome (x : Erro) :
  Json.getitem (erro_json x) "nome" = Py.Ok (Json.Str (nome x)).
Proof. unfold erro_json, Json.getitem. by rewrite lookup_insert_eq. Qed.

Lemma erro_json_descricao (x : Erro) :
  Json.getitem (erro_json x) "descricao" = Py.Ok (Json.Str (descricao x)).
Proof.
  unfold erro_json, Json.getitem.
  by rewrite lookup_insert_ne, lookup_insert_eq by done.
Qed.

Lemma find_entrada_ledger a (l : list Entrada) :
  find_entrada a (entrada_json <$> l)
  = Py.Ok (fst <$> list_find (λ e, arquivo e = a) l).
Proof.
  induction l as [|e l IH]; [done|].
  cbn [fmap list_fmap find_entrada]. rewrite entrada_json_arquivo.
  cbn [mbind Py.result_bind Json.eq_str list_find].
  destruct (String.eqb_spec (arquivo e) a) as [Heq|Hne].
  - by rewrite decide_True.
  - rewrite decide_False by done. fold (fmap entrada_json l). rewrite IH.
    cbn [mbind Py.result_bind]. by destruct (list_find _ l) as [[i x]|].
Qed.

Lemma any_duplicado_ledger novo es :
  any_duplicado novo (erro_json <$> es) = Py.Ok (duplicado novo es).
Proof.
  unfold duplicado. induction es as [|x es IH]; [done|].
  cbn [fmap list_fmap any_duplicado existsb]. rewrite erro_json_nome.
  cbn [mbind Py.result_bind Json.eq_str]. fold (fmap erro_json es).
  destruct (String.eqb (nome x) (nome novo)); [|by rewrite IH].
  rewrite erro_json_descricao. cbn [mbind Py.result_bind Json.eq_str].
  destruct (String.eqb (descricao x) (descricao novo)); [done|by rewrite IH].
Qed.

Lemma merge_step_json_ledger e novo :
  merge_step_json (entrada_json e) novo
  = Py.Ok (entrada_json (with_erros e (merge_step (erros e) novo))).
Proof.
  unfold merge_step_json. rewrite entrada_json_erros.
  cbn [mbind Py.result_bind Json.iter]. rewrite any_duplicado_ledger.
  cbn [mbind Py.result_bind]. unfold merge_step.
  destruct (duplicado novo (erros e)); [done|].
  cbn [Json.append mbind Py.result_bind]. unfold entrada_json at 1. cbn [Json.setitem].
  rewrite insert_insert_eq. unfold entrada_json, with_erros. cbn.
  by rewrite fmap_app.
Qed.

Lemma merge_erros_json_ledger e novos :
  merge_erros_json (entrada_json e) novos
  = Py.Ok (entrada_json (with_erros e (merge_erros (erros e) novos))).
Proof.
  revert e. induction novos as [|novo novos IH]; intros e; [done|].
  cbn [merge_erros_json]. rewrite merge_step_json_ledger.
  cbn [mbind Py.result_bind]. by rewrite IH.
Qed.

(** On the document of a ledger the lines 1861-1897 give the document
    of [upsert]: they do not raise. *)
Lemma upsert_json_ledger L zip_name item novos :
  upsert_json (ledger_json L) zip_name item novos
  = Py.Ok (ledger_json (upsert L zip_name item novos)).
Proof.
  unfold upsert_json, upsert, ledger_json. cbn [Json.contains mbind Py.result_bind].
  rewrite lookup_fmap. destruct (L !! zip_name) as [l|] eqn:Hl; cbn [fmap option_fmap option_map].
  - rewrite bool_decide_eq_true_2 by done. cbn [mbind Py.result_bind Json.getitem].
    rewrite lookup_fmap, Hl. cbn [fmap option_fmap option_map mbind Py.result_bind Json.iter].
    rewrite find_entrada_ledger. cbn [mbind Py.result_bind default from_option].
    unfold upsert_entradas, Datatypes.id.
    destruct (list_find (λ e, arquivo e = filename item) l) as [[i e]|] eqn:Hf;
      cbn [fmap option_fmap option_map fst mbind Py.result_bind].
    + apply list_find_Some in Hf as (Hi & _).
      rewrite list_lookup_fmap, Hi. cbn [fmap option_fmap option_map default from_option].
      unfold Datatypes.id. rewrite merge_erros_json_ledger.
      cbn [mbind Py.result_bind Json.setitem]. by rewrite fmap_insert, list_fmap_insert.
    + cbn [Json.append mbind Py.result_bind]. rewrite merge_erros_json_ledger.
      cbn [mbind Py.result_bind Json.setitem erros]. rewrite fmap_insert, fmap_app.
      rewrite length_fmap, <- (length_fmap entrada_json l).
      by rewrite <- (Nat.add_0_r (length (entrada_json <$> l))), insert_app_r.
  - rewrite bool_decide_eq_false_2 by (by intros [? ?]).
    cbn [mbind Py.result_bind Json.setitem Json.getitem]. rewrite lookup_insert_eq.
    cbn [mbind Py.result_bind Json.iter find_entrada Json.append app length
              default from_option].
    rewrite merge_erros_json_ledger. cbn [mbind Py.result_bind Json.setitem erros].
    by rewrite insert_insert_eq, fmap_insert.
Qed.

End Documents.

(** ** Persistence: load and save *)

(** C8. Loading never raises. It answers the empty document when the
    file is missing, when it cannot be opened and when its text does not
    parse; otherwise it answers the parsed document. *)
Theorem load_resultado_json_never_raises (js : JsonLib) (env : Env) (disk : Storage) :
  ∃ D : Json.t,
    load_resultado_json js env disk = Py.Ok D
    ∧ (disk = None → D = Json.Dict ∅)
    ∧ (∀ text e, disk = Some text → open_read_error env = Some e → D = Json.Dict ∅)
    ∧ (∀ text e, disk = Some text → json_load js text = Py.Raise e → D = Json.Dict ∅)
    ∧ (∀ text data, disk = Some text → open_read_error env = None →
         json_load js text = Py.Ok data → D = data).
Proof.
  unfold load_resultado_json, open_read, try_except.
  destruct disk as [text|]; cbn.
  - destruct (open_read_error env) as [e0|] eqn:Hopen; cbn.
    + exists (Json.Dict ∅). split_and!; try done.
    + destruct (json_load js text) as [data|e1] eqn:Hparse; cbn.
      * exists data. split_and!; try done.
        -- intros t e [= <-] He. congruence.
        -- intros t d [= <-] _ Hd. congruence.
      * exists (Json.Dict ∅). split_and!; try done.
        intros t d [= <-] _ Hd. congruence.
  - exists (Json.Dict ∅). split_and!; done.
Qed.

Section Save.

Context (js : JsonLib).

Lemma load_resultado_json_ok env disk :
  ∃ D, load_resultado_json js env disk = Py.Ok D.
Proof.
  unfold load_resultado_json, open_read, try_except.
  destruct disk as [text|]; [|by eexists]. cbn.
  destruct (open_read_error env); [by eexists|]. cbn.
  destruct (json_load js text); by eexists.
Qed.

Lemma save_resultado_json_cases (env : Env) (disk : Storage) (data : Json.t) :
  match save_resultado_json js env disk data with
  | (true, disk', data') =>
      open_write_error env = None ∧ disk' = Some (json_dump js data) ∧ data' = data
  | (false, disk', data') =>
      ((open_write_error env ≠ None ∧ disk' = disk)
       ∨ (open_write_error env = None
          ∧ ∃ room, write_room env = Some room
                  ∧ (room < String.length (json_dump js data))%nat
                  ∧ disk' = Some (Py.slice_to room (json_dump js data))))
      ∧ data' = data
  end.
Proof.
  unfold save_resultado_json, open_write, write_text.
  destruct (open_write_error env) as [e|]; [by split; [left|]|].
  destruct (write_room env) as [room|]; [|done].
  destruct (Nat.leb_spec (String.length (json_dump js data)) room); [done|].
  split; [|done]. right. split; [done|]. by exists room.
Qed.

(** The guard on the ratings passes exactly when every error has a
    rating that is not zero. *)
Lemma sem_avaliacao_unrated (e : Selecionado) : sem_avaliacao e = true ↔ unrated e.
Proof.
  unfold sem_avaliacao, unrated. destruct (sel_avaliacao e) as [n|].
  - rewrite Z.eqb_eq. split; [intros ->; by right|]. by intros [|[= ->]].
  - split; [by left|done].
Qed.

Lemma filter_sem_avaliacao (l : list Selecionado) :
  filter (λ e, sem_avaliacao e = true) l = filter unrated l.
Proof. apply list_filter_iff, sem_avaliacao_unrated. Qed.

Lemma all_rated_filter (l : list Selecionado) :
  Forall (λ e, ∃ n, sel_avaliacao e = Some n ∧ n ≠ 0) l ↔ filter unrated l = [].
Proof.
  rewrite filter_nil_iff, Forall_forall. unfold unrated.
  split; intros H e He.
  - destruct (H e He) as (n & Hn & Hne). rewrite Hn. intros [|[= ->]]; done.
  - specialize (H e He). destruct (sel_avaliacao e) as [n|]; [|by destruct H; left].
    exists n. split; [done|]. intros ->. apply H. by right.
Qed.

(** What a call of [salvar_anotacao] does when the window is ready. *)
Lemma salvar_anotacao_ready env disk st item :
  ready_to_save st item →
  salvar_anotacao js env disk st
  = match
      resultado_data ← load_resultado_json js env disk;
      upsert_json resultado_data (current_zip_name st) item
                  (imap (novo_erro env) (erros_atuais st))
    with
    | Py.Raise e => (Py.Raise e, disk, st)
    | Py.Ok resultado_data =>
        match save_resultado_json js env disk resultado_data with
        | (true, disk', _) =>
            (Py.Ok (Sucesso (filename item) (length (erros_atuais st))),
             disk', after_save st item)
        | (false, disk', _) => (Py.Ok ErroCritico, disk', st)
        end
    end.
Proof.
  intros (Hmedia & Hzip & Hitem & Herros & Hrated). unfold salvar_anotacao.
  rewrite bool_decide_eq_false_2 by done. rewrite (proj2 (String.eqb_neq _ _) Hzip), Hitem.
  rewrite bool_decide_eq_false_2 by done.
  by rewrite filter_sem_avaliacao, (proj1 (all_rated_filter _) Hrated).
Qed.

(** A call that is not stopped by a guard found the window ready. *)
Lemma salvar_anotacao_cases env disk st :
  (∃ d, salvar_anotacao js env disk st = (Py.Ok d, disk, st) ∧ is_guard d)
  ∨ ∃ item, ready_to_save st item.
Proof.
  unfold salvar_anotacao, ready_to_save.
  case_bool_decide as Hmedia; [left; by eexists|].
  destruct (String.eqb_spec (current_zip_name st) "") as [|Hzip]; [left; by eexists|].
  destruct (media_files st !! current_media_index st) as [item|]; [|left; by eexists].
  case_bool_decide as Herros; [left; by eexists|].
  rewrite filter_sem_avaliacao.
  destruct (filter unrated (erros_atuais st)) as [|x l] eqn:Hf; [|left; by eexists].
  right. exists item. split_and!; try done. by apply all_rated_filter.
Qed.

End Save.

(** C9, as the code has it. A save answers [True] with the whole text in
    the file, or [False]; on [False] the file is as it was only when it
    could not be opened, and otherwise it has been truncated and holds an
    incomplete text. The document passed to the save is as it was after
    either answer. [salvar_anotacao], when its guards have passed and
    the loaded document has been updated, shows the critical error
    exactly when the save answers [False], and then leaves the window as
    it was; on [True] it reports the success and the window moves on.
    When a guard stops the call or the update of the loaded document
    raises, the file and the window are as they were; the update does
    not raise when the file holds a ledger. *)
Theorem save_resultado_json_reports_failure (js : JsonLib) (env : Env) (disk : Storage) :
  (∀ data : Json.t,
     match save_resultado_json js env disk data with
     | (true, disk', data') => disk' = Some (json_dump js data) ∧ data' = data
     | (false, disk', data') =>
         ((open_write_error env ≠ None ∧ disk' = disk)
          ∨ (∃ room, (room < String.length (json_dump js data))%nat
                     ∧ disk' = Some (Py.slice_to room (json_dump js data))))
         ∧ data' = data
     end)
  ∧ (∀ st item D D',
       ready_to_save st item →
       load_resultado_json js env disk = Py.Ok D →
       upsert_json D (current_zip_name st) item (imap (novo_erro env) (erros_atuais st))
       = Py.Ok D' →
       match save_resultado_json js env disk D' with
       | (true, disk', _) =>
           salvar_anotacao js env disk st
           = (Py.Ok (Sucesso (filename item) (length (erros_atuais st))),
              disk', after_save st item)
       | (false, disk', _) =>
           salvar_anotacao js env disk st = (Py.Ok ErroCritico, disk', st)
       end)
  ∧ (∀ st,
       match salvar_anotacao js env disk st with
       | (Py.Ok d, disk', st') =>
           (is_guard d → disk' = disk ∧ st' = st)
           ∧ (d = ErroCritico →
              st' = st
              ∧ ∃ item D D',
                  ready_to_save st item
                  ∧ load_resultado_json js env disk = Py.Ok D
                  ∧ upsert_json D (current_zip_name st) item
                                (imap (novo_erro env) (erros_atuais st)) = Py.Ok D'
                  ∧ (save_resultado_json js env disk D').1 = (false, disk'))
           ∧ (∀ a n, d = Sucesso a n →
                ∃ item D D',
                  ready_to_save st item
                  ∧ load_resultado_json js env disk = Py.Ok D
                  ∧ upsert_json D (current_zip_name st) item
                                (imap (novo_erro env) (erros_atuais st)) = Py.Ok D'
                  ∧ disk' = Some (json_dump js D')
                  ∧ st' = after_save st item)
       | (Py.Raise e, disk', st') =>
           disk' = disk ∧ st' = st
           ∧ ∃ item D,
               ready_to_save st item
               ∧ load_resultado_json js env disk = Py.Ok D
               ∧ upsert_json D (current_zip_name st) item
                             (imap (novo_erro env) (erros_atuais st)) = Py.Raise e
       end)
  ∧ (∀ st L, holds_ledger js env disk L →
       ∃ d, (salvar_anotacao js env disk st).1.1 = Py.Ok d).
Proof.
  split_and!.
  - intros data. pose proof (save_resultado_json_cases js env disk data) as H.
    destruct (save_resultado_json js env disk data) as [[[|] disk'] data'].
    + by destruct H as (_ & ? & ?).
    + destruct H as [[H|(_ & room & _ & Hlt & ->)] ->]; split; try done; [by left|].
      right. by exists room.
  - intros st item D D' Hready Hload Hup.
    rewrite (salvar_anotacao_ready js env disk st item Hready), Hload.
    cbn [mbind Py.result_bind]. rewrite Hup.
    by destruct (save_resultado_json js env disk D') as [[[|] disk'] data'].
  - intros st.
    destruct (salvar_anotacao_cases js env disk st) as [(d & -> & Hd)|[item Hready]].
    { split_and!; [done|by intros ->|by intros a n ->]. }
    rewrite (salvar_anotacao_ready js env disk st item Hready).
    destruct (load_resultado_json_ok js env disk) as [D HD]. rewrite HD.
    cbn [mbind Py.result_bind].
    destruct (upsert_json D _ _ _) as [D'|e] eqn:Hup; [|split_and!; [done|done|by exists item, D]].
    pose proof (save_resultado_json_cases js env disk D') as Hc.
    destruct (save_resultado_json js env disk D') as [[[|] disk'] data'] eqn:Hs.
    + destruct Hc as (_ & -> & _). split_and!; [done|done|].
      intros a n _. by exists item, D, D'.
    + split_and!; [done| |done]. intros _. split; [done|].
      exists item, D, D'. split_and!; try done. by rewrite Hs.
  - intros st L HL.
    destruct (salvar_anotacao_cases js env disk st) as [(d & -> & Hd)|[item Hready]];
      [by exists d|].
    rewrite (salvar_anotacao_ready js env disk st item Hready).
    unfold holds_ledger in HL. rewrite HL. cbn [mbind Py.result_bind].
    rewrite upsert_json_ledger.
    destruct (save_resultado_json js env disk _) as [[[|] disk'] data']; by eexists.
Qed.

(** C9, as the specification words it, fails when the device fills up
    during the write: the save answers [False] and the file holds neither
    its old text nor the new one. *)
Lemma save_resultado_json_partial_overwrite :
  save_resultado_json json_of_empty env_disk_full (Some "{ }") (Json.Dict ∅)
  = (false, Some "{", Json.Dict ∅)
  ∧ ¬ save_all_or_nothing json_of_empty env_disk_full (Some "{ }") (Json.Dict ∅).
Proof. split; [reflexivity|]. unfold save_all_or_nothing. cbn. discriminate. Qed.

(** ** The catalog builder never raises *)

Section Total.

Lemma for_each_ok {A B} (f : A → Py.result B) (g : A → B) (l : list A) :
  (∀ x, f x = Py.Ok (g x)) → Py.for_each f l = Py.Ok (g <$> l).
Proof.
  intros Hf. induction l as [|x l IH]; [done|].
  cbn [Py.for_each]. rewrite Hf, IH. done.
Qed.

(** The guarded [path_parts[-k]] never raises. *)
Lemma guarded_index {A} (l : list A) (k : nat) (d : A) :
  (if (S k <=? length l)%nat then Py.index_neg l (S k) else Py.Ok d)
  = Py.Ok (default d (from_last k l)).
Proof.
  unfold from_last, Py.index_neg.
  destruct (Nat.leb_spec (S k) (length l)) as [Hle|Hgt].
  - rewrite reverse_lookup by lia.
    destruct (lookup_lt_is_Some_2 l (length l - S k)) as [x Hx]; [lia|].
    by rewrite Hx.
  - rewrite lookup_ge_None_2; [done|]. rewrite length_reverse. lia.
Qed.

Lemma make_item_ok temp_dir ano mes root file :
  make_item temp_dir ano mes root file
  = Py.Ok (item_of ano mes (Py.join root file) file
                   (path_parts temp_dir (Py.join root file))).
Proof.
  unfold make_item. fold (path_parts temp_dir (Py.join root file)).
  rewrite (guarded_index _ 2 "??"). cbn [mbind Py.result_bind].
  rewrite (guarded_index _ 1 "Unknown"). done.
Qed.

Lemma collect_files_ok zip_path temp_dir tree :
  collect_files zip_path temp_dir tree
  = Py.Ok (unsorted_items zip_path temp_dir tree).
Proof.
  unfold collect_files, unsorted_items, archive_date.
  destruct (default _ _) as [ano mes]. cbn [fst snd].
  apply for_each_ok. intros [root file]. apply make_item_ok.
Qed.

Lemma organize_files_ok zip_path temp_dir tree :
  organize_files zip_path temp_dir tree
  = Py.Ok (sort_by tuple_lt sort_key (unsorted_items zip_path temp_dir tree)).
Proof. unfold organize_files. by rewrite collect_files_ok. Qed.

End Total.

(** ** The sort *)

Section StrOrder.

Lemma str_lt_irrefl a : ¬ str_lt a a.
Proof.
  unfold str_lt. intros H. pose proof (String.compare_antisym a a) as Ha.
  rewrite H in Ha. discriminate.
Qed.

Lemma str_compare_lt_trans a b c :
  String.compare a b = Lt → String.compare b c = Lt → String.compare a c = Lt.
Proof.
  revert b c. induction a as [|x a IH]; intros [|y b] [|z c]; cbn; try done.
  destruct (Ascii.compare x y) eqn:Hxy; try done.
  - apply Ascii.compare_eq_iff in Hxy as ->.
    destruct (Ascii.compare y z); try done. apply IH.
  - intros _. destruct (Ascii.compare y z) eqn:Hyz; try done.
    + apply Ascii.compare_eq_iff in Hyz as <-. by rewrite Hxy.
    + intros _. assert (Ascii.compare x z = Lt) as ->; [|done].
      unfold Ascii.compare in *. apply N.compare_lt_iff.
      etrans; by apply N.compare_lt_iff.
Qed.

Lemma str_lt_trans a b c : str_lt a b → str_lt b c → str_lt a c.
Proof. apply str_compare_lt_trans. Qed.

Lemma str_trichotomy a b : str_lt a b ∨ a = b ∨ str_lt b a.
Proof.
  unfold str_lt. rewrite (String.compare_antisym b a).
  destruct (String.compare a b) eqn:Hc; cbn; auto.
  right. left. by apply String.compare_eq_iff.
Qed.

Lemma str_lt_asym a b : str_lt a b → ¬ str_lt b a.
Proof. intros H1 H2. apply (str_lt_irrefl a). by eapply str_lt_trans. Qed.

Lemma ltb_str_lt a b : String.ltb a b = true ↔ str_lt a b.
Proof.
  unfold String.ltb, str_lt. destruct (String.compare a b); split; congruence.
Qed.

Lemma ltb_false a b : String.ltb a b = false ↔ (str_lt b a ∨ b = a).
Proof.
  rewrite <- not_true_iff_false, ltb_str_lt. split.
  - intros Hn. destruct (str_trichotomy a b) as [?|[?|?]]; [done|by right|by left].
  - intros [H| ->]; [by apply str_lt_asym|apply str_lt_irrefl].
Qed.

(** The order the code asks for is the lexicographic one. *)
Lemma tuple_lt_false a b : tuple_lt b a = false ↔ key_le a b.
Proof.
  destruct a as [[a1 a2] a3], b as [[b1 b2] b3]. unfold tuple_lt, key_le.
  pose proof (str_lt_irrefl a1). pose proof (str_lt_irrefl a2).
  destruct (String.eqb_spec b1 a1) as [->|H1]; cbn [negb].
  - destruct (String.eqb_spec b2 a2) as [->|H2]; cbn [negb];
      rewrite ltb_false; intuition (auto; congruence).
  - rewrite ltb_false; intuition (auto; congruence).
Qed.

Lemma key_le_trans a b c : key_le a b → key_le b c → key_le a c.
Proof.
  destruct a as [[a1 a2] a3], b as [[b1 b2] b3], c as [[c1 c2] c3]. unfold key_le.
  intros [Ha|[Ea [Ha|[Ea' [Ha|Ea'']]]]] [Hb|[Eb [Hb|[Eb' [Hb|Eb'']]]]]; subst;
    eauto 10 using str_lt_trans.
Qed.

Lemma key_le_total a b : key_le a b ∨ key_le b a.
Proof.
  destruct a as [[a1 a2] a3], b as [[b1 b2] b3]. unfold key_le.
  destruct (str_trichotomy a1 b1) as [?|[->|?]]; auto.
  destruct (str_trichotomy a2 b2) as [?|[->|?]]; auto 6.
  destruct (str_trichotomy a3 b3) as [?|[->|?]]; auto 10.
Qed.

Lemma tuple_lt_true a b : tuple_lt a b = true → key_le a b.
Proof.
  intros Hlt. destruct (key_le_total a b) as [|Hba]; [done|].
  apply tuple_lt_false in Hba. congruence.
Qed.

End StrOrder.

Lemma StronglySorted_weaken {A} (R R' : A → A → Prop) (l : list A) :
  (∀ x y, R x y → R' x y) → StronglySorted R l → StronglySorted R' l.
Proof.
  intros HR. induction 1 as [|x l Hs IH Hall]; constructor; [done|].
  eapply Forall_impl; [exact Hall|]. intros y. apply HR.
Qed.

Section Sort.

Context {A K : Type} (lt : K → K → bool) (key : A → K).

Let le (x y : A) : Prop := lt (key y) (key x) = false.

Hypothesis lt_asym : ∀ a b, lt a b = true → lt b a = false.
Hypothesis le_trans : ∀ a b c, lt b a = false → lt c b = false → lt c a = false.

Lemma insert_by_perm x l : insert_by lt key x l ≡ₚ x :: l.
Proof.
  induction l as [|y l IH]; cbn [insert_by]; [done|].
  destruct (lt (key y) (key x)); [|done].
  rewrite IH. apply Permutation_swap.
Qed.

Lemma sort_by_perm l : sort_by lt key l ≡ₚ l.
Proof.
  induction l as [|x l IH]; [done|].
  cbn [sort_by foldr]. fold (sort_by lt key l). by rewrite insert_by_perm, IH.
Qed.

Lemma insert_by_sorted x l :
  StronglySorted le l → StronglySorted le (insert_by lt key x l).
Proof.
  induction 1 as [|y l Hsorted IH Hall]; cbn [insert_by].
  - repeat constructor.
  - destruct (lt (key y) (key x)) eqn:Hyx.
    + constructor; [done|]. rewrite insert_by_perm. constructor; [|done].
      unfold le. by apply lt_asym.
    + constructor; [by constructor|]. constructor; [done|].
      eapply Forall_impl; [exact Hall|]. intros z Hz. unfold le in *. by eapply le_trans.
Qed.

Lemma sort_by_sorted l : StronglySorted le (sort_by lt key l).
Proof.
  induction l as [|x l IH]; [constructor|].
  cbn [sort_by foldr]. by apply insert_by_sorted.
Qed.

(** Stability: an element is never moved past an element of its key. *)
Lemma insert_by_filter `{EqDecision K} (k : K) x l :
  (∀ a, lt a a = false) →
  filter (λ y, key y = k) (insert_by lt key x l)
  = filter (λ y, key y = k) (x :: l).
Proof.
  intros Hirr. induction l as [|y l IH]; cbn [insert_by]; [done|].
  destruct (lt (key y) (key x)) eqn:Hyx; [|done].
  rewrite filter_cons, IH, !filter_cons.
  destruct (decide (key y = k)) as [Hy|Hy]; [|done].
  destruct (decide (key x = k)) as [Hx|Hx]; [|done].
  rewrite Hy, Hx, Hirr in Hyx. done.
Qed.

Lemma sort_by_filter `{EqDecision K} (k : K) l :
  (∀ a, lt a a = false) →
  filter (λ y, key y = k) (sort_by lt key l) = filter (λ y, key y = k) l.
Proof.
  intros Hirr. induction l as [|x l IH]; [done|].
  cbn [sort_by foldr]. fold (sort_by lt key l).
  rewrite insert_by_filter by done. by rewrite !filter_cons, IH.
Qed.

End Sort.

(** C3. The catalog is sorted ascending by (capture date, id, file name)
    under the order of strings on each component, it holds the items that
    were collected, and the items of one key are in the order in which
    the files were reached. *)
Theorem organize_files_sorted_stable (zip_path temp_dir : string) (tree : list entry) :
  ∃ l,
    organize_files zip_path temp_dir tree = Py.Ok l
    ∧ StronglySorted item_le l
    ∧ l ≡ₚ unsorted_items zip_path temp_dir tree
    ∧ ∀ k, with_key k l = with_key k (unsorted_items zip_path temp_dir tree).
Proof.
  assert (Hasym : ∀ a b, tuple_lt a b = true → tuple_lt b a = false).
  { intros a b Hab. by apply tuple_lt_false, tuple_lt_true. }
  assert (Htrans : ∀ a b c,
             tuple_lt b a = false → tuple_lt c b = false → tuple_lt c a = false).
  { intros a b c Hab Hbc. apply tuple_lt_false.
    eapply key_le_trans; by apply tuple_lt_false. }
  assert (Hirr : ∀ a, tuple_lt a a = false).
  { intros a. apply tuple_lt_false. by destruct (key_le_total a a). }
  eexists. split; [apply organize_files_ok|]. split_and!.
  - eapply StronglySorted_weaken; [|apply (sort_by_sorted tuple_lt sort_key); done].
    intros x y Hxy. by apply tuple_lt_false.
  - apply sort_by_perm.
  - intros k. unfold with_key. by apply sort_by_filter.
Qed.

(** ** Strings *)

Section Strings.

Lemma app_String c s t : String c s +:+ t = String c (s +:+ t).
Proof. done. Qed.

Lemma app_empty_l s : "" +:+ s = s.
Proof. done. Qed.

Lemma app_empty_r s : s +:+ "" = s.
Proof. induction s as [|c s IH]; [done|]. by rewrite app_String, IH. Qed.

Lemma app_assoc_s s t u : (s +:+ t) +:+ u = s +:+ t +:+ u.
Proof. induction s as [|c s IH]; [done|]. by rewrite !app_String, IH. Qed.

Lemma length_app_s s t : String.length (s +:+ t) = (String.length s + String.length t)%nat.
Proof. induction s as [|c s IH]; [done|]. rewrite app_String. cbn. by rewrite IH. Qed.

Lemma slice_to_from n s : Py.slice_to n s +:+ Py.slice_from n s = s.
Proof.
  revert s. induction n as [|n IH]; intros [|c s]; cbn; try done.
  by rewrite app_String, IH.
Qed.

Lemma slice_to_app s t : Py.slice_to (String.length s) (s +:+ t) = s.
Proof.
  induction s as [|c s IH]; [by destruct t|].
  rewrite app_String. cbn. by rewrite IH.
Qed.

Lemma slice_from_app s t : Py.slice_from (String.length s) (s +:+ t) = t.
Proof.
  induction s as [|c s IH]; [by destruct t|].
  rewrite app_String. cbn. by rewrite IH.
Qed.

Lemma without_app c s t : without c (s +:+ t) = without c s && without c t.
Proof.
  unfold without. induction s as [|a s IH]; [done|].
  rewrite app_String. cbn. by rewrite IH, andb_assoc.
Qed.

(** [rfind] keeps the last hit: the start value when the character does
    not occur, else the index after which it does not occur again. *)
Lemma rfind_from_spec c s i acc :
  (without c s = true ∧ Py.rfind_from c s i acc = acc)
  ∨ ∃ pre post, s = pre +:+ String c post
                ∧ without c post = true
                ∧ Py.rfind_from c s i acc = i + Z.of_nat (String.length pre).
Proof.
  revert i acc. induction s as [|a s IH]; intros i acc; [by left|].
  cbn [Py.rfind_from].
  destruct (IH (i + 1) (if Ascii.eqb a c then i else acc))
    as [[Hs Hr]|(pre & post & -> & Hpost & Hr)].
  - rewrite Hr. destruct (Ascii.eqb_spec a c) as [->|Hne].
    + right. exists "", s. split_and!; [done|done|cbn; lia].
    + left. split; [|done]. unfold without in *. cbn.
      rewrite Hs. by apply Ascii.eqb_neq in Hne as ->.
  - right. exists (String a pre), post. split_and!; [done|done|].
    rewrite Hr. cbn [String.length]. lia.
Qed.

Lemma rfind_without c s : without c s = true → Py.rfind c s = -1.
Proof.
  intros Hs. unfold Py.rfind.
  destruct (rfind_from_spec c s 0 (-1)) as [[_ Hr]|(pre & post & -> & _ & _)]; [done|].
  rewrite without_app in Hs. apply andb_prop in Hs as [_ Hs].
  unfold without in Hs. cbn in Hs. by rewrite Ascii.eqb_refl in Hs.
Qed.

Lemma rfind_from_app c s t i acc :
  Py.rfind_from c (s +:+ t) i acc
  = Py.rfind_from c t (i + Z.of_nat (String.length s)) (Py.rfind_from c s i acc).
Proof.
  revert i acc. induction s as [|a s IH]; intros i acc.
  - cbn. by rewrite Z.add_0_r.
  - rewrite app_String. cbn [Py.rfind_from String.length]. rewrite IH. f_equal. lia.
Qed.

Lemma rfind_from_without c s i acc :
  without c s = true → Py.rfind_from c s i acc = acc.
Proof.
  intros Hs. destruct (rfind_from_spec c s i acc) as [[_ Hr]|(p & q & -> & _ & _)]; [done|].
  rewrite without_app in Hs. apply andb_prop in Hs as [_ Hq].
  unfold without in Hq. cbn in Hq. by rewrite Ascii.eqb_refl in Hq.
Qed.

Lemma rfind_last c pre post :
  without c post = true →
  Py.rfind c (pre +:+ String c post) = Z.of_nat (String.length pre).
Proof.
  intros Hpost. unfold Py.rfind. rewrite rfind_from_app. cbn [Py.rfind_from].
  rewrite Ascii.eqb_refl, rfind_from_without by done. lia.
Qed.

Lemma lower_app s t : Py.lower (s +:+ t) = Py.lower s +:+ Py.lower t.
Proof. induction s as [|c s IH]; [done|]. rewrite app_String. cbn. by rewrite IH. Qed.

Lemma lower_char_dot c : Py.lower_char c = "."%char → c = "."%char.
Proof.
  destruct c as [[] [] [] [] [] [] [] []]; vm_compute; congruence.
Qed.

Lemma lower_without_dot s : without "." (Py.lower s) = true → without "." s = true.
Proof.
  unfold without. induction s as [|c s IH]; [done|]. cbn.
  intros [Hc Hs]%andb_prop. rewrite IH by done. rewrite andb_true_r.
  apply negb_true_iff. apply negb_true_iff in Hc.
  destruct (Ascii.eqb_spec c ".") as [->|_]; [|done]. done.
Qed.

Lemma rfind_spec c s :
  (without c s = true ∧ Py.rfind c s = -1)
  ∨ ∃ pre post, s = pre +:+ String c post
                ∧ without c post = true
                ∧ Py.rfind c s = Z.of_nat (String.length pre).
Proof.
  unfold Py.rfind.
  destruct (rfind_from_spec c s 0 (-1)) as [?|(pre & post & ? & ? & Hr)]; [by left|].
  right. exists pre, post. by rewrite Hr, Z.add_0_l.
Qed.

(** [splitext] on a name without a separator. *)
Lemma splitext_no_dot name :
  without "/" name = true → without "." name = true → Py.splitext name = (name, "").
Proof.
  intros Hsep Hdot. unfold Py.splitext, Py.sep.
  by rewrite (rfind_without "/" name Hsep), (rfind_without "." name Hdot).
Qed.

Lemma splitext_last_dot pre post :
  without "/" (pre +:+ String "." post) = true → without "." post = true →
  Py.splitext (pre +:+ String "." post)
  = if Py.all_chars (Ascii.eqb ".") pre then (pre +:+ String "." post, "")
    else (pre, String "." post).
Proof.
  intros Hsep Hdot. unfold Py.splitext, Py.sep.
  rewrite (rfind_without "/" _ Hsep), (rfind_last "." pre post Hdot).
  replace (-1 <? Z.of_nat (String.length pre)) with true by (symmetry; apply Z.ltb_lt; lia).
  replace (Z.of_nat (String.length pre) - (-1 + 1)) with (Z.of_nat (String.length pre)) by lia.
  change (Z.to_nat (-1 + 1)) with 0%nat.
  assert (Py.slice_from 0 (pre +:+ String "." post) = pre +:+ String "." post) as ->
    by (by destruct (pre +:+ String "." post)).
  by rewrite Nat2Z.id, slice_to_app, slice_from_app.
Qed.

Lemma valid_extension_without_dot e :
  String "." e ∈ valid_extensions → without "." e = true.
Proof.
  unfold valid_extensions. rewrite !elem_of_cons, elem_of_nil.
  intros [He|[He|[He|[He|[He|[He|[He|[He|[]]]]]]]]]; injection He as ->; reflexivity.
Qed.

(** The extensions of the code are the eight of the vocabulary, each
    behind its dot. *)
Lemma valid_extensions_image_extensions e :
  String "." e ∈ valid_extensions ↔ e ∈ image_extensions.
Proof.
  unfold valid_extensions, image_extensions. rewrite !elem_of_cons, !elem_of_nil. split.
  - intros [He|[He|[He|[He|[He|[He|[He|[He|[]]]]]]]]]; injection He as ->;
      rewrite <- ?or_assoc; auto 10.
  - intros [->|[->|[->|[->|[->|[->|[->|[->|[]]]]]]]]]; rewrite <- ?or_assoc; auto 10.
Qed.

(** What the code takes for an image file is a name with an image
    extension. *)
Lemma is_valid_has_image_extension name :
  without "/" name = true → is_valid name = true ↔ has_image_extension name.
Proof.
  intros Hsep. unfold is_valid. rewrite bool_decide_eq_true. split.
  - destruct (rfind_spec "." name) as [[Hdot _]|(pre & post & Hname & Hpost & _)].
    + rewrite splitext_no_dot by done. cbn. intros Hin.
      by apply (bool_decide_pack _) in Hin.
    + subst name. rewrite splitext_last_dot by done.
      destruct (Py.all_chars (Ascii.eqb ".") pre) eqn:Hdots.
      * cbn. intros Hin. by apply (bool_decide_pack _) in Hin.
      * intros Hin. exists pre, post. split_and!; [done| |done].
        by apply valid_extensions_image_extensions.
  - intros (stem & ext & -> & Hin & Hdots).
    apply valid_extensions_image_extensions in Hin.
    change (stem +:+ "." +:+ ext) with (stem +:+ String "." ext) in *.
    rewrite splitext_last_dot, Hdots; [exact Hin|done|].
    apply lower_without_dot. by apply valid_extension_without_dot.
Qed.

Lemma length_lower s : String.length (Py.lower s) = String.length s.
Proof. induction s as [|c s IH]; [done|]. cbn. by rewrite IH. Qed.

(** [image_name] computes [has_image_extension]. *)
Lemma image_name_has_image_extension name :
  image_name name = true ↔ has_image_extension name.
Proof.
  unfold image_name. rewrite existsb_exists. split.
  - intros (e & He & [Heq Hdots]%andb_prop). apply list_elem_of_In in He.
    apply String.eqb_eq in Heq. apply negb_true_iff in Hdots.
    set (n := (String.length name - S (String.length e))%nat) in *.
    destruct (Py.slice_from n name) as [|c ext] eqn:Hfrom; [done|].
    cbn in Heq. injection Heq as Hc Hext. apply lower_char_dot in Hc as ->.
    exists (Py.slice_to n name), ext. split_and!; [|by rewrite Hext|done].
    change (Py.slice_to n name +:+ "." +:+ ext)
      with (Py.slice_to n name +:+ String "." ext).
    by rewrite <- Hfrom, slice_to_from.
  - intros (stem & ext & -> & Hin & Hdots). exists (Py.lower ext).
    split; [by apply list_elem_of_In|].
    change (stem +:+ "." +:+ ext) with (stem +:+ String "." ext).
    rewrite length_app_s, length_lower. cbn [String.length].
    replace (String.length stem + S (String.length ext) - S (String.length ext))%nat
      with (String.length stem) by lia.
    rewrite slice_from_app, slice_to_app, Hdots.
    change (Py.lower (String "." ext)) with (String "." (Py.lower ext)).
    change ("." +:+ Py.lower ext) with (String "." (Py.lower ext)).
    by rewrite String.eqb_refl.
Qed.

(** On a name without separator the code keeps a file exactly when it is
    an image file. *)
Lemma is_valid_image_name name :
  without "/" name = true → is_valid name = image_name name.
Proof.
  intros Hsep. apply eq_true_iff_eq.
  by rewrite is_valid_has_image_extension, image_name_has_image_extension.
Qed.

(** *** split, strip and replace on a path *)

Lemma split_cons_inv c s : ∃ tok rest, Py.split c s = tok :: rest.
Proof.
  induction s as [|a s (tok & rest & IH)]; [by eexists _, _|].
  cbn. destruct (Ascii.eqb a c); [by eexists _, _|]. rewrite IH. by eexists _, _.
Qed.

Lemma split_without c x : without c x = true → Py.split c x = [x].
Proof.
  unfold without. induction x as [|a x IH]; [done|]. cbn.
  intros [Ha Hx]%andb_prop. apply negb_true_iff in Ha. by rewrite Ha, IH.
Qed.

Lemma split_app_sep c x r :
  without c x = true → Py.split c (x +:+ String c r) = x :: Py.split c r.
Proof.
  unfold without. induction x as [|a x IH].
  - intros _. rewrite app_empty_l. cbn. by rewrite Ascii.eqb_refl.
  - cbn. intros [Ha Hx]%andb_prop. apply negb_true_iff in Ha.
    rewrite app_String. cbn. by rewrite Ha, IH.
Qed.

Lemma slashed_cons x rest : slashed (x :: rest) = String "/" (x +:+ slashed rest).
Proof. done. Qed.

Lemma slashed_app l1 l2 : slashed (l1 ++ l2) = slashed l1 +:+ slashed l2.
Proof.
  induction l1 as [|x l1 IH]; [done|].
  cbn [app]. rewrite !slashed_cons, IH, app_String. by rewrite app_assoc_s.
Qed.

Lemma split_unslashed segs :
  Forall wf_name segs → segs ≠ [] → Py.split "/" (unslashed segs) = segs.
Proof.
  induction 1 as [|x [|y rest] [_ Hx] Hrest IH]; intros Hne; [done|..].
  - cbn. rewrite app_empty_r. by apply split_without.
  - cbn [unslashed]. rewrite slashed_cons, split_app_sep by done.
    f_equal. by apply IH.
Qed.

Lemma ends_with_app c s t : t ≠ "" → ends_with c (s +:+ t) = ends_with c t.
Proof.
  intros Ht. induction s as [|a s IH]; [done|].
  rewrite app_String. cbn [ends_with]. rewrite IH.
  destruct (s +:+ t) eqn:E; [|done]. destruct s, t; done.
Qed.

Lemma without_ends_with c s : without c s = true → ends_with c s = false.
Proof.
  unfold without. induction s as [|a s IH]; [done|]. cbn.
  intros [Ha Hs]%andb_prop. apply negb_true_iff in Ha.
  destruct s; [done|]. by apply IH.
Qed.

Lemma get_last c s a :
  match String.get (String.length s) (String a s) with
  | Some x => Ascii.eqb x c
  | None => false
  end = ends_with c (String a s).
Proof.
  revert a. induction s as [|b s IH]; intros a; [done|].
  change (String.get (String.length (String b s)) (String a (String b s)))
    with (String.get (String.length s) (String b s)).
  by rewrite IH.
Qed.

Lemma endswith_char_ends_with c s : Py.endswith_char c s = ends_with c s.
Proof.
  unfold Py.endswith_char. destruct s as [|a s]; [done|].
  cbn [String.length]. rewrite Nat.sub_succ, Nat.sub_0_r, <- get_last.
  by destruct (String.get _ _).
Qed.

Lemma rstrip_keeps c s : ends_with c s = false → Py.rstrip c s = s.
Proof.
  induction s as [|a s IH]; [done|]. cbn [Py.rstrip ends_with].
  destruct s as [|b s]; [by intros ->|].
  intros Hs. by rewrite IH.
Qed.

Lemma lstrip_keeps c a s : a ≠ c → Py.lstrip c (String a s) = String a s.
Proof. intros Hne. cbn. by apply Ascii.eqb_neq in Hne as ->. Qed.

Lemma wf_name_head n : wf_name n → ∃ a n', n = String a n' ∧ a ≠ "/"%char.
Proof.
  intros [Hne Hw]. destruct n as [|a n']; [done|]. exists a, n'. split; [done|].
  unfold without in Hw. cbn in Hw. apply andb_prop in Hw as [Ha _].
  apply negb_true_iff in Ha. by apply Ascii.eqb_neq.
Qed.

Lemma unslashed_ends segs :
  Forall wf_name segs → segs ≠ [] → ends_with "/" (unslashed segs) = false.
Proof.
  induction 1 as [|x [|y rest] Hx Hrest IH]; intros Hne; [done|..].
  - cbn. rewrite app_empty_r. apply without_ends_with, Hx.
  - cbn [unslashed]. rewrite slashed_cons, ends_with_app by done.
    change (String "/" (y +:+ slashed rest)) with (String "/" (unslashed (y :: rest))).
    pose proof (IH ltac:(done)) as Hy. cbn [ends_with].
    destruct (unslashed (y :: rest)) eqn:E; [|done].
    apply Forall_cons in Hrest as [Hy' _].
    destruct (wf_name_head y Hy') as (a & n' & -> & _). done.
Qed.

(** Stripping the separators of [/a/b/c] and splitting gives back the
    segments. *)
Lemma split_strip_slashed segs :
  Forall wf_name segs → segs ≠ [] →
  Py.split Py.sep (Py.strip Py.sep (slashed segs)) = segs.
Proof.
  intros Hwf Hne. destruct segs as [|x rest]; [done|].
  rewrite slashed_cons. change (x +:+ slashed rest) with (unslashed (x :: rest)).
  unfold Py.strip, Py.sep. cbn [Py.lstrip]. rewrite Ascii.eqb_refl.
  pose proof (Forall_inv Hwf) as Hx.
  destruct (wf_name_head x Hx) as (a & n' & Heq & Ha).
  assert (∃ t, unslashed (x :: rest) = String a t) as [t Ht].
  { cbn. rewrite Heq, app_String. by eexists. }
  rewrite Ht, lstrip_keeps by done. rewrite <- Ht.
  rewrite rstrip_keeps by (by apply unslashed_ends).
  by apply split_unslashed.
Qed.

Lemma prefix_app old rest : String.prefix old (old +:+ rest) = true.
Proof.
  induction old as [|c old IH]; [by destruct rest|].
  rewrite app_String. cbn. by destruct (ascii_dec c c).
Qed.

Lemma replace_go_skip old new pre s :
  Py.replace_go old new (String.length pre) (pre +:+ s) = Py.replace_go old new 0 s.
Proof.
  induction pre as [|c pre IH]; [done|].
  rewrite app_String. cbn [String.length Py.replace_go]. exact IH.
Qed.

Lemma replace_go_absent old s :
  occurs old s = false → Py.replace_go old "" 0 s = s.
Proof.
  induction s as [|c s IH]; [done|]. cbn [occurs Py.replace_go].
  intros [Hp Ho]%orb_false_elim. rewrite Hp. by rewrite IH.
Qed.

(** Deleting a scratch path that occurs only in front leaves the rest. *)
Lemma replace_prefix old rest :
  old ≠ "" → occurs old rest = false → Py.replace (old +:+ rest) old "" = rest.
Proof.
  intros Hne Hocc. destruct old as [|c old]; [done|]. unfold Py.replace.
  rewrite app_String. cbn [Py.replace_go].
  rewrite <- (app_String c old rest), prefix_app, app_empty_l.
  cbn [String.length]. rewrite Nat.sub_succ, Nat.sub_0_r, replace_go_skip.
  by apply replace_go_absent.
Qed.

Lemma path_parts_relative temp_dir segs :
  temp_dir ≠ "" → occurs temp_dir (slashed segs) = false →
  Forall wf_name segs → segs ≠ [] →
  path_parts temp_dir (temp_dir +:+ slashed segs) = segs.
Proof.
  intros Hne Hocc Hwf Hsegs. unfold path_parts.
  rewrite replace_prefix by done. by apply split_strip_slashed.
Qed.

(** *** The date in the name of the archive *)

Lemma date_match_here_spec s y m : date_match_here s = Some (y, m) ↔ date_at s y m.
Proof.
  split.
  - destruct s as [|y1 [|y2 [|y3 [|y4 [|c [|m1 [|m2 rest]]]]]]]; try done.
    cbn [date_match_here].
    destruct (Py.is_decimal y1) eqn:H1; [|done]. destruct (Py.is_decimal y2) eqn:H2; [|done].
    destruct (Py.is_decimal y3) eqn:H3; [|done]. destruct (Py.is_decimal y4) eqn:H4; [|done].
    destruct (Ascii.eqb c " " || Ascii.eqb c "_") eqn:Hc; [|done].
    destruct (Py.is_decimal m1) eqn:H5; [|done]. destruct (Py.is_decimal m2) eqn:H6; [|done].
    cbn [andb]. intros [= <- <-]. exists c, rest. split_and!; try done.
    + cbn. by rewrite H1, H2, H3, H4.
    + apply orb_prop in Hc as [Hc|Hc]; apply Ascii.eqb_eq in Hc; auto.
    + cbn. by rewrite H5, H6.
  - intros (c & rest & -> & Hy & Hyd & Hc & Hm & Hmd).
    destruct y as [|y1 [|y2 [|y3 [|y4 [|]]]]]; try done.
    destruct m as [|m1 [|m2 [|]]]; try done.
    rewrite !app_String, !app_empty_l. cbn in Hyd, Hmd.
    apply andb_prop in Hyd as [H1 Hyd]. apply andb_prop in Hyd as [H2 Hyd].
    apply andb_prop in Hyd as [H3 Hyd]. apply andb_prop in Hyd as [H4 _].
    apply andb_prop in Hmd as [H5 Hmd]. apply andb_prop in Hmd as [H6 _].
    cbn [date_match_here]. rewrite H1, H2, H3, H4, H5, H6.
    by destruct Hc as [-> | ->].
Qed.

Lemma regex_date_search_unfold s :
  regex_date_search s
  = match date_match_here s with
    | Some groups => Some groups
    | None =>
        match s with
        | "" => None
        | String _ s' => regex_date_search s'
        end
    end.
Proof. by destruct s. Qed.

(** [search] answers the leftmost position that starts with a date. *)
Lemma regex_date_search_first s :
  match regex_date_search s with
  | Some (y, m) =>
      ∃ pre post,
        s = pre +:+ post ∧ date_at post y m
        ∧ ∀ pre' post' y' m',
            s = pre' +:+ post' → (String.length pre' < String.length pre)%nat →
            ¬ date_at post' y' m'
  | None => ∀ pre post y m, s = pre +:+ post → ¬ date_at post y m
  end.
Proof.
  induction s as [|c s IH]; rewrite regex_date_search_unfold.
  - cbn. intros pre post y m Hs Hd. destruct pre, post; try done.
    by apply date_match_here_spec in Hd.
  - destruct (date_match_here (String c s)) as [[y m]|] eqn:Hhere.
    + exists "", (String c s). split_and!; [done|by apply date_match_here_spec|].
      intros pre' post' y' m' _ Hlt. cbn in Hlt. lia.
    + assert (Hnot : ∀ y m, ¬ date_at (String c s) y m).
      { intros y m Hd%date_match_here_spec. congruence. }
      destruct (regex_date_search s) as [[y m]|].
      * destruct IH as (pre & post & -> & Hd & Hfirst).
        exists (String c pre), post. split_and!; [done|done|].
        intros pre' post' y' m' Hs Hlt. destruct pre' as [|c' pre'].
        -- rewrite app_empty_l in Hs. subst post'. apply Hnot.
        -- rewrite !app_String in Hs. injection Hs as <- Hs.
           apply (Hfirst pre' post' y' m' Hs). cbn in Hlt. lia.
      * intros pre post y m Hs. destruct pre as [|c' pre].
        -- rewrite app_empty_l in Hs. subst post. apply Hnot.
        -- rewrite app_String in Hs. injection Hs as <- Hs. by apply (IH pre post y m).
Qed.

End Strings.

(** ** The walk reaches every file once *)

Section Walk.

(** Induction on the tree, with the hypothesis for every child. *)
Lemma entry_ind_children (P : entry → Prop) :
  (∀ n, P (File n)) →
  (∀ n children, Forall P children → P (Dir n children)) →
  ∀ e, P e.
Proof.
  intros Hfile Hdir. fix IH 1. intros [n|n children]; [apply Hfile|].
  apply Hdir. induction children as [|c cs IHcs]; constructor; [apply IH|exact IHcs].
Qed.

Lemma walk_pairs_app l1 l2 : walk_pairs (l1 ++ l2) = walk_pairs l1 ++ walk_pairs l2.
Proof. unfold walk_pairs. by rewrite map_app, concat_app. Qed.

Lemma walk_pairs_concat ls :
  walk_pairs (concat ls) = concat (map walk_pairs ls).
Proof.
  induction ls as [|l ls IH]; [done|].
  cbn [concat map]. by rewrite walk_pairs_app, IH.
Qed.

Lemma walk_pairs_cons root files l :
  walk_pairs ((root, files) :: l) = map (pair root) files ++ walk_pairs l.
Proof. done. Qed.

(** The files of a directory and then the files under its
    sub-directories are, in some order, the files under its entries. *)
Lemma children_files q (cs : list entry) :
  map (pair q) (omap file_name cs) ++ concat (map (reached q) cs)
  ≡ₚ concat (map (files_under q) cs).
Proof.
  induction cs as [|c cs IH]; [done|]. destruct c as [m|m sub].
  - change (omap file_name (File m :: cs)) with (m :: omap file_name cs).
    cbn [map concat reached files_under app]. by rewrite IH.
  - change (omap file_name (Dir m sub :: cs)) with (omap file_name cs).
    cbn [map concat reached]. rewrite <- IH.
    rewrite !(assoc_L (++)). f_equiv. apply Permutation_app_comm.
Qed.

Lemma walk_children q (cs : list entry) :
  Forall (λ c, ∀ dir, walk_pairs (walk (Py.join dir (entry_name c)) c) ≡ₚ reached dir c) cs →
  walk_pairs (concat (map (λ c, walk (Py.join q (entry_name c)) c) cs))
  ≡ₚ concat (map (reached q) cs).
Proof.
  induction 1 as [|c cs Hc Hcs IH]; [done|].
  cbn [map concat]. by rewrite walk_pairs_app, Hc, IH.
Qed.

(** A sub-directory at [dir/name] yields, in some order, the files
    under it. *)
Lemma walk_reached e dir :
  walk_pairs (walk (Py.join dir (entry_name e)) e) ≡ₚ reached dir e.
Proof.
  revert dir. induction e as [n|n children IH] using entry_ind_children; intros dir; [done|].
  cbn [walk entry_name reached files_under].
  rewrite walk_pairs_cons, walk_children by done.
  apply children_files.
Qed.

Lemma os_walk_tree_files top tree :
  walk_pairs (os_walk top tree) ≡ₚ tree_files top tree.
Proof.
  unfold os_walk, tree_files. cbn [walk].
  rewrite walk_pairs_cons, walk_children.
  - apply children_files.
  - apply Forall_forall. intros c _ dir. apply walk_reached.
Qed.

Lemma kept_files_filter top tree :
  kept_files top tree
  = filter (λ p, is_valid p.2 = true) (walk_pairs (os_walk top tree)).
Proof.
  unfold kept_files, walk_pairs. induction (os_walk top tree) as [|[root files] l IH]; [done|].
  cbn [map concat]. rewrite filter_app, IH. f_equal.
  clear. induction files as [|f fs IH]; [done|].
  cbn [map]. rewrite !filter_cons. cbn [snd].
  destruct (decide (is_valid f = true)); cbn [map]; by rewrite IH.
Qed.

Lemma kept_files_valid_files top tree : kept_files top tree ≡ₚ valid_files top tree.
Proof.
  rewrite kept_files_filter. unfold valid_files. by rewrite os_walk_tree_files.
Qed.

End Walk.

Lemma valid_files_image_files top tree :
  plain_file_names top tree → valid_files top tree = image_files top tree.
Proof.
  unfold plain_file_names, valid_files, image_files.
  induction (tree_files top tree) as [|p l IH]; [done|].
  intros [Hp Hl]%Forall_cons. rewrite !filter_cons, IH by done.
  rewrite (is_valid_image_name p.2 Hp). by destruct (decide _).
Qed.

(** C4. The catalog builder never raises. When no file of the scratch
    directory has a separator in its name, the catalog has exactly one
    item for each regular file, at any depth, whose name ends in a dot
    and one of jpg, jpeg, png, bmp, gif, webp, tif, tiff in any case
    (with something other than dots before the dot): the items name, in
    some order, those files by path and name. Other files leave no
    trace, and without such a file the catalog is empty. On a name
    without separator, the test of the code is that of the eight
    extensions. *)
Theorem organize_files_one_item_per_image (zip_path temp_dir : string)
    (tree : list entry) :
  ∃ l,
    organize_files zip_path temp_dir tree = Py.Ok l
    ∧ (plain_file_names temp_dir tree →
         (λ x, (file_path x, filename x)) <$> l
         ≡ₚ (λ p, (Py.join p.1 p.2, p.2)) <$> image_files temp_dir tree
         ∧ length l = length (image_files temp_dir tree)
         ∧ (image_files temp_dir tree = [] → l = []))
    ∧ (∀ name, Py.all_chars (λ a, negb (Ascii.eqb a "/")) name = true →
         (is_valid name = true ↔ has_image_extension name)
         ∧ (image_name name = true ↔ has_image_extension name)).
Proof.
  eexists. split; [apply organize_files_ok|]. split.
  - intros Hnames.
    assert (Hperm : (λ x, (file_path x, filename x))
                      <$> sort_by tuple_lt sort_key (unsorted_items zip_path temp_dir tree)
                    ≡ₚ (λ p, (Py.join p.1 p.2, p.2)) <$> image_files temp_dir tree).
    { rewrite sort_by_perm. unfold unsorted_items. rewrite <- list_fmap_compose.
      rewrite kept_files_valid_files, valid_files_image_files by done.
      erewrite list_fmap_ext; [reflexivity|]. by intros i [root file] _. }
    split_and!.
    + exact Hperm.
    + apply Permutation_length in Hperm. by rewrite !length_fmap in Hperm.
    + intros Hnone. rewrite Hnone in Hperm. apply Permutation_nil_r in Hperm.
      by apply fmap_nil_inv in Hperm.
  - intros name Hsep. split.
    + by apply is_valid_has_image_extension.
    + apply image_name_has_image_extension.
Qed.

(** ** The fields of an item, when the scratch path occurs only in front *)

Section RelativePath.

Lemma elem_of_concat_map {A B} (f : A → list B) (l : list A) (x : B) :
  x ∈ concat (map f l) ↔ ∃ y, y ∈ l ∧ x ∈ f y.
Proof.
  induction l as [|a l IH]; cbn [map concat].
  - rewrite elem_of_nil. split; [done|]. intros (y & Hy & _). by apply elem_of_nil in Hy.
  - rewrite elem_of_app, IH. split.
    + intros [Hx|(y & Hy & Hx)]; [exists a|exists y]; split; try done; by constructor.
    + intros (y & [->|Hy]%elem_of_cons & Hx); [by left|right; by exists y].
Qed.

(** The segments of a file under an entry start with the segments above
    the entry and end with the name of the file. *)
Lemma segments_under_shape e :
  ∀ dir above d n segs,
    (d, n, segs) ∈ segments_under dir above e → ∃ mid, segs = above ++ mid ++ [n].
Proof.
  induction e as [m|m cs IH] using entry_ind_children; intros dir above d n segs Hin.
  - cbn in Hin. apply list_elem_of_singleton in Hin. injection Hin as -> -> ->.
    by exists [].
  - cbn [segments_under] in Hin. apply elem_of_concat_map in Hin as (c & Hc & Hin).
    rewrite Forall_forall in IH. destruct (IH c Hc _ _ _ _ _ Hin) as [mid ->].
    exists (m :: mid). by rewrite <- app_assoc.
Qed.

Lemma join_plain dir n :
  dir ≠ "" → ends_with "/" dir = false → wf_name n →
  Py.join dir n = dir +:+ "/" +:+ n.
Proof.
  intros Hdir Hend Hn. unfold Py.join, Py.sep.
  destruct (wf_name_head n Hn) as (a & n' & -> & Ha).
  assert (String.prefix "/" (String a n') = false) as ->.
  { change (String.prefix "/" (String a n'))
      with (if ascii_dec "/" a then String.prefix "" n' else false).
    destruct (ascii_dec "/" a) as [Heq|]; [|done]. by destruct Ha. }
  rewrite endswith_char_ends_with, Hend, orb_false_r.
  by apply String.eqb_neq in Hdir as ->.
Qed.

Lemma join_plain_props dir n :
  dir ≠ "" → wf_name n →
  dir +:+ "/" +:+ n ≠ "" ∧ ends_with "/" (dir +:+ "/" +:+ n) = false.
Proof.
  intros Hdir Hn. destruct (wf_name_head n Hn) as (a & n' & -> & Ha). split.
  - by destruct dir.
  - rewrite ends_with_app by done.
    change (ends_with "/" ("/" +:+ String a n')) with (ends_with "/" (String a n')).
    apply without_ends_with, Hn.
Qed.

(** The path of a file is the scratch path and then its segments. *)
Lemma segments_under_path temp_dir e :
  ∀ dir above d n segs,
    (d, n, segs) ∈ segments_under dir above e →
    Forall wf_name segs →
    dir = temp_dir +:+ slashed above → dir ≠ "" → ends_with "/" dir = false →
    Py.join d n = temp_dir +:+ slashed segs.
Proof.
  induction e as [m|m cs IH] using entry_ind_children;
    intros dir above d n segs Hin Hwf Hdir Hne Hend.
  - cbn in Hin. apply list_elem_of_singleton in Hin. injection Hin as -> -> ->.
    assert (Hm : wf_name m).
    { rewrite Forall_forall in Hwf. apply Hwf. apply elem_of_app. right. by left. }
    rewrite join_plain by done. rewrite Hdir, slashed_app, app_assoc_s.
    cbn. by rewrite app_empty_r.
  - cbn [segments_under] in Hin. apply elem_of_concat_map in Hin as (c & Hc & Hin).
    destruct (segments_under_shape c _ _ _ _ _ Hin) as [mid Hsegs].
    assert (Hm : wf_name m).
    { rewrite Forall_forall in Hwf. apply Hwf. rewrite Hsegs.
      apply elem_of_app. left. apply elem_of_app. right. by left. }
    rewrite Forall_forall in IH.
    rewrite join_plain in Hin by done.
    destruct (join_plain_props dir m Hne Hm) as [Hne' Hend'].
    apply (IH c Hc _ _ _ _ _ Hin Hwf); [|done|done].
    rewrite Hdir, slashed_app, app_assoc_s. cbn. by rewrite app_empty_r.
Qed.

Lemma files_under_segments e :
  ∀ dir above d n,
    (d, n) ∈ files_under dir e → ∃ segs, (d, n, segs) ∈ segments_under dir above e.
Proof.
  induction e as [m|m cs IH] using entry_ind_children; intros dir above d n Hin.
  - cbn in Hin. apply list_elem_of_singleton in Hin. injection Hin as -> ->.
    eexists. cbn. by left.
  - cbn [files_under] in Hin. apply elem_of_concat_map in Hin as (c & Hc & Hin).
    rewrite Forall_forall in IH.
    destruct (IH c Hc _ (above ++ [m]) _ _ Hin) as [segs Hsegs].
    exists segs. cbn [segments_under]. apply elem_of_concat_map. by exists c.
Qed.

Lemma tree_files_relative_paths top tree d n :
  (d, n) ∈ tree_files top tree → ∃ segs, (d, n, segs) ∈ relative_paths top tree.
Proof.
  unfold tree_files, relative_paths. intros (c & Hc & Hin)%elem_of_concat_map.
  destruct (files_under_segments c top [] d n Hin) as [segs Hsegs].
  exists segs. apply elem_of_concat_map. by exists c.
Qed.

End RelativePath.

(** Where the scratch path is not empty, does not end in a separator
    and does not occur again behind itself in the path of a file, every
    item of the catalog is the item of a file of the scratch directory,
    built from the segments of its relative path. *)
Lemma organize_files_fields_of_relative_path (zip_path temp_dir : string)
    (tree : list entry) :
  temp_dir ≠ "" → Py.endswith_char Py.sep temp_dir = false →
  (∀ d n segs, (d, n, segs) ∈ relative_paths temp_dir tree →
     Forall wf_name segs ∧ occurs temp_dir (slashed segs) = false) →
  ∃ l,
    organize_files zip_path temp_dir tree = Py.Ok l
    ∧ ∀ item, item ∈ l →
        ∃ d n segs,
          (d, n, segs) ∈ relative_paths temp_dir tree
          ∧ item = item_of (archive_date zip_path).1 (archive_date zip_path).2
                           (temp_dir +:+ slashed segs) n segs.
Proof.
  intros Hne Hend Htree. eexists. split; [apply organize_files_ok|].
  intros item Hitem. rewrite sort_by_perm in Hitem. unfold unsorted_items in Hitem.
  apply list_elem_of_fmap in Hitem as ([root file] & -> & Hkept).
  rewrite kept_files_valid_files in Hkept. unfold valid_files in Hkept.
  apply list_elem_of_filter in Hkept as [_ Hfile].
  destruct (tree_files_relative_paths _ _ _ _ Hfile) as [segs Hsegs].
  destruct (Htree _ _ _ Hsegs) as [Hwf Hocc].
  exists root, file, segs. split; [done|].
  assert (Hpath : Py.join root file = temp_dir +:+ slashed segs).
  { unfold relative_paths in Hsegs. apply elem_of_concat_map in Hsegs as (c & Hc & Hin).
    apply (segments_under_path temp_dir c temp_dir [] root file segs); try done.
    - cbn. by rewrite app_empty_r.
    - by rewrite <- endswith_char_ends_with. }
  rewrite Hpath, path_parts_relative; try done.
  unfold relative_paths in Hsegs. apply elem_of_concat_map in Hsegs as (c & Hc & Hin).
  destruct (segments_under_shape c _ _ _ _ _ Hin) as [mid ->]. by destruct mid.
Qed.

(** ** The percent of the progress events

    [int(((i + 1) / total) * 100)] through the specification of binary64
    in [SpecFloat]: the conversions are exact below [2 ^ 53], rounding
    does not pass a number of the format, so the quotient is at most
    one and the product at most [100.0]. *)

Section FloatRange.

Lemma digits2_pos_bounds (m : positive) :
  2 ^ (Z.pos (digits2_pos m) - 1) ≤ Z.pos m < 2 ^ Z.pos (digits2_pos m).
Proof.
  induction m as [m IH|m IH|]; cbn [digits2_pos].
  - rewrite Pos2Z.inj_succ, (Pos2Z.inj_xI m).
    replace (Z.succ (Z.pos (digits2_pos m)) - 1) with (Z.succ (Z.pos (digits2_pos m) - 1)) by lia.
    rewrite !Z.pow_succ_r by lia. lia.
  - rewrite Pos2Z.inj_succ, (Pos2Z.inj_xO m).
    replace (Z.succ (Z.pos (digits2_pos m)) - 1) with (Z.succ (Z.pos (digits2_pos m) - 1)) by lia.
    rewrite !Z.pow_succ_r by lia. lia.
  - cbn. lia.
Qed.

Lemma Zdigits2_nonneg m : 0 ≤ Zdigits2 m.
Proof. destruct m; cbn; lia. Qed.

Lemma Zdigits2_lt m k : 0 ≤ m < 2 ^ k → 0 ≤ k → Zdigits2 m ≤ k.
Proof.
  intros [H0 Hlt] Hk. destruct m as [|p|p]; cbn; [lia| |lia].
  pose proof (digits2_pos_bounds p) as [Hlo _].
  assert (2 ^ (Z.pos (digits2_pos p) - 1) < 2 ^ k) as Hpow by lia.
  apply Z.pow_lt_mono_r_iff in Hpow; lia.
Qed.

Lemma Zdigits2_upper m : 0 ≤ m → m < 2 ^ Zdigits2 m.
Proof.
  intros H0. destruct m as [|p|p]; cbn; [lia| |lia].
  apply digits2_pos_bounds.
Qed.

Lemma iter_pos_nat {A} (f : A → A) p x : SpecFloat.iter_pos f p x = Nat.iter (Pos.to_nat p) f x.
Proof.
  revert x. induction p as [p IH|p IH|]; intros x; cbn [SpecFloat.iter_pos].
  - rewrite !IH, Pos2Nat.inj_xI. cbn [Nat.mul]. rewrite Nat.add_0_r.
    rewrite <- Nat.iter_add, <- Nat.iter_succ_r. reflexivity.
  - rewrite !IH, Pos2Nat.inj_xO. cbn [Nat.mul]. rewrite Nat.add_0_r.
    by rewrite <- Nat.iter_add.
  - reflexivity.
Qed.

Lemma shr_1_spec mrs :
  0 ≤ shr_m mrs →
  shr_m (shr_1 mrs) = shr_m mrs / 2
  ∧ shr_r (shr_1 mrs) = Z.odd (shr_m mrs)
  ∧ shr_s (shr_1 mrs) = shr_r mrs || shr_s mrs.
Proof.
  destruct mrs as [m r s]. cbn [shr_m shr_r shr_s]. intros Hm.
  rewrite <- Z.div2_div. destruct m as [|[p|p|]|p]; try lia; by cbn.
Qed.

Lemma shr_nat k m r s :
  0 ≤ m →
  shr_m (Nat.iter k shr_1 (Build_shr_record m r s)) = m / 2 ^ Z.of_nat k
  ∧ (r = false → s = false → m mod 2 ^ Z.of_nat k = 0 →
     shr_r (Nat.iter k shr_1 (Build_shr_record m r s)) = false
     ∧ shr_s (Nat.iter k shr_1 (Build_shr_record m r s)) = false).
Proof.
  intros Hm. induction k as [|k [IHm IHe]].
  - cbn. rewrite Z.div_1_r. by split.
  - rewrite !Nat.iter_succ. set (mrs := Nat.iter k shr_1 _) in *.
    assert (0 ≤ shr_m mrs) as Hpos.
    { rewrite IHm. apply Z.div_pos; lia. }
    destruct (shr_1_spec mrs Hpos) as (H1 & H2 & H3).
    rewrite H1, H2, H3, IHm. rewrite Nat2Z.inj_succ, Z.pow_succ_r by lia.
    split.
    + rewrite Z.div_div by lia. f_equal. lia.
    + intros -> -> Hmod.
      assert (m mod 2 ^ Z.of_nat k = 0) as Hmodk.
      { apply Z.mod_divide in Hmod; [|lia]. apply Z.mod_divide; [lia|].
        destruct Hmod as [q ->]. exists (q * 2). lia. }
      destruct (IHe eq_refl eq_refl Hmodk) as [-> ->]. split; [|done].
      apply Z.mod_divide in Hmod; [|lia]. destruct Hmod as [q ->].
      replace (q * (2 * 2 ^ Z.of_nat k)) with ((q * 2) * 2 ^ Z.of_nat k) by lia.
      rewrite Z.div_mul by lia. rewrite Z.odd_mul. cbn. apply andb_false_r.
Qed.


Lemma fexp_eq e : fexp prec emax e = Z.max (e - 53) (-1074).
Proof. reflexivity. Qed.

Lemma shr_record_of_loc_m m l : shr_m (shr_record_of_loc m l) = m.
Proof. by destruct l as [|[]]. Qed.

Lemma shr_fexp_spec m e l :
  0 ≤ m →
  ∃ mrs,
    shr_fexp prec emax m e l
    = (mrs, e + Z.max 0 (fexp prec emax (Zdigits2 m + e) - e))
    ∧ shr_m mrs = m / 2 ^ Z.max 0 (fexp prec emax (Zdigits2 m + e) - e)
    ∧ (l = loc_Exact →
       m mod 2 ^ Z.max 0 (fexp prec emax (Zdigits2 m + e) - e) = 0 →
       loc_of_shr_record mrs = loc_Exact).
Proof.
  intros Hm. unfold shr_fexp, shr.
  destruct (fexp prec emax (Zdigits2 m + e) - e) as [|p|p] eqn:Hn.
  - eexists. split; [by rewrite Z.add_0_r|]. cbn [Z.max Z.compare].
    rewrite Z.pow_0_r, Z.div_1_r, shr_record_of_loc_m. split; [done|].
    by intros -> _.
  - rewrite iter_pos_nat. eexists. split; [reflexivity|].
    rewrite Z.max_r by lia. rewrite <- (positive_nat_Z p).
    destruct l as [|c].
    + cbn [shr_record_of_loc].
      destruct (shr_nat (Pos.to_nat p) m false false Hm) as [H1 H2].
      split; [done|]. intros _ Hmod. destruct (H2 eq_refl eq_refl Hmod) as [Hr Hs].
      destruct (Nat.iter _ _ _) as [m' r' s']. cbn in Hr, Hs. by subst.
    + split; [|done].
      destruct c; cbn [shr_record_of_loc]; apply shr_nat; done.
  - eexists. split; [by rewrite Z.max_l, Z.add_0_r by lia|]. rewrite Z.max_l by lia.
    rewrite Z.pow_0_r, Z.div_1_r, shr_record_of_loc_m. split; [done|].
    by intros -> _.
Qed.

Lemma round_nearest_even_bounds m l :
  m ≤ round_nearest_even m l ≤ m + 1
  ∧ (l = loc_Exact → round_nearest_even m l = m).
Proof. destruct l as [|[]]; cbn; try destruct (Z.even m); split; (lia || done). Qed.

(** Rounding a non-negative number that is at most [b * 2 ^ e1], where
    [e1] is the exponent the rounding settles on, gives at most that. *)
Lemma binary_round_aux_upper mx ex lx b :
  0 ≤ mx →
  mx ≤ b * 2 ^ Z.max 0 (fexp prec emax (Zdigits2 mx + ex) - ex) →
  (mx = b * 2 ^ Z.max 0 (fexp prec emax (Zdigits2 mx + ex) - ex) → lx = loc_Exact) →
  ex + Z.max 0 (fexp prec emax (Zdigits2 mx + ex) - ex) + 1 ≤ 971 →
  match binary_round_aux prec emax false mx ex lx with
  | S754_zero s => s = false
  | S754_finite s m e =>
      s = false
      ∧ 0 ≤ e - (ex + Z.max 0 (fexp prec emax (Zdigits2 mx + ex) - ex)) ≤ 1
      ∧ Z.pos m * 2 ^ (e - (ex + Z.max 0 (fexp prec emax (Zdigits2 mx + ex) - ex))) ≤ b
  | _ => False
  end.
Proof.
  intros Hmx Hle Heq Hfin. unfold binary_round_aux.
  destruct (shr_fexp_spec mx ex lx Hmx) as (mrs & -> & Hq & Hexact).
  set (n := Z.max 0 (fexp prec emax (Zdigits2 mx + ex) - ex)) in *.
  assert (0 ≤ n) as Hn by (unfold n; lia).
  assert (0 < 2 ^ n) as Hpow by (apply Z.pow_pos_nonneg; lia).
  set (mq := shr_m mrs) in *.
  assert (0 ≤ mq) as Hmq0 by (rewrite Hq; apply Z.div_pos; lia).
  assert (mq ≤ b) as Hmqb.
  { rewrite Hq. apply Z.div_le_upper_bound; lia. }
  assert (mq < 2 ^ 53) as Hmq53.
  { rewrite Hq. apply Z.div_lt_upper_bound; [done|].
    pose proof (Zdigits2_upper mx Hmx) as Hd.
    pose proof (Zdigits2_nonneg mx) as Hd0.
    assert (Zdigits2 mx ≤ n + 53) as Hdn.
    { unfold n. rewrite fexp_eq. lia. }
    rewrite <- Z.pow_add_r by lia.
    eapply Z.lt_le_trans; [exact Hd|]. apply Z.pow_le_mono_r; lia. }
  destruct (round_nearest_even_bounds mq (loc_of_shr_record mrs)) as [Hm1 Hm1e].
  set (m1 := round_nearest_even mq (loc_of_shr_record mrs)) in *.
  assert (m1 ≤ b) as Hm1b.
  { destruct (decide (mq = b)) as [Hb|Hb]; [|lia].
    assert (mx = b * 2 ^ n) as Hmxb.
    { pose proof (Z.mul_div_le mx (2 ^ n) Hpow) as Hlow. rewrite <- Hq in Hlow.
      fold mq in Hlow. rewrite Hb in Hlow. lia. }
    rewrite Hm1e; [lia|]. apply Hexact; [by apply Heq|].
    rewrite Hmxb. apply Z_mod_mult. }
  assert (0 ≤ m1) as Hm10 by lia.
  destruct (shr_fexp_spec m1 (ex + n) loc_Exact Hm10) as (mrs2 & -> & Hq2 & _).
  set (n2 := Z.max 0 (fexp prec emax (Zdigits2 m1 + (ex + n)) - (ex + n))) in *.
  assert (0 ≤ n2 ≤ 1) as Hn2.
  { split; [unfold n2; lia|].
    assert (Zdigits2 m1 ≤ 54) as Hd by (apply Zdigits2_lt; lia).
    assert (-1074 ≤ ex + n) as Hlow.
    { unfold n. rewrite fexp_eq. lia. }
    unfold n2. rewrite fexp_eq. lia. }
  assert (0 < 2 ^ n2) as Hpow2 by (apply Z.pow_pos_nonneg; lia).
  assert (0 ≤ shr_m mrs2) as H2pos by (rewrite Hq2; apply Z.div_pos; lia).
  destruct (shr_m mrs2) as [|m|m] eqn:Hm2; [done| |lia].
  change (emax - prec) with 971.
  destruct (Z.leb_spec (ex + n + n2) 971) as [_|Hbad]; [|lia].
  split; [done|]. replace (ex + n + n2 - (ex + n)) with n2 by lia.
  split; [lia|]. rewrite Hq2.
  pose proof (Z.mul_div_le m1 (2 ^ n2) Hpow2). lia.
Qed.


Lemma pos_iter_xO m k :
  Z.pos (Pos.iter xO m k) = Z.pos m * 2 ^ Z.pos k
  ∧ Z.pos (digits2_pos (Pos.iter xO m k)) = Z.pos (digits2_pos m) + Z.pos k.
Proof.
  induction k as [|k [IH1 IH2]] using Pos.peano_ind.
  - cbn [Pos.iter digits2_pos]. rewrite (Pos2Z.inj_xO m), Pos2Z.inj_succ. lia.
  - rewrite Pos.iter_succ. cbn [digits2_pos].
    rewrite (Pos2Z.inj_xO (Pos.iter xO m k)), !Pos2Z.inj_succ, IH1, IH2.
    rewrite Z.pow_succ_r by lia. lia.
Qed.

(** A mantissa of 53 digits is kept as it is. *)
Lemma binary_round_aux_exact m e :
  Z.pos (digits2_pos m) = 53 → -1074 ≤ e ≤ 971 →
  binary_round_aux prec emax false (Z.pos m) e loc_Exact = S754_finite false m e.
Proof.
  intros Hd He. unfold binary_round_aux.
  assert (Hsh : shr_fexp prec emax (Z.pos m) e loc_Exact
                = ({| shr_m := Z.pos m; shr_r := false; shr_s := false |}, e)).
  { unfold shr_fexp. cbn [Zdigits2]. rewrite Hd, fexp_eq.
    replace (Z.max (53 + e - 53) (-1074) - e) with 0 by lia. reflexivity. }
  rewrite Hsh. cbn [shr_m loc_of_shr_record round_nearest_even]. rewrite Hsh.
  cbn [shr_m]. change (emax - prec) with 971.
  destruct (Z.leb_spec e 971); [done|lia].
Qed.

(** [float(c)] is exact for a positive [c] below [2 ^ 53]: the mantissa
    has 53 digits. *)
Lemma float_of_int_spec c :
  0 < c < 2 ^ 53 →
  ∃ m e,
    Prim2SF (Py.float_of_int c) = S754_finite false m e
    ∧ Z.pos (digits2_pos m) = 53
    ∧ -52 ≤ e ≤ 0
    ∧ Z.pos m = c * 2 ^ (- e).
Proof.
  intros Hc. unfold Py.float_of_int. rewrite of_uint63_spec, Uint63.of_Z_spec.
  rewrite Z.mod_small by (change wB with (2 ^ 63); lia).
  destruct c as [|p|p]; [lia| |lia]. cbn [binary_normalize]. unfold binary_round.
  pose proof (Zdigits2_lt (Z.pos p) 53 ltac:(lia) ltac:(lia)) as Hd. cbn [Zdigits2] in Hd.
  rewrite fexp_eq, Z.add_0_r. rewrite Z.max_l by lia.
  unfold shl_align.
  destruct (Z.pos (digits2_pos p) - 53 - 0) as [|k|k] eqn:Hk; [|lia|].
  - exists p, 0. rewrite binary_round_aux_exact by lia.
    split_and!; [done|lia|lia|lia|]. cbn. lia.
  - destruct (pos_iter_xO p k) as [Hv Hdig].
    exists (Pos.iter xO p k), (Z.pos (digits2_pos p) - 53).
    rewrite binary_round_aux_exact by lia.
    split_and!; [done|lia|lia|lia|]. rewrite Hv. f_equal. f_equal. lia.
Qed.


Lemma div_eucl_div_mod a b : Z.div_eucl a b = (a / b, a mod b).
Proof. unfold Z.div, Z.modulo. by destruct (Z.div_eucl a b). Qed.

Lemma new_location_zero nb : new_location nb 0 = loc_Exact.
Proof. unfold new_location. by destruct (Z.even nb). Qed.

(** The quotient of two floats of 53 digits, the first at most the
    second, is at most one. *)
Lemma SFdiv_le_one mc ec mt et :
  Z.pos (digits2_pos mc) = 53 → Z.pos (digits2_pos mt) = 53 →
  -52 ≤ ec ≤ 0 → -52 ≤ et ≤ 0 →
  Z.pos mc * 2 ^ (- et) ≤ Z.pos mt * 2 ^ (- ec) →
  match SFdiv prec emax (S754_finite false mc ec) (S754_finite false mt et) with
  | S754_zero s => s = false
  | S754_finite s m e => s = false ∧ e ≤ -51 ∧ Z.pos m ≤ 2 ^ (- e)
  | _ => False
  end.
Proof.
  intros Hdc Hdt Hec Het Hle. unfold SFdiv, SFdiv_core_binary. cbn [Zdigits2].
  rewrite Hdc, Hdt, fexp_eq.
  pose proof (digits2_pos_bounds mc) as Hmc. rewrite Hdc in Hmc.
  pose proof (digits2_pos_bounds mt) as Hmt. rewrite Hdt in Hmt.
  change (2 ^ (53 - 1)) with (2 ^ 52) in *.
  assert (ec ≤ et) as Hk.
  { destruct (Z.le_gt_cases ec et) as [|Hgt]; [done|]. exfalso.
    replace (- et) with (- ec + (ec - et)) in Hle by lia.
    rewrite Z.pow_add_r in Hle by lia.
    assert (0 < 2 ^ (- ec)) as HA by (apply Z.pow_pos_nonneg; lia).
    assert (2 ^ 1 ≤ 2 ^ (ec - et)) as HB by (apply Z.pow_le_mono_r; lia).
    change (2 ^ 1) with 2 in HB.
    assert (Z.pos mc * 2 ^ (ec - et) ≤ Z.pos mt) as Hc.
    { apply (Z.mul_le_mono_pos_r _ _ (2 ^ (- ec))); lia. }
    change (2 ^ 53) with (2 * 2 ^ 52) in Hmt.
    assert (Z.pos mc * 2 ≤ Z.pos mc * 2 ^ (ec - et)) by (apply Z.mul_le_mono_nonneg_l; lia).
    lia. }
  replace (Z.min (Z.max (53 + ec - (53 + et) - 53) (-1074)) (ec - et))
    with (ec - et - 53) by lia.
  replace (ec - et - (ec - et - 53)) with 53 by lia.
  cbv iota. rewrite Z.shiftl_mul_pow2 by lia. rewrite div_eucl_div_mod.
  cbv beta iota. cbn [xorb].
  set (k := et - ec).
  set (q := Z.pos mc * 2 ^ 53 / Z.pos mt).
  set (r := (Z.pos mc * 2 ^ 53) mod Z.pos mt).
  set (e' := ec - et - 53).
  assert (Z.pos mc * 2 ^ 53 = Z.pos mt * q + r ∧ 0 ≤ r < Z.pos mt) as [Hdiv Hr].
  { split; [apply Z.div_mod; lia|apply Z.mod_pos_bound; lia]. }
  assert (Z.pos mc ≤ Z.pos mt * 2 ^ k) as Hck.
  { replace (- ec) with (- et + k) in Hle by (unfold k; lia).
    rewrite Z.pow_add_r in Hle by (unfold k; lia).
    assert (0 < 2 ^ (- et)) by (apply Z.pow_pos_nonneg; lia).
    apply (Z.mul_le_mono_pos_r _ _ (2 ^ (- et))); lia. }
  assert (0 ≤ q) as Hq0 by (apply Z.div_pos; lia).
  assert (0 < 2 ^ k) as Hpk by (apply Z.pow_pos_nonneg; unfold k; lia).
  assert (q ≤ 2 ^ (k + 53) ∧ (q = 2 ^ (k + 53) → r = 0)) as [Hq Hqr].
  { rewrite Z.pow_add_r by (unfold k; lia).
    assert (Z.pos mt * q ≤ Z.pos mt * (2 ^ k * 2 ^ 53)) as Hm by nia.
    split; [apply (Z.mul_le_mono_pos_l _ _ (Z.pos mt)); lia|].
    intros Heq. rewrite Heq in Hdiv. nia. }
  set (n := Z.max 0 (fexp prec emax (Zdigits2 q + e') - e')).
  assert (Zdigits2 q ≤ k + 54) as Hdq.
  { apply Zdigits2_lt; [|unfold k; lia]. split; [done|].
    eapply Z.le_lt_trans; [exact Hq|]. apply Z.pow_lt_mono_r; unfold k; lia. }
  assert (0 ≤ n ∧ e' + n ≤ -52) as [Hn Hen].
  { unfold n. rewrite fexp_eq. unfold e', k in *. lia. }
  assert (2 ^ (- (e' + n)) * 2 ^ n = 2 ^ (k + 53)) as Hb.
  { rewrite <- Z.pow_add_r by lia. f_equal. unfold e', k. lia. }
  pose proof (binary_round_aux_upper q e' (new_location (Z.pos mt) r)
                (2 ^ (- (e' + n))) Hq0) as Hround.
  fold n in Hround. rewrite Hb in Hround.
  specialize (Hround Hq).
  destruct (binary_round_aux prec emax false q e' (new_location (Z.pos mt) r))
    as [s|s| |s m e]; try (apply Hround; [|lia]; intros ->%Hqr; apply new_location_zero).
  destruct Hround as (-> & He & Hm); [by intros ->%Hqr; apply new_location_zero|lia|].
  split; [done|]. split; [lia|].
  assert (0 < 2 ^ (e - (e' + n))) as Hp by (apply Z.pow_pos_nonneg; lia).
  replace (- (e' + n)) with (- e + (e - (e' + n))) in Hm by lia.
  rewrite Z.pow_add_r in Hm by lia.
  apply (Z.mul_le_mono_pos_r _ _ (2 ^ (e - (e' + n)))); lia.
Qed.


Lemma float_of_int_hundred :
  Prim2SF (Py.float_of_int 100) = S754_finite false 7036874417766400 (-46).
Proof. vm_compute. reflexivity. Qed.

(** A float that is at most one, times [100.0], is at most [100]. *)
Lemma SFmul_le_hundred mq eq :
  eq ≤ -51 → Z.pos mq ≤ 2 ^ (- eq) →
  match SFmul prec emax (S754_finite false mq eq)
              (S754_finite false 7036874417766400 (-46)) with
  | S754_zero s => s = false
  | S754_finite s m e => s = false ∧ e < 0 ∧ Z.pos m ≤ 100 * 2 ^ (- e)
  | _ => False
  end.
Proof.
  intros Heq Hmq. unfold SFmul. cbn [xorb]. rewrite Pos2Z.inj_mul.
  change (Z.pos 7036874417766400) with (100 * 2 ^ 46).
  set (mx := Z.pos mq * (100 * 2 ^ 46)). set (ex := eq + -46).
  set (n := Z.max 0 (fexp prec emax (Zdigits2 mx + ex) - ex)).
  assert (0 < 2 ^ (- eq)) as Hpe by (apply Z.pow_pos_nonneg; lia).
  assert (0 ≤ mx) as Hmx0 by (unfold mx; lia).
  assert (mx ≤ 100 * 2 ^ (- ex)) as Hmx.
  { unfold mx, ex. replace (- (eq + -46)) with (- eq + 46) by lia.
    rewrite Z.pow_add_r by lia. nia. }
  assert (Zdigits2 mx ≤ 7 - ex) as Hd.
  { apply Zdigits2_lt; [|unfold ex; lia]. split; [done|].
    replace (7 - ex) with (7 + - ex) by lia. rewrite Z.pow_add_r by (unfold ex; lia).
    assert (0 < 2 ^ (- ex)) by (apply Z.pow_pos_nonneg; unfold ex; lia).
    change (2 ^ 7) with 128. lia. }
  assert (0 ≤ n ∧ ex + n ≤ -46) as [Hn Hen].
  { unfold n. rewrite fexp_eq. unfold ex in *. lia. }
  assert (100 * 2 ^ (- (ex + n)) * 2 ^ n = 100 * 2 ^ (- ex)) as Hb.
  { rewrite <- Z.mul_assoc, <- Z.pow_add_r by lia. do 2 f_equal. lia. }
  pose proof (binary_round_aux_upper mx ex loc_Exact (100 * 2 ^ (- (ex + n))) Hmx0)
    as Hround.
  fold n in Hround. rewrite Hb in Hround. specialize (Hround Hmx (λ _, eq_refl)).
  destruct (binary_round_aux prec emax false mx ex loc_Exact) as [s|s| |s m e];
    try (apply Hround; lia).
  destruct Hround as (-> & He & Hm); [lia|].
  split; [done|]. split; [lia|].
  assert (0 < 2 ^ (e - (ex + n))) as Hp by (apply Z.pow_pos_nonneg; lia).
  replace (- (ex + n)) with (- e + (e - (ex + n))) in Hm by lia.
  rewrite Z.pow_add_r in Hm by lia.
  apply (Z.mul_le_mono_pos_r _ _ (2 ^ (e - (ex + n)))); lia.
Qed.

(** A float divided by itself is one. *)
Lemma SFdiv_self m e :
  Z.pos (digits2_pos m) = 53 →
  SFdiv prec emax (S754_finite false m e) (S754_finite false m e)
  = S754_finite false 4503599627370496 (-52).
Proof.
  intros Hd. unfold SFdiv, SFdiv_core_binary. cbn [Zdigits2].
  replace (Z.pos (digits2_pos m) + e - (Z.pos (digits2_pos m) + e)) with 0 by lia.
  replace (e - e) with 0 by lia.
  change (Z.min (fexp prec emax 0) 0) with (-53). change (0 - -53) with 53.
  cbv iota. rewrite Z.shiftl_mul_pow2 by lia. rewrite div_eucl_div_mod.
  rewrite (Z.mul_comm (Z.pos m)), Z.div_mul, Z.mod_mul by lia.
  cbv beta iota. rewrite new_location_zero. vm_compute. reflexivity.
Qed.

(** [int(((i + 1) / total) * 100)] is an integer of [0..100], and [100]
    when [i + 1] is [total]: the quotient of the two floats is at most
    one, so the product is at most [100.0]. *)
Lemma percent_of_range i total :
  0 ≤ i < total → total < 2 ^ 53 →
  ∃ p, percent_of i total = Py.Ok p ∧ 0 ≤ p ≤ 100 ∧ (i + 1 = total → p = 100).
Proof.
  intros Hi Ht. unfold percent_of, Py.truediv.
  destruct (Z.eqb_spec total 0) as [|_]; [lia|].
  cbn [mbind Py.result_bind]. unfold Py.int_of_float.
  rewrite FloatAxioms.mul_spec, FloatAxioms.div_spec, float_of_int_hundred.
  destruct (float_of_int_spec total) as (mt & et & Hft & Hdt & Het & Hmt); [lia|].
  destruct (decide (i + 1 = total)) as [Hlast|Hmore].
  - rewrite Hlast, Hft. unfold SF64div. rewrite SFdiv_self by done.
    exists 100. split_and!; [by vm_compute|lia|lia|done].
  - destruct (float_of_int_spec (i + 1)) as (mc & ec & -> & Hdc & Hec & Hmc); [lia|].
    rewrite Hft.
    assert (Z.pos mc * 2 ^ (- et) ≤ Z.pos mt * 2 ^ (- ec)) as Hle.
    { rewrite Hmc, Hmt.
      assert (0 < 2 ^ (- ec)) by (apply Z.pow_pos_nonneg; lia).
      assert (0 < 2 ^ (- et)) by (apply Z.pow_pos_nonneg; lia).
      nia. }
    pose proof (SFdiv_le_one mc ec mt et Hdc Hdt Hec Het Hle) as Hdiv.
    unfold SF64div, SF64mul.
    destruct (SFdiv prec emax (S754_finite false mc ec) (S754_finite false mt et))
      as [s|s| |s mq eq]; [| done | done |].
    + exists 0. cbn. split_and!; [done|lia|lia|lia].
    + destruct Hdiv as (-> & Heq & Hmq).
      pose proof (SFmul_le_hundred mq eq Heq Hmq) as Hmul.
      destruct (SFmul prec emax (S754_finite false mq eq)
                      (S754_finite false 7036874417766400 (-46)))
        as [s|s| |s m e]; [| done | done |].
      * exists 0. split_and!; [done|lia|lia|lia].
      * destruct Hmul as (-> & He & Hm). eexists. split; [reflexivity|].
        rewrite Z.shiftl_div_pow2 by lia.
        assert (0 < 2 ^ (- e)) by (apply Z.pow_pos_nonneg; lia).
        split_and!; [apply Z.div_pos; lia| |lia].
        apply Z.div_le_upper_bound; lia.
Qed.

End FloatRange.

(** ** The extractor: run *)

Section Run.

Lemma all_below_true P n k :
  all_below P n = true → 0 ≤ k < Z.of_nat n → P k = true.
Proof.
  induction n as [|n IH]; intros Hall Hk; [lia|].
  cbn [all_below] in Hall. apply andb_prop in Hall as [Hn Hall].
  destruct (decide (k = Z.of_nat n)) as [->|Hne]; [done|].
  apply IH; [done|lia].
Qed.

Lemma all_below2_true (Q : Z → Z → bool) n t i :
  all_below (λ t, all_below (λ i, Q i t) (S (Z.to_nat t))) n = true →
  0 ≤ t < Z.of_nat n → 0 ≤ i ≤ t → Q i t = true.
Proof.
  intros Hall Ht Hi.
  pose proof (all_below_true
                (λ t, all_below (λ i, Q i t) (S (Z.to_nat t))) n t Hall Ht) as Hrow.
  cbv beta in Hrow.
  apply (all_below_true (λ i, Q i t) (S (Z.to_nat t)) i Hrow). lia.
Qed.

Lemma percent_cut_checked : percent_cut_upto checked_members = true.
Proof. vm_compute. reflexivity. Qed.

(** Up to [checked_members] members, the value computed after a member
    is the exact quotient cut to an integer, or one less where the
    quotient is whole. *)
Lemma percent_of_cut i total p :
  0 ≤ i < total → total ≤ Z.of_nat checked_members →
  percent_of i total = Py.Ok p → cut_percent (i + 1) total p.
Proof.
  intros Hi Ht Hp.
  assert (Hall : percent_cut i (total - 1 + 1) = true).
  { apply (all_below2_true (λ i t, percent_cut i (t + 1)) checked_members);
      [exact percent_cut_checked|lia|lia]. }
  replace (total - 1 + 1) with total in Hall by lia.
  unfold percent_cut in Hall. rewrite Hp in Hall. unfold cut_percent.
  apply orb_prop in Hall as [[H1 H2]%andb_prop|H]; [left|right]; lia.
Qed.

Context (lib : ZipLib) (zip_path temp_dir : string).

(** The loop, when no extraction raises: one progress event per member,
    in order, and the scratch directory of [extract_all]. *)
Lemma extract_members_ok total members :
  total < 2 ^ 53 →
  ∀ i w tree',
    0 ≤ i → i + Z.of_nat (length members) ≤ total →
    extract_all lib zip_path temp_dir members (scratch w) = Py.Ok tree' →
    ∃ evs,
      extract_members lib zip_path temp_dir total i members w
      = (Py.Ok (), {| scratch := tree'; emitted := emitted w ++ evs |})
      ∧ length evs = length members
      ∧ ∀ k member, members !! k = Some member →
          ∃ p, percent_of (i + Z.of_nat k) total = Py.Ok p
               ∧ evs !! k = Some (Progress p ("Extraindo: " +:+ member)).
Proof.
  intros Hchecked. induction members as [|member rest IH]; intros i w tree' Hi Hlen Hall.
  - cbn in Hall. injection Hall as <-. exists []. split_and!; [|done|done].
    cbn. destruct w. by rewrite app_nil_r.
  - cbn [extract_all] in Hall. cbn [extract_members].
    destruct (zip_extract lib zip_path member temp_dir (scratch w)) as [t1|e]; [|done].
    cbn in Hall. cbn [length] in Hlen.
    destruct (percent_of_range i total) as (p & Hp & _); [lia|done|].
    rewrite Hp.
    destruct (IH (i + 1)
                (emit (Progress p ("Extraindo: " +:+ member))
                      {| scratch := t1; emitted := emitted w |}) tree')
      as (evs & Hrun & Hevs & Hk); [lia|lia|done|].
    exists (Progress p ("Extraindo: " +:+ member) :: evs). split_and!.
    + rewrite Hrun. cbn. by rewrite <- app_assoc.
    + cbn. by rewrite Hevs.
    + intros [|k] m Hm.
      * injection Hm as <-. exists p. by rewrite Z.add_0_r.
      * destruct (Hk k m Hm) as (q & Hq & Hev). exists q. split; [|done].
        rewrite <- Hq. f_equal. lia.
Qed.

(** The loop only adds to the events. *)
Lemma extract_members_emits total members :
  ∀ i w, ∃ evs,
    emitted (extract_members lib zip_path temp_dir total i members w).2 = emitted w ++ evs.
Proof.
  induction members as [|member rest IH]; intros i w.
  - exists []. cbn. by rewrite app_nil_r.
  - cbn [extract_members].
    destruct (zip_extract lib zip_path member temp_dir (scratch w)) as [t1|e];
      [|exists []; cbn; by rewrite app_nil_r].
    destruct (percent_of i total) as [p|e]; [|exists []; cbn; by rewrite app_nil_r].
    destruct (IH (i + 1) (emit (Progress p ("Extraindo: " +:+ member))
                              {| scratch := t1; emitted := emitted w |})) as [evs ->].
    eexists. cbn. by rewrite <- app_assoc.
Qed.

(** The loop over a list continues where the loop over its front part
    stopped, unless that one raised. *)
Lemma extract_members_app total l1 l2 :
  ∀ i w,
    extract_members lib zip_path temp_dir total i (l1 ++ l2) w
    = match extract_members lib zip_path temp_dir total i l1 w with
      | (Py.Ok _, w1) =>
          extract_members lib zip_path temp_dir total (i + Z.of_nat (length l1)) l2 w1
      | (Py.Raise e, w1) => (Py.Raise e, w1)
      end.
Proof.
  induction l1 as [|member rest IH]; intros i w.
  - cbn. by rewrite Z.add_0_r.
  - cbn [app extract_members].
    destruct (zip_extract lib zip_path member temp_dir (scratch w)) as [t1|e]; [|done].
    destruct (percent_of i total) as [p|e]; [|done].
    rewrite IH. cbn [length]. by replace (i + 1 + Z.of_nat (length rest))
      with (i + Z.of_nat (S (length rest))) by lia.
Qed.

(** What [run] emits starts with what the loop has emitted. *)
Lemma run_emitted_after_loop tree file_list :
  zip_namelist lib zip_path = Py.Ok file_list →
  ∃ tail,
    emitted (run lib zip_path temp_dir tree)
    = emitted (extract_members lib zip_path temp_dir (Z.of_nat (length file_list)) 0
                 file_list
                 (emit (Progress 0 msg_iniciando) {| scratch := tree; emitted := [] |})).2
      ++ tail.
Proof.
  intros Hlist. unfold run. rewrite Hlist.
  destruct (extract_members _ _ _ _ _ _ _) as [[[]|e] w1]; cbn [snd].
  - rewrite organize_files_ok. unfold emit. cbn [emitted scratch].
    eexists. by rewrite <- app_assoc.
  - by eexists.
Qed.

(** Without members the loop body is not entered. *)
Lemma run_no_members tree :
  zip_namelist lib zip_path = Py.Ok [] →
  run lib zip_path temp_dir tree
  = {| scratch := tree;
       emitted := [Progress 0 msg_iniciando;
                   Progress 100 "Organizando arquivos...";
                   Finished (sort_by tuple_lt sort_key
                               (unsorted_items zip_path temp_dir tree))] |}.
Proof.
  intros Hlist. unfold run. rewrite Hlist. cbn [extract_members length emit scratch emitted].
  by rewrite organize_files_ok.
Qed.

End Run.

(** C7, as the code has it. In an archive of fewer than [2 ^ 53]
    members (the counts that [float] holds exactly), after every member
    that has been extracted [run] emits a progress event with the text
    that names the member and [int(((i + 1) / total_files) * 100)]: the
    product of doubles cut towards zero, not rounded. That value is an
    integer of [0..100], and [100] after the last member; up to
    [checked_members] members it is the exact quotient
    [100 * (i + 1) / total_files] cut to an integer, or one less where
    the quotient is whole. When no extraction raises, the events are the
    initial one, one per member, the event of 100 and the completion. *)
Theorem run_progress_after_every_member (lib : ZipLib) (zip_path temp_dir : string)
    (tree : list entry) (file_list : list string) :
  zip_namelist lib zip_path = Py.Ok file_list →
  Z.of_nat (length file_list) < 2 ^ 53 →
  (∀ k member tree_k,
     file_list !! k = Some member →
     extract_all lib zip_path temp_dir (take (S k) file_list) tree = Py.Ok tree_k →
     ∃ p, percent_of (Z.of_nat k) (Z.of_nat (length file_list)) = Py.Ok p
          ∧ 0 ≤ p ≤ 100
          ∧ (S k = length file_list → p = 100)
          ∧ ((length file_list ≤ checked_members)%nat →
             cut_percent (Z.of_nat (S k)) (Z.of_nat (length file_list)) p)
          ∧ emitted (run lib zip_path temp_dir tree) !! S k
            = Some (Progress p ("Extraindo: " +:+ member)))
  ∧ (∀ tree',
       extract_all lib zip_path temp_dir file_list tree = Py.Ok tree' →
       ∃ evs media,
         run lib zip_path temp_dir tree
         = {| scratch := tree';
              emitted := [Progress 0 msg_iniciando] ++ evs
                         ++ [Progress 100 "Organizando arquivos..."; Finished media] |}
         ∧ length evs = length file_list
         ∧ organize_files zip_path temp_dir tree' = Py.Ok media).
Proof.
  intros Hlist Hbound. set (total := Z.of_nat (length file_list)) in *.
  set (w0 := emit (Progress 0 msg_iniciando) {| scratch := tree; emitted := [] |}).
  split.
  - intros k member tree_k Hm Hall.
    pose proof (lookup_lt_Some _ _ _ Hm) as Hlt.
    destruct (extract_members_ok lib zip_path temp_dir total (take (S k) file_list)
                Hbound 0 w0 tree_k)
      as (evs & Hloop & Hlen & Hk); [lia|rewrite length_take; subst total; lia|done|].
    destruct (Hk k member) as (p & Hp & Hev).
    { rewrite lookup_take_lt by lia. done. }
    rewrite Z.add_0_l in Hp.
    destruct (percent_of_range (Z.of_nat k) total)
      as (p' & Hp' & Hrange & Hlast); [subst total; lia|done|].
    assert (p' = p) as -> by congruence.
    exists p. refine (conj Hp (conj Hrange (conj _ (conj _ _)))).
    { intros Hend. apply Hlast. subst total. lia. }
    { intros Hchecked. rewrite Nat2Z.inj_succ, <- Z.add_1_r.
      apply percent_of_cut; [subst total; lia|subst total; lia|done]. }
    destruct (run_emitted_after_loop lib zip_path temp_dir tree file_list Hlist)
      as [tail ->].
    fold total w0. rewrite <- (take_drop (S k) file_list) at 1.
    rewrite extract_members_app, Hloop.
    destruct (extract_members_emits lib zip_path temp_dir total (drop (S k) file_list)
                (0 + Z.of_nat (length (take (S k) file_list)))
                {| scratch := tree_k; emitted := emitted w0 ++ evs |}) as [evs2 ->].
    cbn [emitted w0 emit app].
    change ((?x :: ?l) !! S k) with (l !! k).
    rewrite <- app_assoc, lookup_app_l; [done|]. rewrite Hlen, length_take. lia.
  - intros tree' Hall.
    destruct (extract_members_ok lib zip_path temp_dir total file_list
                Hbound 0 w0 tree')
      as (evs & Hrun & Hlen & _); [lia|subst total; lia|done|].
    exists evs, (sort_by tuple_lt sort_key (unsorted_items zip_path temp_dir tree')).
    split_and!; [|done|apply organize_files_ok].
    unfold run. rewrite Hlist. fold total w0. rewrite Hrun. unfold emit. cbn [scratch emitted].
    rewrite organize_files_ok. unfold w0, emit. cbn [scratch emitted].
    f_equal. rewrite <- !app_assoc. reflexivity.
Qed.

(** C7, as the specification words it, fails at the second of three
    members: the event carries 66, and a nearest integer to 200/3 is 67. *)
Lemma run_progress_not_rounded :
  emitted (run (flat_archive ["a.jpg"; "b.jpg"; "c.jpg"]) "x.zip" "/tmp/x" []) !! 2%nat
  = Some (Progress 66 "Extraindo: b.jpg")
  ∧ ¬ progress_is_rounded (flat_archive ["a.jpg"; "b.jpg"; "c.jpg"]) "x.zip" "/tmp/x" [].
Proof.
  assert (Hev : emitted (run (flat_archive ["a.jpg"; "b.jpg"; "c.jpg"]) "x.zip" "/tmp/x" [])
                !! 2%nat = Some (Progress 66 "Extraindo: b.jpg")) by (vm_compute; reflexivity).
  split; [exact Hev|]. intros Hclaim.
  specialize (Hclaim ["a.jpg"; "b.jpg"; "c.jpg"] 1%nat "b.jpg" 66 "Extraindo: b.jpg"
                eq_refl eq_refl Hev).
  unfold nearest_percent in Hclaim. cbn in Hclaim. lia.
Qed.

(** C10, as the code has it. For an archive without members the loop
    body, and with it the division, is never entered: [run] emits the
    initial progress event, the event of 100 and the completion with the
    catalog of the scratch directory, and no error. *)
Theorem run_empty_archive_completes (lib : ZipLib) (zip_path temp_dir : string)
    (tree : list entry) :
  zip_namelist lib zip_path = Py.Ok [] →
  ∃ media,
    organize_files zip_path temp_dir tree = Py.Ok media
    ∧ run lib zip_path temp_dir tree
      = {| scratch := tree;
           emitted := [Progress 0 msg_iniciando;
                       Progress 100 "Organizando arquivos...";
                       Finished media] |}
    ∧ (∀ e, Error e ∉ emitted (run lib zip_path temp_dir tree))
    ∧ (tree = [] → media = []).
Proof.
  intros Hlist. eexists. split_and!.
  - apply organize_files_ok.
  - by apply run_no_members.
  - intros e. rewrite (run_no_members lib zip_path temp_dir tree Hlist). cbn.
    rewrite !elem_of_cons, elem_of_nil. intros [?|[?|[?|[]]]]; discriminate.
  - by intros ->.
Qed.

(** C10, as it is worded, fails on the archive without members: there is
    a completion and no error. *)
Lemma run_empty_archive_no_error :
  emitted (run (flat_archive []) "x.zip" "/tmp/x" [])
  = [Progress 0 msg_iniciando; Progress 100 "Organizando arquivos..."; Finished []]
  ∧ ¬ empty_archive_is_an_error (flat_archive []) "x.zip" "/tmp/x" [].
Proof.
  assert (Hev : emitted (run (flat_archive []) "x.zip" "/tmp/x" [])
                = [Progress 0 msg_iniciando; Progress 100 "Organizando arquivos...";
                   Finished []]) by reflexivity.
  split; [exact Hev|]. intros Hclaim. destruct (Hclaim eq_refl) as [_ Hno].
  apply (Hno []). rewrite Hev, !elem_of_cons. auto.
Qed.

(** ** The fields of an item *)


(** The third condition is needed. With the scratch directory [/tmp/x]
    and a file at [a/tmp/x/b.jpg] under it, [str.replace] deletes the
    second [/tmp/x] as well: the segments the code takes are [a] and
    [b.jpg], not those of the relative path. *)
Remark organize_files_scratch_name_inside :
  relative_paths "/tmp/x" tree_with_scratch_name
  = [("/tmp/x/a/tmp/x", "b.jpg", ["a"; "tmp"; "x"; "b.jpg"])]
  ∧ path_parts "/tmp/x" "/tmp/x/a/tmp/x/b.jpg" = ["a"; "b.jpg"]
  ∧ ∃ item,
      organize_files "/home/u/Coleta_2024 05.zip" "/tmp/x" tree_with_scratch_name
      = Py.Ok [item]
      ∧ ZipLoaderThread.data item = "??/05/2024"
      ∧ ZipLoaderThread.id item = "a".
Proof. split_and!; [reflexivity..|]. eexists. split_and!; reflexivity. Qed.

(** * Instances *)

(** The conditions of [organize_files_fields_of_relative_path] on a
    scratch directory with a day folder and a subject folder. *)
Example organize_files_fields_sample :
  ∃ l,
    organize_files "/home/u/Coleta_2024 05.zip" "/tmp/x"
                   [Dir "15" [Dir "SUBJ01" [File "dedao_d_frame_12.jpg"]]] = Py.Ok l
    ∧ ∀ item, item ∈ l →
        ∃ d n segs,
          (d, n, segs)
            ∈ relative_paths "/tmp/x" [Dir "15" [Dir "SUBJ01" [File "dedao_d_frame_12.jpg"]]]
          ∧ item = item_of "2024" "05" ("/tmp/x" +:+ slashed segs) n segs.
Proof.
  apply (organize_files_fields_of_relative_path "/home/u/Coleta_2024 05.zip" "/tmp/x"
           [Dir "15" [Dir "SUBJ01" [File "dedao_d_frame_12.jpg"]]]); [done|done|].
  intros d n segs Hin. vm_compute in Hin.
  apply list_elem_of_singleton in Hin. injection Hin as -> -> ->.
  split; [|reflexivity].
  repeat constructor; done.
Qed.


Lemma organize_files_one_item_per_image_witness :
  ∃ l,
    organize_files "/home/u/Coleta_2024 05.zip" "/tmp/x" tree_with_images = Py.Ok l
    ∧ (λ x, (file_path x, filename x)) <$> l
      ≡ₚ (λ p, (Py.join p.1 p.2, p.2)) <$> [("/tmp/x", "a.JPG"); ("/tmp/x/15", "b.tiff")].
Proof.
  destruct (organize_files_one_item_per_image
              "/home/u/Coleta_2024 05.zip" "/tmp/x" tree_with_images)
    as (l & Hl & Hitems & _).
  exists l. split; [exact Hl|]. apply Hitems.
  unfold plain_file_names. vm_compute tree_files. repeat constructor.
Defined.


Lemma upsert_idempotent_witness :
  upsert (upsert ∅ "Coleta_2024 05.zip" sample_item [sample_erro 3 "2025-01-01 10:00:00"])
         "Coleta_2024 05.zip" sample_item [sample_erro 5 "2025-01-01 10:05:00"]
  = upsert ∅ "Coleta_2024 05.zip" sample_item [sample_erro 3 "2025-01-01 10:00:00"].
Proof.
  refine (proj1 (upsert_idempotent ∅ "Coleta_2024 05.zip" sample_item
                   [sample_erro 3 "2025-01-01 10:00:00"]
                   [sample_erro 5 "2025-01-01 10:05:00"] _)).
  intros n Hn. apply list_elem_of_singleton in Hn as ->.
  apply list_elem_of_singleton. reflexivity.
Defined.

Lemma run_progress_after_every_member_witness :
  ∃ p, percent_of 1 3 = Py.Ok p
       ∧ 0 ≤ p ≤ 100
       ∧ (2%nat = 3%nat → p = 100)
       ∧ ((3 ≤ checked_members)%nat → cut_percent 2 3 p)
       ∧ emitted (run (flat_archive ["a.jpg"; "b.jpg"; "c.jpg"]) "x.zip" "/tmp/x" []) !! 2%nat
         = Some (Progress p "Extraindo: b.jpg").
Proof.
  refine (proj1 (run_progress_after_every_member
                   (flat_archive ["a.jpg"; "b.jpg"; "c.jpg"]) "x.zip" "/tmp/x" []
                   ["a.jpg"; "b.jpg"; "c.jpg"] _ _)
                1%nat "b.jpg" [File "a.jpg"; File "b.jpg"] _ _).
  - reflexivity.
  - reflexivity.
  - reflexivity.
  - reflexivity.
Defined.

Lemma run_empty_archive_completes_witness :
  ∃ media,
    organize_files "x.zip" "/tmp/x" [] = Py.Ok media
    ∧ run (flat_archive []) "x.zip" "/tmp/x" []
      = {| scratch := [];
           emitted := [Progress 0 msg_iniciando;
                       Progress 100 "Organizando arquivos...";
                       Finished media] |}
    ∧ (∀ e, Error e ∉ emitted (run (flat_archive []) "x.zip" "/tmp/x" []))
    ∧ (([] : list entry) = [] → media = []).
Proof.
  apply (run_empty_archive_completes (flat_archive []) "x.zip" "/tmp/x" []).
  reflexivity.
Defined.

(** * More of the program *)

(** ** More of the file names *)

Section FileNames.

Lemma lower_char_idem c : Py.lower_char (Py.lower_char c) = Py.lower_char c.
Proof. destruct c as [[] [] [] [] [] [] [] []]; reflexivity. Qed.

Lemma lower_idem s : Py.lower (Py.lower s) = Py.lower s.
Proof. induction s as [|c s IH]; [done|]. cbn. by rewrite lower_char_idem, IH. Qed.

Lemma is_decimal_lower_char c :
  Py.is_decimal (Py.lower_char c) = Py.is_decimal c
  ∧ (Py.is_decimal c = true → Py.lower_char c = c).
Proof. destruct c as [[] [] [] [] [] [] [] []]; split; (reflexivity || discriminate). Qed.

Lemma take_while_decimal_lower s :
  Py.take_while Py.is_decimal (Py.lower s) = Py.take_while Py.is_decimal s.
Proof.
  induction s as [|c s IH]; [done|]. cbn.
  destruct (is_decimal_lower_char c) as [-> Hc].
  destruct (Py.is_decimal c); [|done]. by rewrite Hc, IH.
Qed.

Lemma slice_from_lower n s : Py.slice_from n (Py.lower s) = Py.lower (Py.slice_from n s).
Proof. revert s. induction n as [|n IH]; intros [|c s]; cbn; done. Qed.

Lemma frame_match_here_lower s : frame_match_here (Py.lower s) = frame_match_here s.
Proof.
  unfold frame_match_here.
  by rewrite lower_idem, slice_from_lower, take_while_decimal_lower.
Qed.

Lemma frame_search_unfold s :
  frame_search s
  = match frame_match_here s with
    | Some digits => Some digits
    | None =>
        match s with
        | "" => None
        | String _ s' => frame_search s'
        end
    end.
Proof. by destruct s. Qed.

Lemma frame_search_lower s : frame_search (Py.lower s) = frame_search s.
Proof.
  induction s as [|c s IH]; [done|].
  rewrite (frame_search_unfold (String c s)), <- frame_match_here_lower, <- IH.
  by rewrite (frame_search_unfold (Py.lower (String c s))).
Qed.

Lemma take_while_all p s : Py.all_chars p (Py.take_while p s) = true.
Proof.
  induction s as [|c s IH]; [done|]. cbn. destruct (p c) eqn:Hc; [|done].
  cbn. by rewrite Hc, IH.
Qed.

Lemma frame_search_digits s ds :
  frame_search s = Some ds → Py.all_chars Py.is_decimal ds = true ∧ ds ≠ "".
Proof.
  induction s as [|c s IH]; rewrite frame_search_unfold.
  - done.
  - unfold frame_match_here at 1.
    destruct (String.prefix _ _).
    + destruct (Py.take_while Py.is_decimal _) as [|d ds'] eqn:Htw.
      * exact IH.
      * intros [= <-]. split; [|done]. rewrite <- Htw. apply take_while_all.
    + exact IH.
Qed.

Lemma int_of_digits_from_nonneg ds acc :
  0 ≤ acc → Py.all_chars Py.is_decimal ds = true →
  0 ≤ fold_left (λ acc c, 10 * acc + (Z.of_N (Py.code c) - 48)) (list_ascii_of_string ds) acc.
Proof.
  revert acc. induction ds as [|c ds IH]; intros acc Hacc Hds; [done|].
  cbn in Hds. apply andb_prop in Hds as [Hc Hds]. cbn [list_ascii_of_string fold_left].
  apply IH; [|done].
  unfold Py.is_decimal, Py.between in Hc. apply andb_prop in Hc as [H1 H2].
  apply N.leb_le in H1, H2. lia.
Qed.

Lemma prefix_empty s : String.prefix "" s = true.
Proof. by destruct s. Qed.

Lemma prefix_shorter x a c :
  String.prefix x (a +:+ c) = true → (String.length x ≤ String.length a)%nat →
  String.prefix x a = true.
Proof.
  revert a. induction x as [|u x IH]; intros a Hp Hlen; [apply prefix_empty|].
  destruct a as [|d a]; [cbn in Hlen; lia|].
  rewrite app_String in Hp. cbn [String.prefix] in *.
  destruct (ascii_dec u d); [|done]. apply IH; [done|]. cbn in Hlen. lia.
Qed.

Lemma occurs_prefix x a : String.prefix x a = true → occurs x a = true.
Proof. intros Hp. destruct a; cbn [occurs]; by rewrite Hp. Qed.

Lemma occurs_app_r x p a : occurs x a = true → occurs x (p +:+ a) = true.
Proof.
  intros Ha. induction p as [|c p IH]; [done|].
  rewrite app_String. cbn [occurs]. rewrite IH. apply orb_true_r.
Qed.

Lemma take_while_app p ds rest :
  Py.all_chars p ds = true →
  Py.take_while p (ds +:+ rest) = ds +:+ Py.take_while p rest.
Proof.
  induction ds as [|c ds IH]; [done|]. cbn. intros [Hc Hds]%andb_prop.
  rewrite app_String. cbn. by rewrite Hc, IH, app_String.
Qed.

(** The search passes over the positions that do not start a match. *)
Lemma frame_search_skip pre rest :
  (∀ p1 p2, pre = p1 +:+ p2 → p2 ≠ "" → frame_match_here (p2 +:+ rest) = None) →
  frame_search (pre +:+ rest) = frame_search rest.
Proof.
  induction pre as [|c pre IH]; intros Hnone; [done|].
  rewrite frame_search_unfold, (Hnone "" (String c pre)) by done.
  rewrite app_String. apply IH. intros p1 p2 -> Hp2.
  by apply (Hnone (String c p1) p2).
Qed.

End FileNames.

(** X1. The frame number is never negative. *)
Theorem extract_frame_info_nonneg (filename : string) : 0 ≤ extract_frame_info filename.
Proof.
  unfold extract_frame_info. destruct (frame_search filename) as [ds|] eqn:Hs; [|done].
  apply frame_search_digits in Hs as [Hds _]. by apply int_of_digits_from_nonneg.
Qed.

(** X2. The label and the frame number do not depend on the case of the
    letters of the name. *)
Theorem file_name_case_is_ignored (filename : string) :
  extract_dedo_info (Py.lower filename) = extract_dedo_info filename
  ∧ extract_frame_info (Py.lower filename) = extract_frame_info filename.
Proof.
  split.
  - unfold extract_dedo_info. by rewrite lower_idem.
  - unfold extract_frame_info. by rewrite frame_search_lower.
Qed.

(** X3. The frame number is the run of digits behind the first
    [_frame_] tag, in any case: for a name that has the tag, then digits,
    then something that is not a digit, and no tag starting earlier. *)
Theorem extract_frame_info_first_tag (pre tag ds rest : string) :
  Py.lower tag = "_frame_" →
  occurs "_frame_" (Py.lower pre +:+ "_frame") = false →
  ds ≠ "" →
  Py.all_chars Py.is_decimal ds = true →
  Py.take_while Py.is_decimal rest = "" →
  extract_frame_info (pre +:+ tag +:+ ds +:+ rest) = Py.int_of_digits ds.
Proof.
  intros Htag Hocc Hne Hds Hrest. unfold extract_frame_info.
  assert (Hlen : String.length tag = 7%nat) by (by rewrite <- length_lower, Htag).
  rewrite frame_search_skip.
  - rewrite frame_search_unfold. unfold frame_match_here.
    rewrite lower_app, Htag, prefix_app.
    change 7%nat with (String.length "_frame_"). rewrite <- Htag, length_lower.
    rewrite slice_from_app, take_while_app, Hrest, app_empty_r by done.
    by destruct ds.
  - intros p1 p2 -> Hp2. unfold frame_match_here.
    destruct (String.prefix "_frame_" (Py.lower (p2 +:+ tag +:+ ds +:+ rest))) eqn:Hp; [|done].
    exfalso.
    assert (Heq : Py.lower (p2 +:+ tag +:+ ds +:+ rest)
                  = (Py.lower p2 +:+ "_frame") +:+ ("_" +:+ Py.lower (ds +:+ rest))).
    { rewrite !lower_app, Htag, app_assoc_s. reflexivity. }
    rewrite Heq in Hp.
    rewrite lower_app, app_assoc_s, occurs_app_r in Hocc; [done|].
    apply occurs_prefix. eapply prefix_shorter; [exact Hp|].
    rewrite length_app_s, length_lower. destruct p2; [done|]. cbn. lia.
Qed.

Lemma extract_frame_info_first_tag_witness :
  extract_frame_info ("dedao_d" +:+ "_FRAME_" +:+ "12" +:+ ".png") = Py.int_of_digits "12".
Proof.
  apply (extract_frame_info_first_tag "dedao_d" "_FRAME_" "12" ".png");
    (reflexivity || discriminate).
Defined.

(** X4. The label is always one of sixteen: ["Desconhecido"], one of the
    five fingers, or a finger and one of the two sides. *)
Theorem extract_dedo_info_label (filename : string) :
  extract_dedo_info filename ∈ all_labels.
Proof.
  unfold extract_dedo_info. rewrite scan_parts_last.
  assert (Hfinger : ∀ f, last_match finger_of (Py.split "_" (Py.lower filename)) = Some f →
                         f ∈ finger_names).
  { intros f (tok & _ & Hf)%last_match_elem. unfold finger_of in Hf.
    repeat case_decide; simplify_eq; by apply (bool_decide_unpack _). }
  assert (Hside : ∀ s, last_match side_of (Py.split "_" (Py.lower filename)) = Some s →
                       s ∈ side_names).
  { intros s (tok & _ & Hs)%last_match_elem.
    assert (∀ c, side_name c = Some s → s ∈ side_names) as Hname.
    { intros c. unfold side_name. repeat case_decide; intros; simplify_eq;
        by apply (bool_decide_unpack _). }
    destruct tok as [|c0 [|c1 [|c2 t]]]; cbn [side_of] in Hs; try done.
    - by apply (Hname c0).
    - destruct (Py.isdigit c0); [by apply (Hname c1)|done]. }
  destruct (last_match finger_of _) as [f|]; cbn [default from_option Datatypes.id];
    [|by apply (bool_decide_unpack _)].
  specialize (Hfinger f eq_refl).
  destruct (last_match side_of _) as [s|]; cbn [default from_option Datatypes.id].
  - specialize (Hside s eq_refl). unfold finger_names in Hfinger. unfold side_names in Hside.
    repeat (apply elem_of_cons in Hfinger as [->|Hfinger]);
      [..|by apply elem_of_nil in Hfinger];
      (repeat (apply elem_of_cons in Hside as [->|Hside]);
       [..|by apply elem_of_nil in Hside]);
      by apply (bool_decide_unpack _).
  - unfold finger_names in Hfinger.
    repeat (apply elem_of_cons in Hfinger as [->|Hfinger]);
      [..|by apply elem_of_nil in Hfinger];
      by apply (bool_decide_unpack _).
Qed.

(** ** More of the catalog *)

Section Catalog.

Lemma splitext_parts p : (Py.splitext p).1 +:+ (Py.splitext p).2 = p.
Proof.
  unfold Py.splitext. destruct (_ <? _); [|apply app_empty_r].
  destruct (Py.all_chars _ _); [apply app_empty_r|]. apply slice_to_from.
Qed.

Lemma from_last_snoc {A} (k : nat) (l : list A) (x : A) :
  from_last (S k) (l ++ [x]) = from_last k l.
Proof. unfold from_last. by rewrite reverse_snoc. Qed.

(** An item of the catalog is the item of a kept file. *)
Lemma organize_files_item zip_path temp_dir tree item :
  item ∈ sort_by tuple_lt sort_key (unsorted_items zip_path temp_dir tree) →
  ∃ root file,
    (root, file) ∈ valid_files temp_dir tree
    ∧ item = item_of (archive_date zip_path).1 (archive_date zip_path).2
                     (Py.join root file) file (path_parts temp_dir (Py.join root file)).
Proof.
  rewrite sort_by_perm. unfold unsorted_items.
  intros ([root file] & -> & Hkept)%list_elem_of_fmap.
  rewrite kept_files_valid_files in Hkept. by exists root, file.
Qed.

End Catalog.

(** X5. Every item of the catalog keeps the name of its file in two
    parts, the stem and one of the eight extensions in some case, and its
    label and frame number are read from the stem. *)
Theorem organize_files_stem_and_extension (zip_path temp_dir : string)
    (tree : list entry) :
  ∃ l,
    organize_files zip_path temp_dir tree = Py.Ok l
    ∧ ∀ item, item ∈ l →
        ∃ ext,
          filename item = nome_sem_ext item +:+ ext
          ∧ Py.lower ext ∈ valid_extensions
          ∧ ZipLoaderThread.dedo item = extract_dedo_info (nome_sem_ext item)
          ∧ frame item = extract_frame_info (nome_sem_ext item).
Proof.
  eexists. split; [apply organize_files_ok|].
  intros item (root & file & Hin & ->)%organize_files_item.
  apply list_elem_of_filter in Hin as [Hvalid _]. cbn [snd] in Hvalid.
  exists (Py.splitext file).2. cbn [filename nome_sem_ext ZipLoaderThread.dedo frame item_of].
  split_and!; [by rewrite splitext_parts| |done|done].
  unfold is_valid in Hvalid. by apply bool_decide_eq_true in Hvalid.
Qed.

(** X6. The month and the year of every item are those of the leftmost
    place of the base name of the archive where four digits, a space or
    an underscore, and two digits stand; without such a place they are
    [??] and [????]. *)
Theorem organize_files_month_and_year (zip_path temp_dir : string) (tree : list entry) :
  ∃ l ano mes,
    organize_files zip_path temp_dir tree = Py.Ok l
    ∧ (leftmost_date (Py.basename zip_path) ano mes
       ∨ (no_date (Py.basename zip_path) ∧ ano = "????" ∧ mes = "??"))
    ∧ ∀ item, item ∈ l →
        ∃ dia, ZipLoaderThread.data item = dia +:+ "/" +:+ mes +:+ "/" +:+ ano.
Proof.
  exists (sort_by tuple_lt sort_key (unsorted_items zip_path temp_dir tree)),
         (archive_date zip_path).1, (archive_date zip_path).2.
  split_and!; [apply organize_files_ok| |].
  - unfold archive_date. pose proof (regex_date_search_first (Py.basename zip_path)) as H.
    destruct (regex_date_search (Py.basename zip_path)) as [[y m]|];
      cbn [default from_option Datatypes.id fst snd]; [by left|by right].
  - intros item (root & file & _ & ->)%organize_files_item. by eexists.
Qed.

(** X7. Where the scratch path is not empty, does not end in a
    separator and does not occur again behind itself in the path of a
    file, the id of an item is the name of the directory that holds the
    file, and its day the name of the directory above that one; a file
    with fewer directories between it and the scratch directory has the
    id [Unknown] or the day [??]. *)
Theorem organize_files_day_and_id (zip_path temp_dir : string) (tree : list entry) :
  temp_dir ≠ "" → Py.endswith_char Py.sep temp_dir = false →
  (∀ d n segs, (d, n, segs) ∈ relative_paths temp_dir tree →
     Forall wf_name segs ∧ occurs temp_dir (slashed segs) = false) →
  ∃ l,
    organize_files zip_path temp_dir tree = Py.Ok l
    ∧ ∀ item, item ∈ l →
        ∃ d dirs,
          (d, filename item, dirs ++ [filename item]) ∈ relative_paths temp_dir tree
          ∧ file_path item = temp_dir +:+ slashed (dirs ++ [filename item])
          ∧ ZipLoaderThread.id item = default "Unknown" (from_last 0 dirs)
          ∧ ZipLoaderThread.data item
            = default "??" (from_last 1 dirs)
              +:+ "/" +:+ (archive_date zip_path).2 +:+ "/" +:+ (archive_date zip_path).1.
Proof.
  intros Hne Hend Htree.
  destruct (organize_files_fields_of_relative_path zip_path temp_dir tree Hne Hend Htree)
    as (l & Hl & Hitems).
  exists l. split; [done|]. intros item Hitem.
  destruct (Hitems item Hitem) as (d & n & segs & Hsegs & ->).
  assert (∃ dirs, segs = dirs ++ [n]) as [dirs ->].
  { unfold relative_paths in Hsegs. apply elem_of_concat_map in Hsegs as (c & _ & Hin).
    destruct (segments_under_shape c _ _ _ _ _ Hin) as [mid ->]. by exists mid. }
  exists d, dirs. cbn [filename file_path ZipLoaderThread.id ZipLoaderThread.data item_of].
  by rewrite !from_last_snoc.
Qed.

Lemma organize_files_day_and_id_witness :
  ∃ l,
    organize_files "/home/u/Coleta_2024 05.zip" "/tmp/x"
                   [Dir "15" [Dir "SUBJ01" [File "dedao_d_frame_12.jpg"]]] = Py.Ok l
    ∧ ∀ item, item ∈ l →
        ∃ d dirs,
          (d, filename item, dirs ++ [filename item])
            ∈ relative_paths "/tmp/x" [Dir "15" [Dir "SUBJ01" [File "dedao_d_frame_12.jpg"]]]
          ∧ file_path item = "/tmp/x" +:+ slashed (dirs ++ [filename item])
          ∧ ZipLoaderThread.id item = default "Unknown" (from_last 0 dirs)
          ∧ ZipLoaderThread.data item
            = default "??" (from_last 1 dirs)
              +:+ "/" +:+ (archive_date "/home/u/Coleta_2024 05.zip").2
              +:+ "/" +:+ (archive_date "/home/u/Coleta_2024 05.zip").1.
Proof.
  apply (organize_files_day_and_id "/home/u/Coleta_2024 05.zip" "/tmp/x"
           [Dir "15" [Dir "SUBJ01" [File "dedao_d_frame_12.jpg"]]]); [done|done|].
  intros d n segs Hin. vm_compute in Hin.
  apply list_elem_of_singleton in Hin. injection Hin as -> -> ->.
  split; [|reflexivity].
  repeat constructor; done.
Defined.

(** ** More of run *)

Section RunSignals.

Context (lib : ZipLib) (zip_path temp_dir : string).

(** The loop emits progress events only. *)
Lemma extract_members_progress total members :
  ∀ i w, ∃ evs,
    emitted (extract_members lib zip_path temp_dir total i members w).2 = emitted w ++ evs
    ∧ Forall is_progress evs.
Proof.
  induction members as [|member rest IH]; intros i w.
  - exists []. cbn. by rewrite app_nil_r.
  - cbn [extract_members].
    destruct (zip_extract lib zip_path member temp_dir (scratch w)) as [t1|e];
      [|exists []; cbn; by rewrite app_nil_r].
    destruct (percent_of i total) as [p|e]; [|exists []; cbn; by rewrite app_nil_r].
    destruct (IH (i + 1) (emit (Progress p ("Extraindo: " +:+ member))
                              {| scratch := t1; emitted := emitted w |}))
      as (evs & -> & Hevs).
    exists (Progress p ("Extraindo: " +:+ member) :: evs). split.
    + cbn. by rewrite <- app_assoc.
    + by constructor.
Qed.

End RunSignals.

(** X8. Whatever the archive does, [run] sends the initial progress
    event, then progress events only, and last exactly one of the two
    closing signals: the completion, with the catalog of the scratch
    directory as the run left it, or the error. *)
Theorem run_one_closing_signal (lib : ZipLib) (zip_path temp_dir : string)
    (tree : list entry) :
  ∃ evs last,
    emitted (run lib zip_path temp_dir tree) = Progress 0 msg_iniciando :: evs ++ [last]
    ∧ Forall is_progress evs
    ∧ match last with
      | Finished media =>
          organize_files zip_path temp_dir (scratch (run lib zip_path temp_dir tree))
          = Py.Ok media
      | Error _ => True
      | Progress _ _ => False
      end.
Proof.
  unfold run.
  destruct (zip_namelist lib zip_path) as [file_list|e].
  - pose proof (extract_members_progress lib zip_path temp_dir
                  (Z.of_nat (length file_list)) file_list 0
                  (emit (Progress 0 msg_iniciando) {| scratch := tree; emitted := [] |}))
      as (evs & Hevs & Hprog).
    destruct (extract_members _ _ _ _ _ _ _) as [[[]|e] w1]; cbn [snd] in Hevs.
    + rewrite organize_files_ok. cbn [emit scratch emitted] in *. rewrite Hevs.
      exists (evs ++ [Progress 100 "Organizando arquivos..."]), (Finished
        (sort_by tuple_lt sort_key (unsorted_items zip_path temp_dir (scratch w1)))).
      split_and!.
      * cbn. by rewrite <- !app_assoc.
      * apply Forall_app. split; [done|]. by repeat constructor.
      * apply organize_files_ok.
    + cbn [emit scratch emitted] in *. rewrite Hevs. by exists evs, (Error e).
  - by exists [], (Error e).
Qed.

Section RunRaises.

Context (lib : ZipLib) (zip_path temp_dir : string).

(** The events of a run in which the extraction of a member raises. *)
Lemma run_raises_events (tree : list entry) (file_list : list string) (k : nat)
    (member : string) (tree_k : list entry) (e : string) :
  zip_namelist lib zip_path = Py.Ok file_list →
  Z.of_nat (length file_list) < 2 ^ 53 →
  file_list !! k = Some member →
  extract_all lib zip_path temp_dir (take k file_list) tree = Py.Ok tree_k →
  zip_extract lib zip_path member temp_dir tree_k = Py.Raise e →
  ∃ evs,
    run lib zip_path temp_dir tree
    = {| scratch := zip_extract_leaves lib zip_path member temp_dir tree_k;
         emitted := [Progress 0 msg_iniciando] ++ evs ++ [Error e] |}
    ∧ length evs = k
    ∧ ∀ j m, (j < k)%nat → file_list !! j = Some m →
        ∃ p, percent_of (Z.of_nat j) (Z.of_nat (length file_list)) = Py.Ok p
             ∧ evs !! j = Some (Progress p ("Extraindo: " +:+ m)).
Proof.
  intros Hlist Hbound Hk Hall Hraise.
  pose proof (lookup_lt_Some _ _ _ Hk) as Hlt.
  set (total := Z.of_nat (length file_list)).
  set (w0 := emit (Progress 0 msg_iniciando) {| scratch := tree; emitted := [] |}).
  destruct (extract_members_ok lib zip_path temp_dir total (take k file_list)
              Hbound 0 w0 tree_k)
    as (evs & Hloop & Hlen & Hevs); [lia|rewrite length_take; subst total; lia|done|].
  exists evs. split_and!.
  - unfold run. rewrite Hlist. fold total w0.
    rewrite <- (take_drop k file_list) at 1.
    rewrite extract_members_app, Hloop, (drop_S _ _ _ Hk).
    cbn [extract_members scratch]. rewrite Hraise. cbn [emit scratch emitted w0].
    by rewrite <- app_assoc.
  - rewrite Hlen, length_take. lia.
  - intros j m Hj Hm. destruct (Hevs j m) as (p & Hp & Hev); [by rewrite lookup_take_lt|].
    exists p. by rewrite Z.add_0_l in Hp.
Qed.

End RunRaises.

(** X9. When the extraction of a member raises, in an archive of fewer
    than [2 ^ 53] members, [run] has sent one progress event for
    each member before it and sends the text of the exception as the
    error; there is no completion. Nothing is cleaned up: the scratch
    directory is left as the failing extraction leaves it, on top of
    what the members before have put there. *)
Theorem run_extraction_raises (lib : ZipLib) (zip_path temp_dir : string)
    (tree : list entry) (file_list : list string) (k : nat) (member : string)
    (tree_k : list entry) (e : string) :
  zip_namelist lib zip_path = Py.Ok file_list →
  Z.of_nat (length file_list) < 2 ^ 53 →
  file_list !! k = Some member →
  extract_all lib zip_path temp_dir (take k file_list) tree = Py.Ok tree_k →
  zip_extract lib zip_path member temp_dir tree_k = Py.Raise e →
  ∃ evs,
    run lib zip_path temp_dir tree
    = {| scratch := zip_extract_leaves lib zip_path member temp_dir tree_k;
         emitted := [Progress 0 msg_iniciando] ++ evs ++ [Error e] |}
    ∧ length evs = k
    ∧ ∀ j m, (j < k)%nat → file_list !! j = Some m →
        ∃ p, evs !! j = Some (Progress p ("Extraindo: " +:+ m)).
Proof.
  intros Hlist Hbound Hk Hall Hraise.
  destruct (run_raises_events lib zip_path temp_dir tree file_list k member tree_k e
              Hlist Hbound Hk Hall Hraise) as (evs & Hrun & Hlen & Hevs).
  exists evs. split_and!; [done|done|].
  intros j m Hj Hm. destruct (Hevs j m Hj Hm) as (p & _ & Hp). by exists p.
Qed.

Lemma run_extraction_raises_witness :
  ∃ evs,
    run (archive_with_bad_member ["a.jpg"; "b.jpg"; "c.jpg"] "b.jpg") "x.zip" "/tmp/x" []
    = {| scratch := [File "a.jpg"; File "b.jpg"];
         emitted := [Progress 0 msg_iniciando] ++ evs ++ [Error "Bad CRC-32"] |}
    ∧ length evs = 1%nat
    ∧ ∀ j m, (j < 1)%nat → ["a.jpg"; "b.jpg"; "c.jpg"] !! j = Some m →
        ∃ p, evs !! j = Some (Progress p ("Extraindo: " +:+ m)).
Proof.
  apply (run_extraction_raises
           (archive_with_bad_member ["a.jpg"; "b.jpg"; "c.jpg"] "b.jpg") "x.zip" "/tmp/x" []
           ["a.jpg"; "b.jpg"; "c.jpg"] 1 "b.jpg" [File "a.jpg"] "Bad CRC-32").
  - reflexivity.
  - reflexivity.
  - reflexivity.
  - reflexivity.
  - reflexivity.
Defined.

(** ** The window: navigation and resuming *)

Section Window.

Context (js : JsonLib).

(** The empty document is the document of the empty ledger. *)
Lemma ledger_json_empty : ledger_json ∅ = Json.Dict ∅.
Proof. unfold ledger_json. by rewrite fmap_empty. Qed.

(** Where [json.load] reads only ledgers, every file holds one. *)
Lemma reads_ledgers_holds env disk :
  reads_ledgers js → ∃ L, holds_ledger js env disk L.
Proof.
  intros Hjs. unfold holds_ledger, load_resultado_json, open_read, try_except.
  destruct disk as [text|]; [|exists ∅; by rewrite ledger_json_empty]. cbn.
  destruct (open_read_error env); [exists ∅; by rewrite ledger_json_empty|]. cbn.
  destruct (json_load js text) as [D|e] eqn:HD; cbn.
  - destruct (Hjs text D HD) as [L ->]. by exists L.
  - exists ∅. by rewrite ledger_json_empty.
Qed.

(** The loop of [load_progress_data] touches the set of evaluated files
    only. *)
Lemma add_entradas_fields st lista :
  media_files (add_entradas st lista).2 = media_files st
  ∧ current_zip_name (add_entradas st lista).2 = current_zip_name st
  ∧ current_media_index (add_entradas st lista).2 = current_media_index st
  ∧ erros_atuais (add_entradas st lista).2 = erros_atuais st.
Proof.
  revert st. induction lista as [|entrada rest IH]; intros st; [done|].
  cbn [add_entradas].
  destruct (Json.getitem entrada "arquivo") as [a|e]; cbn [mbind Py.result_bind]; [|done].
  destruct (add_evaluated st a) as [st1|e] eqn:Hadd; [|done].
  destruct (IH st1) as (-> & -> & -> & ->).
  unfold add_evaluated in Hadd.
  destruct a; try discriminate; injection Hadd as <-; done.
Qed.

Lemma load_progress_data_fields env disk st :
  media_files (load_progress_data js env disk st).2 = media_files st
  ∧ current_zip_name (load_progress_data js env disk st).2 = current_zip_name st
  ∧ current_media_index (load_progress_data js env disk st).2 = current_media_index st
  ∧ erros_atuais (load_progress_data js env disk st).2 = erros_atuais st.
Proof.
  unfold load_progress_data.
  destruct (_ ≫= _) as [[lista|]|e]; [|done|done].
  destruct (add_entradas_fields
              {| media_files := media_files st;
                 current_zip_name := current_zip_name st;
                 current_media_index := current_media_index st;
                 erros_atuais := erros_atuais st;
                 evaluated_files := ∅;
                 evaluated_others := [] |} lista) as (-> & -> & -> & ->).
  done.
Qed.

(** Over the records of a ledger the loop adds their file names. *)
Lemma add_entradas_ledger st (l : list Entrada) :
  add_entradas st (entrada_json <$> l)
  = (Py.Ok (),
     {| media_files := media_files st;
        current_zip_name := current_zip_name st;
        current_media_index := current_media_index st;
        erros_atuais := erros_atuais st;
        evaluated_files := list_to_set (arquivo <$> l) ∪ evaluated_files st;
        evaluated_others := evaluated_others st |}).
Proof.
  revert st. induction l as [|e l IH]; intros st.
  - cbn. rewrite (left_id_L ∅ (∪)). by destruct st.
  - cbn [fmap list_fmap add_entradas]. rewrite entrada_json_arquivo.
    cbn [mbind Py.result_bind add_evaluated]. fold (fmap entrada_json l). rewrite IH.
    cbn. do 2 f_equal. rewrite (assoc_L (∪)). f_equal. apply (comm_L (∪)).
Qed.

Lemma load_progress_data_ledger env disk st (L : Ledger) :
  holds_ledger js env disk L →
  load_progress_data js env disk st
  = (Py.Ok (),
     {| media_files := media_files st;
        current_zip_name := current_zip_name st;
        current_media_index := current_media_index st;
        erros_atuais := erros_atuais st;
        evaluated_files := recorded_files L (current_zip_name st);
        evaluated_others := [] |}).
Proof.
  intros HL. unfold load_progress_data. rewrite HL.
  cbn [mbind Py.result_bind current_zip_name]. unfold ledger_json.
  cbn [Json.contains Json.getitem mbind Py.result_bind]. unfold recorded_files.
  rewrite !lookup_fmap. destruct (L !! current_zip_name st) as [l|] eqn:Hl;
    cbn [fmap option_fmap option_map].
  - rewrite bool_decide_eq_true_2 by done.
    cbn [fmap option_fmap option_map mbind Py.result_bind Json.iter].
    rewrite add_entradas_ledger. cbn. by rewrite (right_id_L ∅ (∪)).
  - rewrite bool_decide_eq_false_2 by (by intros [? ?]). done.
Qed.

Lemma first_unevaluated_lt media (evaluated : gset string) :
  media ≠ [] → (first_unevaluated media evaluated < length media)%nat.
Proof.
  intros Hne. unfold first_unevaluated.
  destruct (list_find _ _) as [[i x]|] eqn:Hf.
  - apply list_find_Some in Hf as (Hi & _). by eapply lookup_lt_Some.
  - destruct media; [done|]. cbn. lia.
Qed.

Lemma first_unevaluated_before media (evaluated : gset string) i x :
  (i < first_unevaluated media evaluated)%nat → media !! i = Some x →
  filename x ∈ evaluated.
Proof.
  unfold first_unevaluated. destruct (list_find _ _) as [[k y]|] eqn:Hf; [|lia].
  apply list_find_Some in Hf as (_ & _ & Hbefore). intros Hi Hx.
  destruct (decide (filename x ∈ evaluated)); [done|]. by destruct (Hbefore i x Hx Hi).
Qed.

Lemma first_unevaluated_hit media (evaluated : gset string) x :
  x ∈ media → filename x ∉ evaluated →
  ∃ y, media !! first_unevaluated media evaluated = Some y ∧ filename y ∉ evaluated.
Proof.
  intros Hx Hno. unfold first_unevaluated.
  destruct (list_find _ _) as [[k y]|] eqn:Hf.
  - apply list_find_Some in Hf as (Hk & Hy & _). by exists y.
  - apply list_find_None in Hf. rewrite Forall_forall in Hf. by destruct (Hf x Hx).
Qed.

Lemma on_zip_finished_ledger env disk st media (L : Ledger) :
  holds_ledger js env disk L →
  media ≠ [] →
  on_zip_finished js env disk st media
  = (Py.Ok (Some (Z.of_nat (length media),
                  Z.of_nat (size (recorded_files L (current_zip_name st))),
                  Z.of_nat (length media)
                  - Z.of_nat (size (recorded_files L (current_zip_name st))))),
     {| media_files := media;
        current_zip_name := current_zip_name st;
        current_media_index :=
          resume_index media (recorded_files L (current_zip_name st));
        erros_atuais := erros_atuais st;
        evaluated_files := recorded_files L (current_zip_name st);
        evaluated_others := [] |}).
Proof.
  intros HL Hne. unfold on_zip_finished. rewrite bool_decide_eq_false_2 by done.
  rewrite (load_progress_data_ledger _ _ _ L HL).
  unfold len_evaluated, resume_index, with_index. cbn. by rewrite Nat.add_0_r.
Qed.

(** The catalog has been taken when [on_zip_finished] returns or
    raises; the index is that of [resume_index] or the one before. *)
Lemma on_zip_finished_media env disk st media :
  media ≠ [] → media_files (on_zip_finished js env disk st media).2 = media.
Proof.
  intros Hne. unfold on_zip_finished. rewrite bool_decide_eq_false_2 by done.
  set (st0 := {| media_files := media |}).
  destruct (load_progress_data_fields env disk st0) as (Hm & _).
  destruct (load_progress_data js env disk st0) as [[u|e] st1]; cbn [snd] in *; done.
Qed.

Lemma resume_index_lt media (evaluated : gset string) :
  media ≠ [] → (resume_index media evaluated < length media)%nat.
Proof.
  intros Hne. unfold resume_index. case_bool_decide.
  - destruct media; [done|]. cbn. lia.
  - by apply first_unevaluated_lt.
Qed.

Lemma jump_cases (st : State) :
  (jump_to_next_unevaluated st = st
   ∧ ∀ i x, (current_media_index st < i)%nat → media_files st !! i = Some x →
            filename x ∈ evaluated_files st)
  ∨ ∃ i x,
      jump_to_next_unevaluated st = with_index st i
      ∧ (current_media_index st < i)%nat
      ∧ media_files st !! i = Some x
      ∧ (filename x ∉ evaluated_files st)
      ∧ ∀ j y, (current_media_index st < j < i)%nat → media_files st !! j = Some y →
               filename y ∈ evaluated_files st.
Proof.
  unfold jump_to_next_unevaluated.
  destruct (list_find _ _) as [[k x]|] eqn:Hf.
  - right. apply list_find_Some in Hf as (Hk & Hx & Hbefore).
    rewrite lookup_drop in Hk.
    exists (S (current_media_index st) + k)%nat, x. split_and!; [done|lia|done|done|].
    intros j y Hj Hy.
    destruct (decide (filename y ∈ evaluated_files st)); [done|].
    destruct (Hbefore (j - S (current_media_index st))%nat y); [|lia|done].
    rewrite lookup_drop. by replace (S (current_media_index st)
                                     + (j - S (current_media_index st)))%nat with j by lia.
  - left. split; [done|]. apply list_find_None in Hf. rewrite Forall_lookup in Hf.
    intros i x Hi Hx.
    destruct (decide (filename x ∈ evaluated_files st)); [done|].
    destruct (Hf (i - S (current_media_index st))%nat x); [|done].
    rewrite lookup_drop. by replace (S (current_media_index st)
                                     + (i - S (current_media_index st)))%nat with i by lia.
Qed.

Lemma jump_in_range (st : State) :
  in_range st → in_range (jump_to_next_unevaluated st).
Proof.
  intros Hst. destruct (jump_cases st) as [[-> _]|(i & x & -> & _ & Hi & _)]; [done|].
  right. cbn. by eapply lookup_lt_Some.
Qed.

(** What a successful save over a ledger has done. *)
Lemma salvar_anotacao_sucesso env disk st a n disk' st' (L : Ledger) :
  holds_ledger js env disk L →
  salvar_anotacao js env disk st = (Py.Ok (Sucesso a n), disk', st') →
  ∃ item,
    media_files st !! current_media_index st = Some item
    ∧ a = filename item
    ∧ disk' = Some (json_dump js (ledger_json (saved_ledger L env st)))
    ∧ st' = after_save st item.
Proof.
  intros HL. unfold saved_ledger.
  destruct (salvar_anotacao_cases js env disk st) as [(d & -> & Hd)|[item Hready]].
  { intros [= -> _ _]. done. }
  rewrite (salvar_anotacao_ready js env disk st item Hready).
  destruct Hready as (_ & _ & Hitem & _). rewrite Hitem.
  unfold holds_ledger in HL. rewrite HL. cbn [mbind Py.result_bind].
  rewrite upsert_json_ledger.
  pose proof (save_resultado_json_cases js env disk
                (ledger_json (upsert L (current_zip_name st) item
                                     (imap (novo_erro env) (erros_atuais st))))) as Hc.
  destruct (save_resultado_json js env disk _) as [[[|] disk1] data1]; [|done].
  destruct Hc as (_ & -> & _). intros [= <- <- <- <-]. by exists item.
Qed.

(** A call of [salvar_anotacao] leaves the window as it was or as
    [after_save] makes it. *)
Lemma salvar_anotacao_state env disk st :
  ((salvar_anotacao js env disk st).1.1 = Py.Ok NenhumaMidia →
   media_files st ≠ [] ∧ media_files st !! current_media_index st = None)
  ∧ ((salvar_anotacao js env disk st).2 = st
     ∨ ∃ item, (salvar_anotacao js env disk st).2 = after_save st item).
Proof.
  unfold salvar_anotacao.
  case_bool_decide; [split; [done|by left]|].
  destruct (String.eqb _ _); [split; [done|by left]|].
  destruct (media_files st !! current_media_index st) as [item|];
    [|split; [done|by left]].
  case_bool_decide; [split; [done|by left]|].
  destruct (filter _ _); [|split; [done|by left]].
  destruct (_ ≫= _) as [D|e]; [|split; [done|by left]].
  destruct (save_resultado_json js env disk D) as [[[|] disk1] data1];
    (split; [done|]); [right; by eexists|by left].
Qed.

Lemma window_step_in_range w ev :
  reads_ledgers js → in_range w.2 → in_range (window_step js w ev).2.
Proof.
  destruct w as [disk st], ev as [env e]. cbn [snd]. intros Hjs Hst.
  destruct e as [file_path|media| | |erros|]; cbn [window_step].
  - unfold load_zip_file. destruct (String.eqb _ _); [done|]. by left.
  - destruct (decide (media = [])) as [->|Hne]; [done|].
    destruct (reads_ledgers_holds env disk Hjs) as [L HL].
    rewrite (on_zip_finished_ledger _ _ _ _ L HL Hne). cbn [snd]. right. cbn.
    by apply resume_index_lt.
  - unfold next_image. case_bool_decide; [done|].
    destruct (Z.ltb_spec (Z.of_nat (current_media_index st))
                         (Z.of_nat (length (media_files st)) - 1)); [|done].
    right. cbn. lia.
  - unfold prev_image. case_bool_decide; [done|].
    destruct (Nat.ltb_spec 0 (current_media_index st)); [|done].
    destruct Hst as [?|Hst]; [done|]. right. cbn. lia.
  - done.
  - destruct (salvar_anotacao_state env disk st) as [_ Hst'].
    destruct (salvar_anotacao js env disk st) as [[r disk'] st']. cbn [snd] in *.
    destruct Hst' as [->|[item ->]]; [done|].
    unfold after_save. apply jump_in_range. done.
Qed.

End Window.

(** X10. After a save the view moves forward only: to the first later
    item whose file is not evaluated, over items that all are, or it
    stays where it is when every later item is evaluated. The catalog,
    the set of evaluated files and the selection are not touched, and an
    item before the current one is never visited. *)
Theorem jump_to_next_unevaluated_forward (st : State) :
  media_files (jump_to_next_unevaluated st) = media_files st
  ∧ evaluated_files (jump_to_next_unevaluated st) = evaluated_files st
  ∧ erros_atuais (jump_to_next_unevaluated st) = erros_atuais st
  ∧ ((jump_to_next_unevaluated st = st
      ∧ ∀ i x, (current_media_index st < i)%nat → media_files st !! i = Some x →
               filename x ∈ evaluated_files st)
     ∨ ((current_media_index st < current_media_index (jump_to_next_unevaluated st))%nat
        ∧ (∃ x, media_files st !! current_media_index (jump_to_next_unevaluated st) = Some x
                ∧ filename x ∉ evaluated_files st)
        ∧ ∀ j y,
            (current_media_index st < j
             < current_media_index (jump_to_next_unevaluated st))%nat →
            media_files st !! j = Some y → filename y ∈ evaluated_files st)).
Proof.
  destruct (jump_cases st) as [[Heq Hall]|(i & x & Heq & Hlt & Hx & Hno & Hbetween)];
    rewrite Heq.
  - split_and!; [done..|]. by left.
  - split_and!; [done..|]. right. cbn. split_and!; [done| |done]. by exists x.
Qed.

(** X11. When the extractor finishes with a catalog that is not empty,
    the window takes it, also when loading the progress then raises.
    Where the file holds a ledger, nothing raises: the window marks as
    evaluated exactly the files that have a record under the name of
    the archive in that ledger, and puts the view on an item of the
    catalog with only evaluated items before it; the summary counts the
    items, the recorded files and their difference. *)
Theorem on_zip_finished_takes_catalog (js : JsonLib) (env : Env) (disk : Storage)
    (st : State) (media : list MediaItem) :
  media ≠ [] →
  media_files (on_zip_finished js env disk st media).2 = media
  ∧ ∀ L : Ledger,
      holds_ledger js env disk L →
      ∃ st',
        on_zip_finished js env disk st media
        = (Py.Ok (Some (Z.of_nat (length media),
                        Z.of_nat (size (evaluated_files st')),
                        Z.of_nat (length media) - Z.of_nat (size (evaluated_files st')))),
           st')
        ∧ media_files st' = media
        ∧ current_zip_name st' = current_zip_name st
        ∧ evaluated_files st' = recorded_files L (current_zip_name st)
        ∧ (current_media_index st' < length media)%nat
        ∧ ∀ i x, (i < current_media_index st')%nat → media !! i = Some x →
                 filename x ∈ evaluated_files st'.
Proof.
  intros Hne. split; [by apply on_zip_finished_media|]. intros L HL.
  rewrite (on_zip_finished_ledger js env disk st media L HL Hne).
  exists {| media_files := media;
            current_zip_name := current_zip_name st;
            current_media_index :=
              resume_index media (recorded_files L (current_zip_name st));
            erros_atuais := erros_atuais st;
            evaluated_files := recorded_files L (current_zip_name st);
            evaluated_others := [] |}.
  split; [reflexivity|]. cbn.
  split_and!; [done..|by apply resume_index_lt|].
  unfold resume_index. case_bool_decide; [lia|]. apply first_unevaluated_before.
Qed.

Lemma on_zip_finished_takes_catalog_witness :
  media_files (on_zip_finished json_of_number env_ok (Some "5") sample_state
                               [sample_item]).2 = [sample_item]
  ∧ ∃ st',
      on_zip_finished json_of_empty env_ok None sample_state [sample_item]
      = (Py.Ok (Some (Z.of_nat (length [sample_item]),
                      Z.of_nat (size (evaluated_files st')),
                      Z.of_nat (length [sample_item])
                      - Z.of_nat (size (evaluated_files st')))),
         st')
      ∧ media_files st' = [sample_item]
      ∧ current_zip_name st' = current_zip_name sample_state
      ∧ evaluated_files st' = recorded_files ∅ (current_zip_name sample_state)
      ∧ (current_media_index st' < length [sample_item])%nat
      ∧ ∀ i x, (i < current_media_index st')%nat → [sample_item] !! i = Some x →
               filename x ∈ evaluated_files st'.
Proof.
  split.
  - apply (on_zip_finished_takes_catalog json_of_number env_ok (Some "5") sample_state
             [sample_item]).
    discriminate.
  - apply (proj2 (on_zip_finished_takes_catalog json_of_empty env_ok None sample_state
                    [sample_item] ltac:(discriminate)) ∅).
    reflexivity.
Defined.

(** Over a file that holds a number, loading the progress raises after
    the catalog has been taken, and a save raises before anything is
    written. *)
Example ill_shaped_ledger_raises :
  on_zip_finished json_of_number env_ok (Some "5")
                  (load_zip_file sample_state "/home/u/Coleta_2024 05.zip") [sample_item]
  = (Py.Raise "TypeError",
     {| media_files := [sample_item];
        current_zip_name := "Coleta_2024 05.zip";
        current_media_index := 0;
        erros_atuais := erros_atuais sample_state;
        evaluated_files := ∅;
        evaluated_others := [] |})
  ∧ salvar_anotacao json_of_number env_ok (Some "5") sample_state
    = (Py.Raise "TypeError", Some "5", sample_state).
Proof. split; reflexivity. Qed.

(** X12. Where the file holds a ledger, the files of the catalog have
    distinct names and every file recorded under the archive is one of
    them, the view resumes on the first item that is not evaluated; when
    all are evaluated it is on the first item and no file is counted as
    pending. The count of pending files is never negative then. *)
Theorem on_zip_finished_first_pending (js : JsonLib) (env : Env) (disk : Storage)
    (st : State) (media : list MediaItem) (L : Ledger) :
  holds_ledger js env disk L →
  media ≠ [] →
  NoDup (filename <$> media) →
  recorded_files L (current_zip_name st) ⊆ list_to_set (filename <$> media) →
  ∃ st' total avaliados,
    on_zip_finished js env disk st media
    = (Py.Ok (Some (total, avaliados, total - avaliados)), st')
    ∧ 0 ≤ total - avaliados
    ∧ (∀ i x, (i < current_media_index st')%nat → media !! i = Some x →
              filename x ∈ evaluated_files st')
    ∧ ((∃ x, x ∈ media ∧ filename x ∉ evaluated_files st') →
       ∃ x, media !! current_media_index st' = Some x
            ∧ filename x ∉ evaluated_files st')
    ∧ ((∀ x, x ∈ media → filename x ∈ evaluated_files st') →
       current_media_index st' = 0%nat ∧ total - avaliados = 0).
Proof.
  intros HL Hne Hnd Hsub. rewrite (on_zip_finished_ledger js env disk st media L HL Hne).
  set (ev := recorded_files L (current_zip_name st)) in *.
  assert (Hsize : size (list_to_set (filename <$> media) : gset string) = length media).
  { by rewrite size_list_to_set, length_fmap. }
  pose proof (subseteq_size _ _ Hsub) as Hle. rewrite Hsize in Hle.
  assert (Hfull : size ev = length media → ∀ x, x ∈ media → filename x ∈ ev).
  { intros Heq x Hx.
    rewrite (set_subseteq_size_eq ev (list_to_set (filename <$> media)) Hsub) by lia.
    apply elem_of_list_to_set, list_elem_of_fmap. by exists x. }
  eexists _, _, _. split; [reflexivity|]. cbn. split_and!.
  - lia.
  - unfold resume_index. case_bool_decide; [lia|]. apply first_unevaluated_before.
  - intros (x & Hx & Hno). unfold resume_index. case_bool_decide as Heq.
    + destruct Hno. by apply Hfull.
    + by apply (first_unevaluated_hit media ev x).
  - intros Hall.
    assert (size ev = length media) as Heq.
    { rewrite <- Hsize. f_equal. apply set_eq. intros name. split; [apply Hsub|].
      intros (x & -> & Hx)%elem_of_list_to_set%list_elem_of_fmap. by apply Hall. }
    unfold resume_index. rewrite bool_decide_eq_true_2 by done. split; [done|lia].
Qed.

Lemma on_zip_finished_first_pending_witness :
  ∃ st' total avaliados,
    on_zip_finished json_of_empty env_ok None sample_state [sample_item]
    = (Py.Ok (Some (total, avaliados, total - avaliados)), st')
    ∧ 0 ≤ total - avaliados
    ∧ (∀ i x, (i < current_media_index st')%nat → [sample_item] !! i = Some x →
              filename x ∈ evaluated_files st')
    ∧ ((∃ x, x ∈ [sample_item] ∧ filename x ∉ evaluated_files st') →
       ∃ x, [sample_item] !! current_media_index st' = Some x
            ∧ filename x ∉ evaluated_files st')
    ∧ ((∀ x, x ∈ [sample_item] → filename x ∈ evaluated_files st') →
       current_media_index st' = 0%nat ∧ total - avaliados = 0).
Proof.
  apply (on_zip_finished_first_pending json_of_empty env_ok None sample_state
           [sample_item] ∅).
  - reflexivity.
  - discriminate.
  - repeat constructor. apply not_elem_of_nil.
  - intros name Hname. by apply elem_of_empty in Hname.
Defined.

(** X13. Where [json.load] reads only ledgers, whatever happens to the
    window, in any order and with any faults of the file system, the
    index of the current item stays an index of the catalog, so the item
    of the view is always there and a save never ends with the message
    that no image is loaded. *)
Theorem window_index_in_range (js : JsonLib) (w : Storage * State)
    (evs : list (Env * window_event)) :
  reads_ledgers js →
  in_range w.2 →
  in_range (foldl (window_step js) w evs).2
  ∧ ∀ env,
      (salvar_anotacao js env (foldl (window_step js) w evs).1
                       (foldl (window_step js) w evs).2).1.1
      ≠ Py.Ok NenhumaMidia.
Proof.
  intros Hjs Hw.
  assert (Hin : in_range (foldl (window_step js) w evs).2).
  { revert w Hw. induction evs as [|ev evs IH]; intros w Hw; [done|].
    cbn [foldl]. apply IH. by apply window_step_in_range. }
  split; [done|]. intros env Hsave.
  destruct (salvar_anotacao_state js env (foldl (window_step js) w evs).1
              (foldl (window_step js) w evs).2) as [Hd _].
  destruct (Hd Hsave) as [Hne Hnone]. destruct Hin as [?|Hlt]; [done|].
  apply lookup_lt_is_Some_2 in Hlt as [x Hx]. congruence.
Qed.

Lemma window_index_in_range_witness :
  in_range (foldl (window_step json_of_empty) (None, sample_state)
                  [(env_ok, NextImage); (env_ok, Salvar)]).2
  ∧ ∀ env,
      (salvar_anotacao json_of_empty env
         (foldl (window_step json_of_empty) (None, sample_state)
                [(env_ok, NextImage); (env_ok, Salvar)]).1
         (foldl (window_step json_of_empty) (None, sample_state)
                [(env_ok, NextImage); (env_ok, Salvar)]).2).1.1
      ≠ Py.Ok NenhumaMidia.
Proof.
  apply (window_index_in_range json_of_empty (None, sample_state)
           [(env_ok, NextImage); (env_ok, Salvar)]).
  - intros text D. cbn. destruct (String.eqb text "{}"); [|discriminate].
    intros [= <-]. exists ∅. reflexivity.
  - right. cbn. lia.
Defined.

Section Resume.

Context (js : JsonLib).

Lemma after_save_fields (st : State) (item : MediaItem) :
  current_zip_name (after_save st item) = current_zip_name st
  ∧ evaluated_files (after_save st item) = {[ filename item ]} ∪ evaluated_files st
  ∧ erros_atuais (after_save st item) = []
  ∧ media_files (after_save st item) = media_files st.
Proof.
  unfold after_save.
  destruct (jump_cases {| media_files := media_files st;
                          current_zip_name := current_zip_name st;
                          current_media_index := current_media_index st;
                          erros_atuais := [];
                          evaluated_files := {[ filename item ]} ∪ evaluated_files st;
                          evaluated_others := evaluated_others st |})
    as [[-> _]|(i & x & -> & _)]; done.
Qed.

Lemma recorded_files_upsert (L : Ledger) zip_name item novos :
  recorded_files (upsert L zip_name item novos) zip_name
  = {[ filename item ]} ∪ recorded_files L zip_name.
Proof.
  unfold recorded_files. rewrite upsert_same. cbn [default from_option Datatypes.id].
  rewrite upsert_entradas_arquivos, list_to_set_app_L.
  case_bool_decide as Hin; cbn [list_to_set]; rewrite ?(right_id_L ∅ (∪)).
  - apply (elem_of_list_to_set (C := gset string)) in Hin.
    symmetry. apply subseteq_union_1_L. by apply singleton_subseteq_l.
  - apply (comm_L (∪)).
Qed.

End Resume.

(** X14. A file that has been saved is found evaluated after a restart.
    When the file held a ledger, the save has succeeded and [json] reads
    back the document that was written, loading the progress from the
    file gives the files recorded before and the file just saved; the
    set kept in the window has grown by that file too, so the two agree
    after the save if they agreed before it. *)
Theorem salvar_anotacao_then_load_progress (js : JsonLib) (env env' : Env)
    (disk disk' : Storage) (st st' : State) (a : string) (n : nat) (L : Ledger) :
  holds_ledger js env disk L →
  salvar_anotacao js env disk st = (Py.Ok (Sucesso a n), disk', st') →
  open_read_error env' = None →
  json_load js (json_dump js (ledger_json (saved_ledger L env st)))
  = Py.Ok (ledger_json (saved_ledger L env st)) →
  ∃ st'',
    load_progress_data js env' disk' st' = (Py.Ok (), st'')
    ∧ evaluated_files st'' = {[ a ]} ∪ recorded_files L (current_zip_name st)
    ∧ evaluated_files st' = {[ a ]} ∪ evaluated_files st
    ∧ a ∈ evaluated_files st''.
Proof.
  intros HL (item & Hitem & -> & -> & ->)%(salvar_anotacao_sucesso js _ _ _ _ _ _ _ L HL)
         Hread Hjson.
  destruct (after_save_fields st item) as (Hzip & Hev & _).
  rewrite (load_progress_data_ledger js env' _ _ (saved_ledger L env st)).
  2:{ unfold holds_ledger, load_resultado_json, open_read, try_except.
      rewrite Hread. cbn. by rewrite Hjson. }
  eexists. split; [reflexivity|].
  cbn [evaluated_files]. rewrite Hzip.
  unfold saved_ledger. rewrite Hitem, recorded_files_upsert.
  split_and!; [done|done|]. by apply elem_of_union_l, elem_of_singleton.
Qed.

Lemma salvar_anotacao_then_load_progress_witness :
  ∃ st'',
    load_progress_data
      (json_exact_on (apply_saves ∅ [sample_op 3 "2025-01-01 10:00:00"])) env_ok
      (Some "{...}") (after_save sample_state sample_item) = (Py.Ok (), st'')
    ∧ evaluated_files st''
      = {[ "dedao_d_frame_12.jpg" ]} ∪ recorded_files ∅ (current_zip_name sample_state)
    ∧ evaluated_files (after_save sample_state sample_item)
      = {[ "dedao_d_frame_12.jpg" ]} ∪ evaluated_files sample_state
    ∧ "dedao_d_frame_12.jpg" ∈ evaluated_files st''.
Proof.
  apply (salvar_anotacao_then_load_progress
           (json_exact_on (apply_saves ∅ [sample_op 3 "2025-01-01 10:00:00"]))
           env_ok env_ok None (Some "{...}") sample_state
           (after_save sample_state sample_item) "dedao_d_frame_12.jpg" 1 ∅).
  - reflexivity.
  - vm_compute. reflexivity.
  - reflexivity.
  - vm_compute. reflexivity.
Defined.

(** ** The rating dialog *)

Section Ratings.

Import AvaliacaoDialog.

Context {A : Type}.

Implicit Types (d : AvaliacaoDialog.t A) (erros : list A).

Lemma restaurar_keys erros (saved : gmap nat Z) i v :
  avaliacoes (restaurar_avaliacoes (new erros) saved) !! i = Some v →
  (i < length erros)%nat ∧ saved !! i = Some v.
Proof.
  cbn [restaurar_avaliacoes avaliacoes new erros_selecionados].
  rewrite (right_id_L ∅ (∪)). intros [Hs Hi]%map_lookup_filter_Some. done.
Qed.

Lemma dialog_after_erros erros saved clicks :
  erros_selecionados (dialog_after erros saved clicks) = erros.
Proof.
  unfold dialog_after. induction clicks as [|[i k] clicks IH] using rev_ind; [done|].
  by rewrite foldl_app.
Qed.

(** Every rating of the dialog belongs to one of its errors, and it is a
    rating kept from last time or the number of a star. *)
Lemma dialog_after_keys erros saved clicks i v :
  Forall (valid_click (length erros)) clicks →
  avaliacoes (dialog_after erros saved clicks) !! i = Some v →
  (i < length erros)%nat ∧ (saved !! i = Some v ∨ 1 ≤ v ≤ 5).
Proof.
  unfold dialog_after. revert i v.
  induction clicks as [|[j k] clicks IH] using rev_ind; intros i v Hvalid Hi.
  - apply restaurar_keys in Hi as [? ?]. auto.
  - apply Forall_app in Hvalid as [Hvalid [[Hj Hk] _]%Forall_cons].
    rewrite foldl_app in Hi. cbn [foldl apply_click on_estrela_click avaliacoes] in Hi.
    destruct (decide (i = j)) as [->|Hne].
    + rewrite lookup_insert_eq in Hi. injection Hi as <-. split; [done|]. right. lia.
    + rewrite lookup_insert_ne in Hi by done. by apply IH.
Qed.

(** With the ratings among the indices of the errors, the check of the
    dialog holds exactly when every error has a positive rating. *)
Lemma todas_avaliacoes_preenchidas_iff d :
  (∀ i v, avaliacoes d !! i = Some v → (i < length (erros_selecionados d))%nat) →
  todas_avaliacoes_preenchidas d = true
  ↔ ∀ i, (i < length (erros_selecionados d))%nat →
         ∃ n, avaliacoes d !! i = Some n ∧ 0 < n.
Proof.
  intros Hkeys. unfold todas_avaliacoes_preenchidas.
  rewrite andb_true_iff, !bool_decide_eq_true.
  assert (Hsub : dom (avaliacoes d) ⊆@{gset nat} set_seq 0 (length (erros_selecionados d))).
  { intros i [v Hv]%elem_of_dom. apply elem_of_set_seq. apply Hkeys in Hv. lia. }
  split.
  - intros [Hsize Hpos] i Hi.
    assert (i ∈ dom (avaliacoes d)) as [v Hv]%elem_of_dom.
    { rewrite (set_subseteq_size_eq _ _ Hsub); [apply elem_of_set_seq; lia|].
      by rewrite size_set_seq, size_dom, Hsize. }
    exists v. split; [done|]. by apply (Hpos i v).
  - intros Hall. split.
    + rewrite <- size_dom, <- (size_set_seq (C := gset nat) 0 (length (erros_selecionados d))).
      f_equal. apply set_eq. intros i. split; [apply Hsub|].
      intros [_ Hi]%elem_of_set_seq. destruct (Hall i) as (n & Hn & _); [lia|].
      apply elem_of_dom. by exists n.
    + intros i v Hv. destruct (Hall i (Hkeys i v Hv)) as (n & Hn & Hpos). congruence.
Qed.

End Ratings.

Section Notas.

Lemma com_notas_names notas erros :
  sel_nome <$> com_notas notas erros = sel_nome <$> erros
  ∧ sel_descricao <$> com_notas notas erros = sel_descricao <$> erros.
Proof.
  unfold com_notas. split; apply list_eq; intros i;
    rewrite !list_lookup_fmap, list_lookup_imap;
    destruct (erros !! i) as [e|]; cbn; [|done| |done];
    by destruct (notas !! i).
Qed.

Lemma com_notas_rated notas erros (P : Z → Prop) :
  (∀ i, (i < length erros)%nat → ∃ n, notas !! i = Some n ∧ P n) →
  Forall (λ e, ∃ n, sel_avaliacao e = Some n ∧ P n) (com_notas notas erros).
Proof.
  intros Hall. apply Forall_lookup. intros i e'. unfold com_notas.
  rewrite list_lookup_imap. destruct (erros !! i) as [e|] eqn:He; [|done].
  cbn. intros [= <-]. destruct (Hall i) as (n & -> & Hn); [by eapply lookup_lt_Some|].
  by exists n.
Qed.

Lemma rated_not_pending (erros : list Selecionado) :
  Forall (λ e, ∃ n, sel_avaliacao e = Some n ∧ 1 ≤ n ≤ 5) erros →
  filter (λ e, sem_avaliacao e = true) erros = [].
Proof.
  induction 1 as [|e erros (n & Hn & Hpos) _ IH]; [done|].
  rewrite filter_cons, IH. rewrite decide_False; [done|].
  unfold sem_avaliacao. rewrite Hn. intros ?%Z.eqb_eq. lia.
Qed.

Lemma missing_or_all (m : gmap nat Z) (n : nat) :
  (∃ i, (i < n)%nat ∧ m !! i = None) ∨ (∀ i, (i < n)%nat → is_Some (m !! i)).
Proof.
  induction n as [|n [(i & Hi & Hn)|Hall]].
  - right. lia.
  - left. exists i. split; [lia|done].
  - destruct (m !! n) as [v|] eqn:E.
    + right. intros i Hi. destruct (decide (i = n)) as [->|]; [by rewrite E|].
      apply Hall. lia.
    + left. exists n. split; [lia|done].
Qed.

End Notas.

(** X15. In a dialog opened over a list of errors, with or without
    ratings kept from last time, and after any clicks on its stars, the
    check [todas_avaliacoes_preenchidas] holds exactly when every error
    of the list has a positive rating: a rating is never stored for an
    index outside the list, so the count of the ratings cannot be
    reached otherwise. *)
Theorem todas_avaliacoes_preenchidas_every_error {A : Type} (erros : list A)
    (saved : gmap nat Z) (clicks : list AvaliacaoDialog.click) :
  Forall (valid_click (length erros)) clicks →
  AvaliacaoDialog.todas_avaliacoes_preenchidas (dialog_after erros saved clicks) = true
  ↔ ∀ i, (i < length erros)%nat →
         ∃ n, AvaliacaoDialog.get_avaliacoes (dialog_after erros saved clicks) !! i = Some n
              ∧ 0 < n.
Proof.
  intros Hvalid. rewrite todas_avaliacoes_preenchidas_iff.
  - by rewrite dialog_after_erros.
  - intros i v Hv. rewrite dialog_after_erros.
    by destruct (dialog_after_keys erros saved clicks i v Hvalid Hv).
Qed.

Lemma todas_avaliacoes_preenchidas_every_error_witness :
  AvaliacaoDialog.todas_avaliacoes_preenchidas
    (dialog_after ["Borrado"; "Cortado"] ∅
       [AvaliacaoDialog.Click 0 2; AvaliacaoDialog.Click 1 4]) = true
  ↔ ∀ i, (i < length ["Borrado"; "Cortado"])%nat →
         ∃ n, AvaliacaoDialog.get_avaliacoes
                (dialog_after ["Borrado"; "Cortado"] ∅
                   [AvaliacaoDialog.Click 0 2; AvaliacaoDialog.Click 1 4]) !! i = Some n
              ∧ 0 < n.
Proof.
  apply (todas_avaliacoes_preenchidas_every_error ["Borrado"; "Cortado"] ∅
           [AvaliacaoDialog.Click 0 2; AvaliacaoDialog.Click 1 4]).
  repeat constructor.
Defined.

(** X16. When the dialog was opened over the current selection, the
    ratings kept from last time are of one to five stars and the dialog
    is accepted: if it is complete, every selected error gets a rating of
    1 to 5 and keeps its name and description, so that no error is left
    pending for the save, and the kept ratings are dropped; if it is not,
    the warning is shown, nothing changes and some error has no rating. *)
Theorem processar_avaliacoes_rates_every_error (s : Session) (saved : gmap nat Z)
    (clicks : list AvaliacaoDialog.click) :
  avaliacao_dialog s = Some (dialog_after (erros_atuais (window s)) saved clicks) →
  Forall (valid_click (length (erros_atuais (window s)))) clicks →
  map_Forall (λ _ v, 1 ≤ v ≤ 5) saved →
  match processar_avaliacoes s with
  | (s', false) =>
      sel_nome <$> erros_atuais (window s') = sel_nome <$> erros_atuais (window s)
      ∧ sel_descricao <$> erros_atuais (window s')
        = sel_descricao <$> erros_atuais (window s)
      ∧ Forall (λ e, ∃ n, sel_avaliacao e = Some n ∧ 1 ≤ n ≤ 5) (erros_atuais (window s'))
      ∧ filter (λ e, sem_avaliacao e = true) (erros_atuais (window s')) = []
      ∧ ultimo_estado_avaliacao s' = None
  | (s', true) =>
      s' = s
      ∧ ∃ i, (i < length (erros_atuais (window s)))%nat
             ∧ AvaliacaoDialog.get_avaliacoes
                 (dialog_after (erros_atuais (window s)) saved clicks) !! i = None
  end.
Proof.
  intros Hdlg Hvalid Hsaved. unfold processar_avaliacoes. rewrite Hdlg.
  set (erros := erros_atuais (window s)) in *.
  set (dlg := dialog_after erros saved clicks).
  assert (Hkeys : ∀ i v, AvaliacaoDialog.avaliacoes dlg !! i = Some v →
                         (i < length erros)%nat ∧ 1 ≤ v ≤ 5).
  { intros i v Hv. destruct (dialog_after_keys erros saved clicks i v Hvalid Hv)
      as [Hi [Hs|Hv']]; [|done]. split; [done|]. by apply (Hsaved i v). }
  assert (Hiff : AvaliacaoDialog.todas_avaliacoes_preenchidas dlg = true
                 ↔ ∀ i, (i < length erros)%nat →
                        ∃ n, AvaliacaoDialog.avaliacoes dlg !! i = Some n ∧ 0 < n).
  { rewrite todas_avaliacoes_preenchidas_iff; subst dlg.
    - by rewrite dialog_after_erros.
    - intros i v Hv. rewrite dialog_after_erros. by destruct (Hkeys i v Hv). }
  destruct (AvaliacaoDialog.todas_avaliacoes_preenchidas dlg) eqn:Hall; cbn [negb].
  - pose proof (proj1 Hiff eq_refl) as Hevery. cbn [window erros_atuais].
    assert (Hrated : Forall (λ e, ∃ n, sel_avaliacao e = Some n ∧ 1 ≤ n ≤ 5)
                            (com_notas (AvaliacaoDialog.get_avaliacoes dlg) erros)).
    { apply com_notas_rated. intros i Hi. destruct (Hevery i Hi) as (n & Hn & _).
      exists n. split; [done|]. by destruct (Hkeys i n Hn). }
    destruct (com_notas_names (AvaliacaoDialog.get_avaliacoes dlg) erros) as [Hn Hd].
    split_and!; [done|done|done|by apply rated_not_pending|done].
  - split; [done|].
    destruct (missing_or_all (AvaliacaoDialog.get_avaliacoes dlg) (length erros))
      as [?|Hevery]; [done|].
    exfalso. assert (false = true) as Habs; [|done]. apply Hiff. intros i Hi.
    destruct (Hevery i Hi) as [v Hv].
    exists v. split; [done|]. destruct (Hkeys i v Hv). lia.
Qed.

Lemma processar_avaliacoes_rates_every_error_witness :
  match processar_avaliacoes sample_session with
  | (s', false) =>
      sel_nome <$> erros_atuais (window s')
      = sel_nome <$> erros_atuais (window sample_session)
      ∧ sel_descricao <$> erros_atuais (window s')
        = sel_descricao <$> erros_atuais (window sample_session)
      ∧ Forall (λ e, ∃ n, sel_avaliacao e = Some n ∧ 1 ≤ n ≤ 5) (erros_atuais (window s'))
      ∧ filter (λ e, sem_avaliacao e = true) (erros_atuais (window s')) = []
      ∧ ultimo_estado_avaliacao s' = None
  | (s', true) =>
      s' = sample_session
      ∧ ∃ i, (i < length (erros_atuais (window sample_session)))%nat
             ∧ AvaliacaoDialog.get_avaliacoes
                 (dialog_after (erros_atuais (window sample_session))
                               {[ 0%nat := 4 ]} [AvaliacaoDialog.Click 0 2]) !! i = None
  end.
Proof.
  apply (processar_avaliacoes_rates_every_error sample_session {[ 0%nat := 4 ]}
           [AvaliacaoDialog.Click 0 2]).
  - reflexivity.
  - repeat constructor.
  - apply map_Forall_singleton. lia.
Defined.

(** ** The catalog of errors *)

Section CatalogOfErrors.

Import CustomErrorsDialog.

(** *** [str.strip()] *)

Lemma lstrip_ws_head s :
  match Py.lstrip_ws s with
  | "" => True
  | String a _ => Py.isspace a = false
  end.
Proof.
  induction s as [|a s IH]; [done|]. cbn [Py.lstrip_ws].
  by destruct (Py.isspace a) eqn:E; [|rewrite E].
Qed.

Lemma rstrip_ws_idem s : Py.rstrip_ws (Py.rstrip_ws s) = Py.rstrip_ws s.
Proof.
  induction s as [|a s IH]; [done|]. cbn [Py.rstrip_ws].
  destruct (Py.rstrip_ws s) as [|b r] eqn:Hr.
  - destruct (Py.isspace a) eqn:E; [done|]. cbn [Py.rstrip_ws]. by rewrite E.
  - cbn [Py.rstrip_ws] in *. by rewrite IH.
Qed.

Lemma rstrip_ws_head a s :
  Py.isspace a = false → ∃ r, Py.rstrip_ws (String a s) = String a r.
Proof.
  intros E. cbn [Py.rstrip_ws]. destruct (Py.rstrip_ws s); rewrite ?E; by eexists.
Qed.

Lemma strip_ws_idem s : Py.strip_ws (Py.strip_ws s) = Py.strip_ws s.
Proof.
  unfold Py.strip_ws. pose proof (lstrip_ws_head s) as Hhead.
  destruct (Py.lstrip_ws s) as [|a t]; [done|].
  destruct (rstrip_ws_head a t Hhead) as [r Hr].
  rewrite Hr at 1. cbn [Py.lstrip_ws]. rewrite Hhead, <- Hr. apply rstrip_ws_idem.
Qed.

Lemma strip_ws_tidy input : Py.strip_ws input ≠ "" → tidy (Py.strip_ws input).
Proof. intros Hne. split; [done|apply strip_ws_idem]. Qed.

(** *** [list.remove] *)

Lemma remove_first_elem x y l : x ∈ Py.remove_first y l → x ∈ l.
Proof.
  induction l as [|z l IH]; [done|]. cbn [Py.remove_first].
  destruct (String.eqb z y); [by right|].
  intros [->|?]%elem_of_cons; [by left|right; auto].
Qed.

Lemma remove_first_other x y l : x ≠ y → x ∈ l → x ∈ Py.remove_first y l.
Proof.
  intros Hne. induction l as [|z l IH]; [done|]. cbn [Py.remove_first].
  destruct (String.eqb_spec z y) as [->|Hz].
  - by intros [->|?]%elem_of_cons.
  - intros [->|?]%elem_of_cons; [by left|right; auto].
Qed.

Lemma remove_first_NoDup y l : NoDup l → NoDup (Py.remove_first y l).
Proof.
  induction 1 as [|z l Hz Hl IH]; [constructor|]. cbn [Py.remove_first].
  destruct (String.eqb z y); [done|]. constructor; [|done].
  intros Hin. by apply Hz, (remove_first_elem z y l).
Qed.

Lemma remove_first_gone y l : NoDup l → y ∉ Py.remove_first y l.
Proof.
  induction 1 as [|z l Hz Hl IH]; [apply not_elem_of_nil|]. cbn [Py.remove_first].
  destruct (String.eqb_spec z y) as [->|Hne]; [done|].
  by intros [->|?]%elem_of_cons.
Qed.

Lemma remove_first_absent y l : y ∉ l → Py.remove_first y l = l.
Proof.
  induction l as [|z l IH]; [done|]. intros Hy. cbn [Py.remove_first].
  destruct (String.eqb_spec z y) as [->|Hne]; [destruct Hy; by left|].
  f_equal. apply IH. intros ?. apply Hy. by right.
Qed.

Lemma remove_first_snoc y l : y ∉ l → Py.remove_first y (l ++ [y]) = l.
Proof.
  induction l as [|z l IH]; intros Hy.
  - cbn. by rewrite String.eqb_refl.
  - cbn [app Py.remove_first].
    destruct (String.eqb_spec z y) as [->|Hne]; [destruct Hy; by left|].
    f_equal. apply IH. intros ?. apply Hy. by right.
Qed.

Lemma remove_first_Forall (P : string → Prop) y l :
  Forall P l → Forall P (Py.remove_first y l).
Proof.
  rewrite !Forall_forall. intros Hl x Hx. by apply Hl, (remove_first_elem x y l).
Qed.

(** *** The four edits *)

Lemma get_nomes_delete_nome c nome :
  get_nomes (delete_nome c nome true) = Py.remove_first nome (get_nomes c).
Proof. unfold get_nomes. cbn. by destruct (nomes c). Qed.

Lemma get_descricoes_delete_nome c nome :
  get_descricoes (delete_nome c nome true) = delete nome (get_descricoes c).
Proof.
  unfold get_descricoes. cbn. destruct (descricoes c); cbn; [done|].
  by rewrite delete_empty.
Qed.

Lemma get_descricoes_delete_descricao c nome_text d :
  get_descricoes (delete_descricao c nome_text d true)
  = if String.eqb nome_text "" || String.eqb nome_text placeholder
    then get_descricoes c
    else alter (Py.remove_first d) nome_text (get_descricoes c).
Proof.
  unfold delete_descricao. destruct (_ || _); [done|].
  unfold get_descricoes. cbn. destruct (descricoes c); cbn; [done|].
  apply map_eq. intros k. by rewrite lookup_alter, lookup_empty; case_decide.
Qed.

Lemma get_nomes_mk l d : get_nomes {| nomes := Some l; descricoes := d |} = l.
Proof. done. Qed.

Lemma get_descricoes_mk l m : get_descricoes {| nomes := l; descricoes := Some m |} = m.
Proof. done. Qed.

(** The text of the combo box is the placeholder, empty, or a listed
    name. *)
Lemma currentText_listed c i :
  String.eqb (currentText c i) placeholder || String.eqb (currentText c i) "" = false →
  currentText c i ∈ get_nomes c.
Proof.
  unfold currentText, combo_items. intros Hguard.
  destruct i as [|i]; cbn in *; [done|].
  destruct (get_nomes c !! i) as [n|] eqn:Hn; cbn in *.
  - by eapply list_elem_of_lookup_2.
  - done.
Qed.

Lemma add_nome_ok c input : catalog_ok c → catalog_ok (add_nome c input).
Proof.
  intros (Hnd & Htidy & Hdesc). unfold add_nome.
  destruct (String.eqb_spec (Py.strip_ws input) "") as [|Hne]; [done|].
  case_bool_decide as Hin; [done|].
  unfold catalog_ok, get_nomes, get_descricoes. cbn [nomes descricoes default from_option].
  fold (get_nomes c) (get_descricoes c). split_and!.
  - apply NoDup_app. split_and!; [done| |apply NoDup_singleton].
    intros x Hx ->%list_elem_of_singleton. done.
  - apply Forall_app. split; [done|]. apply Forall_singleton. by apply strip_ws_tidy.
  - apply map_Forall_insert_2.
    + split_and!; [|constructor|constructor]. apply elem_of_app. right. by left.
    + eapply map_Forall_impl; [exact Hdesc|]. intros n ds (? & ? & ?).
      split_and!; [|done|done]. apply elem_of_app. by left.
Qed.

Lemma add_descricao_ok c nome_text input :
  nome_text ∈ get_nomes c ∨ nome_text = placeholder ∨ nome_text = "" →
  catalog_ok c → catalog_ok (add_descricao c nome_text input).
Proof.
  intros Hnome (Hnd & Htidy & Hdesc). unfold add_descricao.
  destruct (String.eqb_spec nome_text placeholder) as [|Hp]; [done|].
  destruct (String.eqb_spec nome_text "") as [|He]; [done|]. cbn [orb].
  destruct (String.eqb_spec (Py.strip_ws input) "") as [|Hne]; [done|].
  destruct Hnome as [Hnome|[?|?]]; [|done|done].
  unfold catalog_ok, get_nomes, get_descricoes. cbn [nomes descricoes default from_option].
  fold (get_nomes c) (get_descricoes c). split_and!; [done|done|].
  apply map_Forall_insert_2; [|done].
  assert (NoDup (default [] (get_descricoes c !! nome_text))
          ∧ Forall tidy (default [] (get_descricoes c !! nome_text))) as [Hnd' Htidy'].
  { destruct (get_descricoes c !! nome_text) as [ds|] eqn:Hds; cbn.
    - by destruct (Hdesc nome_text ds Hds) as (_ & ? & ?).
    - split; constructor. }
  case_bool_decide as Hin; [done|]. split_and!; [done| |].
  - apply NoDup_app. split_and!; [done| |apply NoDup_singleton].
    intros x Hx ->%list_elem_of_singleton. done.
  - apply Forall_app. split; [done|]. apply Forall_singleton. by apply strip_ws_tidy.
Qed.

Lemma delete_nome_ok c nome yes : catalog_ok c → catalog_ok (delete_nome c nome yes).
Proof.
  intros (Hnd & Htidy & Hdesc). destruct yes; [|done].
  unfold catalog_ok. rewrite get_nomes_delete_nome, get_descricoes_delete_nome.
  split_and!.
  - by apply remove_first_NoDup.
  - by apply remove_first_Forall.
  - intros n ds [Hne Hds]%lookup_delete_Some.
    destruct (Hdesc n ds Hds) as (? & ? & ?). split_and!; [|done|done].
    by apply remove_first_other.
Qed.

Lemma delete_descricao_ok c nome_text d yes :
  catalog_ok c → catalog_ok (delete_descricao c nome_text d yes).
Proof.
  intros (Hnd & Htidy & Hdesc).
  destruct yes; [|unfold delete_descricao; by destruct (_ || _)].
  unfold catalog_ok. rewrite get_descricoes_delete_descricao.
  assert (get_nomes (delete_descricao c nome_text d true) = get_nomes c) as ->.
  { unfold delete_descricao. by destruct (_ || _). }
  destruct (_ || _); [done|]. split_and!; [done|done|].
  intros n ds Hds. apply lookup_alter_Some in Hds as [(-> & ds0 & Hds0 & ->)|[_ Hds]].
  - destruct (Hdesc _ _ Hds0) as (? & ? & ?).
    split_and!; [done|by apply remove_first_NoDup|by apply remove_first_Forall].
  - by apply (Hdesc n ds).
Qed.

Lemma apply_edit_ok c e : catalog_ok c → catalog_ok (apply_edit c e).
Proof.
  intros Hc. destruct e as [input|i input|row yes|i d yes]; cbn [apply_edit].
  - by apply add_nome_ok.
  - apply add_descricao_ok; [|done].
    destruct (String.eqb_spec (currentText c i) placeholder) as [|Hp]; [auto|].
    destruct (String.eqb_spec (currentText c i) "") as [|He]; [auto|].
    left. apply currentText_listed.
    by rewrite (proj2 (String.eqb_neq _ _) Hp), (proj2 (String.eqb_neq _ _) He).
  - destruct (get_nomes c !! row); [|done]. by apply delete_nome_ok.
  - by apply delete_descricao_ok.
Qed.

End CatalogOfErrors.

(** X17. The catalog stays in order through any sequence of edits of the
    dialog: the names are distinct, not empty and without white space
    around them; only listed names have descriptions, and the
    descriptions of a name are distinct and tidy as well. The catalog of
    a missing file is in order. *)
Theorem catalog_edits_keep_order (c : CustomErrorsDialog.Catalog)
    (edits : list CustomErrorsDialog.edit) :
  catalog_ok c → catalog_ok (foldl CustomErrorsDialog.apply_edit c edits).
Proof.
  revert c. induction edits as [|e edits IH]; intros c Hc; [done|].
  cbn [foldl]. by apply IH, apply_edit_ok.
Qed.

Lemma catalog_edits_keep_order_witness :
  catalog_ok
    (foldl CustomErrorsDialog.apply_edit empty_catalog
       [CustomErrorsDialog.AddNome " Borrado ";
        CustomErrorsDialog.AddDescricao 1 "Imagem fora de foco";
        CustomErrorsDialog.AddNome "Borrado";
        CustomErrorsDialog.DeleteNome 0 true]).
Proof.
  apply (catalog_edits_keep_order empty_catalog).
  split_and!; [apply NoDup_nil_2|apply Forall_nil_2|].
  intros nome ds Hds. cbn in Hds. by rewrite lookup_empty in Hds.
Defined.

(** X18. Adding a name is done once: a second [add_nome] with the same
    text changes nothing, and adding a name that is listed keeps the
    list and all descriptions as they are. A text that is not blank is
    listed afterwards, without the white space around it; a blank text
    changes nothing. *)
Theorem add_nome_once (c : CustomErrorsDialog.Catalog) (input : string) :
  CustomErrorsDialog.add_nome (CustomErrorsDialog.add_nome c input) input
  = CustomErrorsDialog.add_nome c input
  ∧ (Py.strip_ws input ∈ CustomErrorsDialog.get_nomes c →
       CustomErrorsDialog.get_nomes (CustomErrorsDialog.add_nome c input)
       = CustomErrorsDialog.get_nomes c
       ∧ CustomErrorsDialog.get_descricoes (CustomErrorsDialog.add_nome c input)
         = CustomErrorsDialog.get_descricoes c)
  ∧ (Py.strip_ws input ≠ "" →
       Py.strip_ws input
         ∈ CustomErrorsDialog.get_nomes (CustomErrorsDialog.add_nome c input))
  ∧ (Py.strip_ws input = "" → CustomErrorsDialog.add_nome c input = c).
Proof.
  unfold CustomErrorsDialog.add_nome. cbv zeta.
  destruct (String.eqb_spec (Py.strip_ws input) "") as [Hblank|Hne]; [by split_and!|].
  destruct (decide (Py.strip_ws input ∈ CustomErrorsDialog.get_nomes c)) as [Hin|Hnin].
  - rewrite !(bool_decide_eq_true_2 _ Hin). cbv iota.
    rewrite !get_nomes_mk. by split_and!.
  - rewrite !(bool_decide_eq_false_2 _ Hnin). cbv iota. rewrite !get_nomes_mk.
    assert (Hlast : Py.strip_ws input ∈ CustomErrorsDialog.get_nomes c ++ [Py.strip_ws input])
      by (apply elem_of_app; right; by left).
    rewrite !(bool_decide_eq_true_2 _ Hlast). by split_and!.
Qed.

(** X19. Deleting a name, once confirmed, takes it off the list together
    with its descriptions and leaves every other name and its
    descriptions alone, where the names of the list are distinct; when
    the question is answered no, nothing changes. *)
Theorem delete_nome_removes (c : CustomErrorsDialog.Catalog) (nome : string) :
  NoDup (CustomErrorsDialog.get_nomes c) →
  (nome ∉ CustomErrorsDialog.get_nomes (CustomErrorsDialog.delete_nome c nome true))
  ∧ CustomErrorsDialog.get_descricoes (CustomErrorsDialog.delete_nome c nome true) !! nome
    = None
  ∧ (∀ n, n ≠ nome →
       (n ∈ CustomErrorsDialog.get_nomes (CustomErrorsDialog.delete_nome c nome true)
        ↔ n ∈ CustomErrorsDialog.get_nomes c)
       ∧ CustomErrorsDialog.get_descricoes (CustomErrorsDialog.delete_nome c nome true) !! n
         = CustomErrorsDialog.get_descricoes c !! n)
  ∧ CustomErrorsDialog.delete_nome c nome false = c.
Proof.
  intros Hnd. rewrite get_nomes_delete_nome, get_descricoes_delete_nome. split_and!.
  - by apply remove_first_gone.
  - apply lookup_delete_eq.
  - intros n Hne. split; [|by apply lookup_delete_ne]. split.
    + apply remove_first_elem.
    + by apply remove_first_other.
  - done.
Qed.

Lemma delete_nome_removes_witness :
  ("Borrado" ∉ CustomErrorsDialog.get_nomes
                 (CustomErrorsDialog.delete_nome sample_catalog "Borrado" true))
  ∧ CustomErrorsDialog.get_descricoes
      (CustomErrorsDialog.delete_nome sample_catalog "Borrado" true) !! "Borrado"
    = None
  ∧ (∀ n, n ≠ "Borrado" →
       (n ∈ CustomErrorsDialog.get_nomes
              (CustomErrorsDialog.delete_nome sample_catalog "Borrado" true)
        ↔ n ∈ CustomErrorsDialog.get_nomes sample_catalog)
       ∧ CustomErrorsDialog.get_descricoes
           (CustomErrorsDialog.delete_nome sample_catalog "Borrado" true) !! n
         = CustomErrorsDialog.get_descricoes sample_catalog !! n)
  ∧ CustomErrorsDialog.delete_nome sample_catalog "Borrado" false = sample_catalog.
Proof.
  apply (delete_nome_removes sample_catalog "Borrado").
  apply NoDup_singleton.
Defined.

(** X20. Deleting a name that has just been added gives back the names
    and the descriptions of before, for a text that was not listed and
    had no descriptions. *)
Theorem add_nome_then_delete_nome (c : CustomErrorsDialog.Catalog) (input : string) :
  Py.strip_ws input ∉ CustomErrorsDialog.get_nomes c →
  CustomErrorsDialog.get_descricoes c !! Py.strip_ws input = None →
  CustomErrorsDialog.get_nomes
    (CustomErrorsDialog.delete_nome (CustomErrorsDialog.add_nome c input)
                                    (Py.strip_ws input) true)
  = CustomErrorsDialog.get_nomes c
  ∧ CustomErrorsDialog.get_descricoes
      (CustomErrorsDialog.delete_nome (CustomErrorsDialog.add_nome c input)
                                      (Py.strip_ws input) true)
    = CustomErrorsDialog.get_descricoes c.
Proof.
  intros Hnew Hnone. rewrite get_nomes_delete_nome, get_descricoes_delete_nome.
  unfold CustomErrorsDialog.add_nome.
  destruct (String.eqb_spec (Py.strip_ws input) "") as [Hblank|Hne].
  - split; [by apply remove_first_absent|by apply delete_id].
  - cbv zeta. rewrite !(bool_decide_eq_false_2 _ Hnew), get_nomes_mk, get_descricoes_mk.
    split; [by apply remove_first_snoc|]. by rewrite delete_insert_eq, delete_id.
Qed.

Lemma add_nome_then_delete_nome_witness :
  CustomErrorsDialog.get_nomes
    (CustomErrorsDialog.delete_nome (CustomErrorsDialog.add_nome sample_catalog " Cortado ")
                                    (Py.strip_ws " Cortado ") true)
  = CustomErrorsDialog.get_nomes sample_catalog
  ∧ CustomErrorsDialog.get_descricoes
      (CustomErrorsDialog.delete_nome (CustomErrorsDialog.add_nome sample_catalog " Cortado ")
                                      (Py.strip_ws " Cortado ") true)
    = CustomErrorsDialog.get_descricoes sample_catalog.
Proof.
  apply (add_nome_then_delete_nome sample_catalog " Cortado ").
  - intros Hin. apply list_elem_of_singleton in Hin. discriminate Hin.
  - reflexivity.
Defined.

(** X21. Adding a description is done once: a second [add_descricao]
    with the same name and text changes nothing. The names, the
    descriptions of the other names and the descriptions the name had
    stay, and a text that is not blank is among the descriptions of the
    name afterwards when a name is chosen. *)
Theorem add_descricao_once (c : CustomErrorsDialog.Catalog) (nome_text input : string) :
  CustomErrorsDialog.add_descricao (CustomErrorsDialog.add_descricao c nome_text input)
                                   nome_text input
  = CustomErrorsDialog.add_descricao c nome_text input
  ∧ CustomErrorsDialog.get_nomes (CustomErrorsDialog.add_descricao c nome_text input)
    = CustomErrorsDialog.get_nomes c
  ∧ (∀ n, n ≠ nome_text →
       CustomErrorsDialog.get_descricoes
         (CustomErrorsDialog.add_descricao c nome_text input) !! n
       = CustomErrorsDialog.get_descricoes c !! n)
  ∧ (∀ d, d ∈ default [] (CustomErrorsDialog.get_descricoes c !! nome_text) →
          d ∈ default [] (CustomErrorsDialog.get_descricoes
                            (CustomErrorsDialog.add_descricao c nome_text input)
                          !! nome_text))
  ∧ (nome_text ≠ CustomErrorsDialog.placeholder → nome_text ≠ "" →
     Py.strip_ws input ≠ "" →
     Py.strip_ws input
       ∈ default [] (CustomErrorsDialog.get_descricoes
                       (CustomErrorsDialog.add_descricao c nome_text input)
                     !! nome_text)).
Proof.
  unfold CustomErrorsDialog.add_descricao. cbv zeta.
  destruct (String.eqb_spec nome_text CustomErrorsDialog.placeholder) as [Hp|Hp];
    [by split_and!|].
  destruct (String.eqb_spec nome_text "") as [He|He]; [by split_and!|]. cbn [orb].
  destruct (String.eqb_spec (Py.strip_ws input) "") as [Hblank|Hne]; [by split_and!|].
  set (old := default [] (CustomErrorsDialog.get_descricoes c !! nome_text)).
  set (new := if bool_decide (Py.strip_ws input ∈ old) then old
              else old ++ [Py.strip_ws input]).
  assert (Hin : Py.strip_ws input ∈ new).
  { subst new. case_bool_decide; [done|]. apply elem_of_app. right. by left. }
  rewrite !get_descricoes_mk, !lookup_insert_eq.
  cbn [default from_option Datatypes.id CustomErrorsDialog.nomes].
  rewrite (bool_decide_eq_true_2 _ Hin), insert_insert_eq.
  split_and!; [done|done| | |done].
  - intros n Hn. by rewrite lookup_insert_ne.
  - intros d Hd. subst new. case_bool_decide; [done|]. apply elem_of_app. by left.
Qed.

(** X22. Loading the catalog never raises. It answers the catalog
    without names when the file is missing, when it cannot be opened
    and when its text does not parse; otherwise it answers the parsed
    document. *)
Theorem load_custom_errors_never_raises (js : CustomErrorsDialog.CatalogJson)
    (env : Env) (disk : Storage) :
  ∃ c,
    CustomErrorsDialog.load_custom_errors js env disk = Py.Ok c
    ∧ (disk = None → c = empty_catalog)
    ∧ (∀ text e, disk = Some text → open_read_error env = Some e → c = empty_catalog)
    ∧ (∀ text e, disk = Some text → CustomErrorsDialog.catalog_load js text = Py.Raise e →
         c = empty_catalog)
    ∧ (∀ text data, disk = Some text → open_read_error env = None →
         CustomErrorsDialog.catalog_load js text = Py.Ok data → c = data).
Proof.
  unfold CustomErrorsDialog.load_custom_errors, open_read, try_except.
  destruct disk as [text|]; cbn.
  - destruct (open_read_error env) as [e0|] eqn:Hopen; cbn.
    + exists empty_catalog. split_and!; try done.
    + destruct (CustomErrorsDialog.catalog_load js text) as [data|e1] eqn:Hparse; cbn.
      * exists data. split_and!; try done.
        -- intros t e [= <-] He. congruence.
        -- intros t d [= <-] _ Hd. congruence.
      * exists empty_catalog. split_and!; try done.
        intros t d [= <-] _ Hd. congruence.
  - exists empty_catalog. split_and!; done.
Qed.

(** X23. Saving the catalog answers [True] with the whole text in the
    file, and then the next load gives the catalog back where the file
    can be read and [json] reads what it wrote; or it answers [False],
    and then the file is as it was only when it could not be opened:
    otherwise it has been truncated and holds an incomplete text. *)
Theorem save_custom_errors_then_load (js : CustomErrorsDialog.CatalogJson)
    (env env' : Env) (disk : Storage) (c : CustomErrorsDialog.Catalog) :
  match CustomErrorsDialog.save_custom_errors js env disk c with
  | (true, disk') =>
      disk' = Some (CustomErrorsDialog.catalog_dump js c)
      ∧ (open_read_error env' = None →
         CustomErrorsDialog.catalog_load js (CustomErrorsDialog.catalog_dump js c) = Py.Ok c →
         CustomErrorsDialog.load_custom_errors js env' disk' = Py.Ok c)
  | (false, disk') =>
      (open_write_error env ≠ None ∧ disk' = disk)
      ∨ (∃ room, (room < String.length (CustomErrorsDialog.catalog_dump js c))%nat
                 ∧ disk' = Some (Py.slice_to room (CustomErrorsDialog.catalog_dump js c)))
  end.
Proof.
  unfold CustomErrorsDialog.save_custom_errors, open_write, write_text.
  destruct (open_write_error env) as [e|]; [by left|].
  assert (Hload : open_read_error env' = None →
                  CustomErrorsDialog.catalog_load js (CustomErrorsDialog.catalog_dump js c)
                  = Py.Ok c →
                  CustomErrorsDialog.load_custom_errors js env'
                    (Some (CustomErrorsDialog.catalog_dump js c)) = Py.Ok c).
  { intros Hread Hparse.
    unfold CustomErrorsDialog.load_custom_errors, open_read, try_except.
    rewrite Hread. cbn. by rewrite Hparse. }
  destruct (write_room env) as [room|]; [|done].
  destruct (Nat.leb_spec (String.length (CustomErrorsDialog.catalog_dump js c)) room);
    [done|].
  right. by exists room.
Qed.

(** ** The selection of errors *)

Section Selection.

(** An accepted selection has a description for every name. *)
Lemma validate_and_accept_accepted nomes_selecionados descricoes_data :
  ErroDialog.validate_and_accept nomes_selecionados descricoes_data = ErroDialog.Accepted →
  nomes_selecionados ≠ []
  ∧ ∀ nome, nome ∈ nomes_selecionados → ∃ desc, (nome, desc) ∈ descricoes_data.
Proof.
  unfold ErroDialog.validate_and_accept. cbv zeta.
  case_bool_decide as Hnone; [done|]. case_bool_decide as Hpend; [|done].
  intros _. split; [done|]. intros nome Hnome.
  destruct (decide (nome ∈ (list_to_set (fst <$> descricoes_data) : gset string)))
    as [Hin|Hno].
  - apply elem_of_list_to_set, list_elem_of_fmap in Hin as ([n d] & -> & Hin). by exists d.
  - by destruct (proj1 (filter_nil_iff _ _) Hpend nome Hnome).
Qed.

End Selection.

(** X24. The selection of errors is accepted exactly when a name is
    selected and every selected name has a selected description. When
    no name is selected the dialog is rejected. Otherwise there are
    selected names without a selected description, and the warning
    lists the first five of them, in the order of the selection, and
    says that there are others exactly when there are more than five. *)
Theorem validate_and_accept_every_name_described (nomes_selecionados : list string)
    (descricoes_data : list (string * string)) :
  match ErroDialog.validate_and_accept nomes_selecionados descricoes_data with
  | ErroDialog.Accepted =>
      nomes_selecionados ≠ []
      ∧ ∀ nome, nome ∈ nomes_selecionados →
                ∃ desc, (nome, desc) ∈ descricoes_data
  | ErroDialog.Rejected => nomes_selecionados = []
  | ErroDialog.Incomplete listed e_outros =>
      let pendentes := filter (lacks_description descricoes_data) nomes_selecionados in
      pendentes ≠ []
      ∧ listed = take 5 pendentes
      ∧ (e_outros = true ↔ (5 < length pendentes)%nat)
  end.
Proof.
  unfold ErroDialog.validate_and_accept. cbv zeta.
  case_bool_decide as Hnone; [done|].
  assert (Hset : ∀ nome, nome ∈ (list_to_set (fst <$> descricoes_data) : gset string)
                         ↔ ∃ desc, (nome, desc) ∈ descricoes_data).
  { intros nome. rewrite elem_of_list_to_set, list_elem_of_fmap. split.
    - intros ([n d] & -> & Hin). by exists d.
    - intros [d Hin]. by exists (nome, d). }
  assert (Hfilter : filter (λ nome, nome ∉ (list_to_set (fst <$> descricoes_data)
                                              : gset string)) nomes_selecionados
                    = filter (lacks_description descricoes_data) nomes_selecionados).
  { apply list_filter_iff. intros nome. rewrite Hset. unfold lacks_description.
    rewrite Forall_forall. split.
    - intros Hno [n d] Hin Heq. cbn in Heq. subst n. apply Hno. by exists d.
    - intros Hall [d Hin]. by apply (Hall (nome, d) Hin). }
  rewrite Hfilter. case_bool_decide as Hpend.
  - split; [done|]. intros nome Hnome.
    destruct (decide (lacks_description descricoes_data nome)) as [Hlack|Hhas].
    + by destruct (proj1 (filter_nil_iff _ _) Hpend nome Hnome).
    + unfold lacks_description in Hhas. apply not_Forall_Exists in Hhas; [|apply _].
      apply Exists_exists in Hhas as ([n d] & Hin & Hn). cbn in Hn.
      apply dec_stable in Hn. subst n. by exists d.
  - split_and!; [done|done|]. apply Nat.ltb_lt.
Qed.

(** X25. While an error of the selection has no rating (none was
    given, or it is zero), a save writes nothing: the call ends with
    one of the guard messages, and the file and the window are as they
    were. When there is a catalog, an archive name and a current item,
    the message is the one of the pending ratings, and it names every
    error of the selection that has no rating, in the order of the
    selection. *)
Theorem salvar_anotacao_needs_every_rating (js : JsonLib) (env : Env) (disk : Storage)
    (st : State) (e : Selecionado) :
  e ∈ erros_atuais st → unrated e →
  ∃ d,
    salvar_anotacao js env disk st = (Py.Ok d, disk, st)
    ∧ is_guard d
    ∧ (media_files st ≠ [] → current_zip_name st ≠ "" →
       (current_media_index st < length (media_files st))%nat →
       d = Incompleto (sel_nome <$> filter unrated (erros_atuais st))).
Proof.
  intros He Hpend. unfold salvar_anotacao.
  case_bool_decide as Hmedia; [by eexists|].
  destruct (String.eqb_spec (current_zip_name st) "") as [Hzip|Hzip]; [by eexists|].
  destruct (media_files st !! current_media_index st) as [item|] eqn:Hitem.
  2:{ eexists. split_and!; [done|done|]. intros _ _ Hlt.
      apply lookup_lt_is_Some_2 in Hlt as [x Hx]. congruence. }
  case_bool_decide as Herros.
  { rewrite Herros in He. by apply elem_of_nil in He. }
  rewrite filter_sem_avaliacao.
  destruct (filter unrated (erros_atuais st)) as [|p pend] eqn:Hf; [|by eexists].
  exfalso. by apply (proj1 (filter_nil_iff _ _) Hf e He).
Qed.

Lemma salvar_anotacao_needs_every_rating_witness :
  ∃ d,
    salvar_anotacao json_of_empty env_ok None
      (open_erro_selector sample_state (Some [("Borrado", "Imagem fora de foco")])).1
    = (Py.Ok d, None,
       (open_erro_selector sample_state (Some [("Borrado", "Imagem fora de foco")])).1)
    ∧ is_guard d
    ∧ d = Incompleto ["Borrado"].
Proof.
  destruct (salvar_anotacao_needs_every_rating json_of_empty env_ok None
              (open_erro_selector sample_state (Some [("Borrado", "Imagem fora de foco")])).1
              {| sel_nome := "Borrado"; sel_descricao := "Imagem fora de foco";
                 sel_avaliacao := None |})
    as (d & Hd & Hguard & Hpayload).
  - apply list_elem_of_singleton. reflexivity.
  - left. reflexivity.
  - exists d. split_and!; [exact Hd|exact Hguard|].
    apply Hpayload; [discriminate|discriminate|cbn; lia].
Defined.

(** X26. An accepted selection, unless it holds the name of the easter
    egg, replaces the errors of the window: there is one error for every
    selected description, in their order and without a rating, so every
    selected name is among them. A save right after it writes nothing
    and ends with the message that ratings are pending, which names
    every one of them. *)
Theorem open_erro_selector_replaces_selection (js : JsonLib) (env : Env) (disk : Storage)
    (st : State) (nomes_selecionados : list string)
    (descricoes_data : list (string * string)) :
  in_range st → media_files st ≠ [] → current_zip_name st ≠ "" →
  ErroDialog.validate_and_accept nomes_selecionados descricoes_data = ErroDialog.Accepted →
  existsb is_spfc (fst <$> descricoes_data) = false →
  ∃ st',
    open_erro_selector st (Some descricoes_data) = (st', false)
    ∧ sel_nome <$> erros_atuais st' = fst <$> descricoes_data
    ∧ sel_descricao <$> erros_atuais st' = snd <$> descricoes_data
    ∧ Forall (λ e, sel_avaliacao e = None) (erros_atuais st')
    ∧ (∀ nome, nome ∈ nomes_selecionados → nome ∈ sel_nome <$> erros_atuais st')
    ∧ salvar_anotacao js env disk st'
      = (Py.Ok (Incompleto (fst <$> descricoes_data)), disk, st').
Proof.
  intros Hrange Hmedia Hzip Hacc Hegg.
  destruct (validate_and_accept_accepted _ _ Hacc) as [Hsome Hdesc].
  unfold open_erro_selector. rewrite bool_decide_eq_false_2, Hegg by done.
  eexists. split; [reflexivity|]. cbn [erros_atuais].
  set (f := λ '(nome, desc), {| sel_nome := nome; sel_descricao := desc;
                                 sel_avaliacao := None |}).
  assert (Hn : sel_nome <$> (f <$> descricoes_data) = fst <$> descricoes_data).
  { rewrite <- list_fmap_compose. apply list_fmap_ext. by intros i [n d] _. }
  assert (Hd : sel_descricao <$> (f <$> descricoes_data) = snd <$> descricoes_data).
  { rewrite <- list_fmap_compose. apply list_fmap_ext. by intros i [n d] _. }
  assert (Hall : Forall (λ e, sel_avaliacao e = None) (f <$> descricoes_data)).
  { apply Forall_fmap, Forall_forall. by intros [n d] _. }
  split_and!; [done|done|done| |].
  - intros nome [desc Hin]%Hdesc. rewrite Hn. apply list_elem_of_fmap. by exists (nome, desc).
  - unfold salvar_anotacao. cbn [media_files current_zip_name current_media_index erros_atuais].
    rewrite bool_decide_eq_false_2 by done.
    rewrite (proj2 (String.eqb_neq _ _) Hzip).
    destruct Hrange as [?|Hlt]; [done|].
    apply lookup_lt_is_Some_2 in Hlt as [item ->].
    assert (Hne : f <$> descricoes_data ≠ []).
    { destruct nomes_selecionados as [|n ns]; [done|].
      destruct (Hdesc n) as [desc Hin]; [by left|]. intros Heq.
      apply fmap_nil_inv in Heq. rewrite Heq in Hin. by apply elem_of_nil in Hin. }
    rewrite bool_decide_eq_false_2 by done.
    assert (Hfilter : filter (λ e, sem_avaliacao e = true) (f <$> descricoes_data)
                      = f <$> descricoes_data).
    { clear -Hall. induction Hall as [|e l He _ IH]; [done|].
      rewrite filter_cons, IH. rewrite decide_True; [done|]. unfold sem_avaliacao. by rewrite He. }
    rewrite Hfilter. destruct (f <$> descricoes_data) eqn:Hl; [done|]. by rewrite <- Hn.
Qed.

Lemma open_erro_selector_replaces_selection_witness :
  ∃ st',
    open_erro_selector sample_state (Some [("Borrado", "Imagem fora de foco")]) = (st', false)
    ∧ sel_nome <$> erros_atuais st' = fst <$> [("Borrado", "Imagem fora de foco")]
    ∧ sel_descricao <$> erros_atuais st' = snd <$> [("Borrado", "Imagem fora de foco")]
    ∧ Forall (λ e, sel_avaliacao e = None) (erros_atuais st')
    ∧ (∀ nome, nome ∈ ["Borrado"] → nome ∈ sel_nome <$> erros_atuais st')
    ∧ salvar_anotacao json_of_empty env_ok None st'
      = (Py.Ok (Incompleto (fst <$> [("Borrado", "Imagem fora de foco")])), None, st').
Proof.
  apply (open_erro_selector_replaces_selection json_of_empty env_ok None sample_state
           ["Borrado"] [("Borrado", "Imagem fora de foco")]).
  - right. cbn. lia.
  - discriminate.
  - discriminate.
  - vm_compute. reflexivity.
  - reflexivity.
Defined.

(** ** The progress dialog *)

Section Progress.

(** Up to [checked_members] members, the value computed after a member
    that is not the last is below 100. *)
Lemma percent_of_open i total p :
  0 ≤ i → i + 1 < total → total ≤ Z.of_nat checked_members →
  percent_of i total = Py.Ok p → p < 100.
Proof.
  intros Hi Hlt Ht Hp.
  destruct (percent_of_cut i total p ltac:(lia) Ht Hp) as [[Hlow _]|Heq]; nia.
Qed.

Lemma zip_thread_signal_accepted d evs :
  ProgressDialog.accepted d = true →
  ProgressDialog.accepted (foldl zip_thread_signal d evs) = true.
Proof.
  revert d. induction evs as [|ev evs IH]; intros d Hd; [done|].
  cbn [foldl]. apply IH. destruct ev as [p text| |]; [|done|done].
  cbn. by rewrite Hd.
Qed.

Lemma zip_thread_signal_open d evs :
  Forall (λ ev, match ev with Progress p _ => p < 100 | _ => True end) evs →
  ProgressDialog.accepted (foldl zip_thread_signal d evs) = ProgressDialog.accepted d.
Proof.
  intros Hevs. revert d. induction Hevs as [|ev evs Hev _ IH]; intros d; [done|].
  cbn [foldl]. rewrite IH. destruct ev as [p text| |]; [|done|done].
  cbn. replace (100 <=? p) with false by (symmetry; apply Z.leb_gt; lia).
  apply orb_false_r.
Qed.

End Progress.

(** X27. The progress dialog is closed by a progress signal of 100 or
    more and by nothing else. It is closed whenever the run completes;
    it is left open when the archive cannot be opened, and, in an
    archive of up to [checked_members] members, when the extraction of a
    member raises: the error is shown, and no signal closes the
    dialog. *)
Theorem progress_dialog_left_open_on_error (lib : ZipLib) (zip_path temp_dir : string)
    (tree : list entry) :
  (∀ media, Finished media ∈ emitted (run lib zip_path temp_dir tree) →
     ProgressDialog.accepted (progress_dialog_after lib zip_path temp_dir tree) = true)
  ∧ (∀ e, zip_namelist lib zip_path = Py.Raise e →
       ProgressDialog.accepted (progress_dialog_after lib zip_path temp_dir tree) = false)
  ∧ (∀ file_list k member tree_k e,
       zip_namelist lib zip_path = Py.Ok file_list →
       (length file_list ≤ checked_members)%nat →
       file_list !! k = Some member →
       extract_all lib zip_path temp_dir (take k file_list) tree = Py.Ok tree_k →
       zip_extract lib zip_path member temp_dir tree_k = Py.Raise e →
       ProgressDialog.accepted (progress_dialog_after lib zip_path temp_dir tree) = false).
Proof.
  unfold progress_dialog_after. split_and!.
  - intros media. unfold run.
    destruct (zip_namelist lib zip_path) as [file_list|e].
    + pose proof (extract_members_progress lib zip_path temp_dir
                    (Z.of_nat (length file_list)) file_list 0
                    (emit (Progress 0 msg_iniciando) {| scratch := tree; emitted := [] |}))
        as (evs & Hevs & Hprog).
      destruct (extract_members _ _ _ _ _ _ _) as [[[]|e] w1]; cbn [snd] in Hevs.
      * rewrite organize_files_ok. cbn [emit scratch emitted] in *. intros _.
        rewrite !foldl_app. cbn [foldl zip_thread_signal].
        unfold ProgressDialog.update_progress. cbn [ProgressDialog.accepted].
        apply orb_true_r.
      * cbn [emit scratch emitted] in *. rewrite Hevs. cbn [app].
        intros [Hin|[Hin|Hin]%elem_of_app]%elem_of_cons; [done| |].
        -- rewrite Forall_forall in Hprog. by destruct (Hprog _ Hin).
        -- by apply list_elem_of_singleton in Hin.
    + cbn. rewrite !elem_of_cons, elem_of_nil. by intros [?|[?|[]]].
  - intros e Hlist. unfold run. by rewrite Hlist.
  - intros file_list k member tree_k e Hlist Hbound Hk Hall Hraise.
    assert (Z.of_nat (length file_list) < 2 ^ 53) as Hexact.
    { unfold checked_members in Hbound. change (2 ^ 53) with 9007199254740992. lia. }
    destruct (run_raises_events lib zip_path temp_dir tree file_list k member tree_k e
                Hlist Hexact Hk Hall Hraise) as (evs & -> & Hlen & Hevs).
    cbn [emitted]. rewrite !foldl_app. cbn [foldl zip_thread_signal].
    rewrite zip_thread_signal_open; [done|].
    apply Forall_lookup. intros j ev Hev.
    pose proof (lookup_lt_Some _ _ _ Hev) as Hj. rewrite Hlen in Hj.
    pose proof (lookup_lt_Some _ _ _ Hk) as Hklt.
    destruct (lookup_lt_is_Some_2 file_list j) as [m Hm]; [lia|].
    destruct (Hevs j m Hj Hm) as (p & Hp & Hev'). rewrite Hev' in Hev. injection Hev as <-.
    apply (percent_of_open (Z.of_nat j) (Z.of_nat (length file_list)) p); [lia|lia|lia|done].
Qed.

Lemma progress_dialog_left_open_on_error_witness :
  ProgressDialog.accepted (progress_dialog_after not_an_archive "x.zip" "/tmp/x" []) = false
  ∧ ProgressDialog.accepted
      (progress_dialog_after (archive_with_bad_member ["a.jpg"; "b.jpg"; "c.jpg"] "b.jpg")
                             "x.zip" "/tmp/x" []) = false.
Proof.
  split.
  - apply (proj1 (proj2 (progress_dialog_left_open_on_error
                           not_an_archive "x.zip" "/tmp/x" []))
                 "File is not a zip file").
    reflexivity.
  - apply (proj2 (proj2 (progress_dialog_left_open_on_error
                           (archive_with_bad_member ["a.jpg"; "b.jpg"; "c.jpg"] "b.jpg")
                           "x.zip" "/tmp/x" []))
                 ["a.jpg"; "b.jpg"; "c.jpg"] 1%nat "b.jpg" [File "a.jpg"] "Bad CRC-32").
    + reflexivity.
    + vm_compute. lia.
    + reflexivity.
    + reflexivity.
    + reflexivity.
Defined.
